(** * Run orchestration core of the Azure AI Assistant tool

    A shallow embedding of
    - [azure/ai/assistant/management/stream_event_handler.py]
      (the translator from provider stream events to lifecycle callbacks),
    - [azure/ai/assistant/management/assistant_config.py] ([AssistantConfig.__eq__]),
    - [gui/main_window.py] (input processing, attachment reconciliation,
      presentation callbacks, scheduled task bookkeeping),
    and the properties of the orchestration core established on it.

    Python objects are modelled as records, dictionaries as [gmap]s, the
    callbacks and Qt signals a method fires as the list of what was emitted,
    in emission order, and a raised exception as an explicit outcome. *)

From Stdlib Require Import Ascii.
From stdpp Require Import base option list gmap strings.

Set Default Proof Using "Type".
Open Scope string_scope.
Open Scope list_scope.
Open Scope nat_scope.
#[local] Set Warnings "-register-all".

(** ** Stream event handler *)

Module Stream.

(** The callback interface of the assistant client
    ([AssistantClientCallbacks]), as far as the stream handler uses it.  The
    wall-clock argument [str(datetime.now())] of [on_run_start] and
    [on_run_end] is left out: no decision of the handler reads it. *)
Inductive signal : Type :=
| on_run_start (assistant_name run_identifier user_input : string)
| on_function_call_processed
    (assistant_name run_identifier function_name arguments response : string)
| on_run_update (assistant_name run_identifier run_status thread_name : string)
    (is_first_message : bool) (message : option string)
| on_run_end (assistant_name run_identifier thread_name : string).

(** What the handler reads from [ConversationThreadClient]. *)
Record ConversationThreadClient : Type := {
  get_thread_name_by_id : string → string;
  (** [retrieve_conversation(name).get_last_text_message("user").content] *)
  last_user_request : string → string
}.

(** What the handler reads from its parent [AssistantClient]. *)
Record AssistantClient : Type := {
  assistant_name_of : string;         (* parent._assistant_config.name *)
  thread_client : ConversationThreadClient
}.

Record handler : Type := {
  _parent : AssistantClient;
  _name : string;
  _is_first_message : bool;
  _is_started : bool;
  _is_submit_tool_call : bool;
  _thread_name : string;
  _thread_id : string;
  (** [self.current_run.id], kept by the vendor base class *)
  current_run_id : string
}.

(** [StreamEventHandler.__init__]; [run_id] is the run the stream belongs
    to.  Construction fires no callback. *)
Definition __init__ (parent : AssistantClient) (thread_id run_id : string)
    (is_submit_tool_call : bool) : handler :=
  {| _parent := parent;
     _name := assistant_name_of parent;
     _is_first_message := true;
     _is_started := false;
     _is_submit_tool_call := is_submit_tool_call;
     _thread_name := get_thread_name_by_id (thread_client parent) thread_id;
     _thread_id := thread_id;
     current_run_id := run_id |}.

Definition set_started (h : handler) : handler :=
  {| _parent := _parent h; _name := _name h;
     _is_first_message := _is_first_message h;
     _is_started := true;
     _is_submit_tool_call := _is_submit_tool_call h;
     _thread_name := _thread_name h; _thread_id := _thread_id h;
     current_run_id := current_run_id h |}.

Definition clear_first_message (h : handler) : handler :=
  {| _parent := _parent h; _name := _name h;
     _is_first_message := false;
     _is_started := _is_started h;
     _is_submit_tool_call := _is_submit_tool_call h;
     _thread_name := _thread_name h; _thread_id := _thread_id h;
     current_run_id := current_run_id h |}.

(** Each method returns the handler after the call and the callbacks it
    fired.  Methods that only log return the handler unchanged. *)
Definition on_exception (h : handler) : handler * list signal := (h, []).
Definition on_timeout (h : handler) : handler * list signal := (h, []).

Definition on_end (h : handler) : handler * list signal :=
  if negb (_is_submit_tool_call h)
  then (h, [on_run_end (_name h) (current_run_id h) (_thread_name h)])
  else (h, []).

Definition on_message_created (h : handler) : handler * list signal := (h, []).
Definition on_message_delta (h : handler) : handler * list signal := (h, []).

Definition on_message_done (h : handler) : handler * list signal :=
  (h, [on_run_update (_name h) (current_run_id h) "completed" (_thread_name h)
         false None]).

(** The block shared by [on_text_created] and [on_tool_call_created]. *)
Definition start_once (h : handler) : handler * list signal :=
  if negb (_is_started h) && negb (_is_submit_tool_call h)
  then
    let user_request :=
      last_user_request (thread_client (_parent h)) (_thread_name h) in
    (set_started h,
     [on_run_start (_name h) (current_run_id h) user_request])
  else (h, []).

Definition on_text_created (h : handler) : handler * list signal :=
  start_once h.

Definition on_text_delta (h : handler) (value : string)
  : handler * list signal :=
  (clear_first_message h,
   [on_run_update (_name h) (current_run_id h) "streaming" (_thread_name h)
      (_is_first_message h) (Some value)]).

Definition on_text_done (h : handler) : handler * list signal := (h, []).

Definition on_tool_call_created (h : handler) : handler * list signal :=
  start_once h.

Definition on_tool_call_delta (h : handler) : handler * list signal := (h, []).

(** One requested tool call together with what the function registry
    answered for it. *)
Record tool_call : Type := {
  function_name : string;
  arguments : string;
  response : string
}.

(** The events the vendor base class dispatches to the handler.  A
    tool-call-done event comes with [current_run.required_action.type]
    (if any) and, for ["submit_tool_outputs"], the requested calls and the
    events of the stream the provider answers the submission with. *)
Inductive event : Type :=
| EvException
| EvTimeout
| EvEnd
| EvMessageCreated
| EvMessageDelta
| EvMessageDone
| EvTextCreated
| EvTextDelta (value : string)
| EvTextDone
| EvToolCallCreated
| EvToolCallDelta
| EvToolCallDone (required_action : option string)
    (tool_calls : list tool_call) (resumed : list event).

Definition submits_tool_outputs (required_action : option string) : bool :=
  bool_decide (required_action = Some "submit_tool_outputs").

(** Modelled from the spec: [AssistantClient._handle_required_action], which
    is not part of the sources at hand.  The Tool Invocation Coordinator
    runs the requested calls, reports each one with
    [on_function_call_processed], and submits the outputs; the stream that
    answers the submission is consumed by a handler built with
    [is_submit_tool_call=True] (the constructor's documented purpose of
    that flag).  [resumed_out] is what that handler fired. *)
Definition _handle_required_action (h : handler) (tool_calls : list tool_call)
    (resumed_out : list signal) : list signal :=
  map (λ c, on_function_call_processed (_name h) (current_run_id h)
              (function_name c) (arguments c) (response c)) tool_calls
  ++ resumed_out.

Definition on_tool_call_done (h : handler) (required_action : option string)
    (tool_calls : list tool_call) (resumed_out : list signal)
  : handler * list signal :=
  if submits_tool_outputs required_action
  then (h, _handle_required_action h tool_calls resumed_out)
  else (h, []).

(** Dispatch of one event, as the vendor base class does it. *)
Fixpoint dispatch (h : handler) (e : event) {struct e}
  : handler * list signal :=
  match e with
  | EvException => on_exception h
  | EvTimeout => on_timeout h
  | EvEnd => on_end h
  | EvMessageCreated => on_message_created h
  | EvMessageDelta => on_message_delta h
  | EvMessageDone => on_message_done h
  | EvTextCreated => on_text_created h
  | EvTextDelta value => on_text_delta h value
  | EvTextDone => on_text_done h
  | EvToolCallCreated => on_tool_call_created h
  | EvToolCallDelta => on_tool_call_delta h
  | EvToolCallDone required_action tool_calls resumed =>
      on_tool_call_done h required_action tool_calls
        ((fix until_done (h' : handler) (es : list event) {struct es}
            : list signal :=
            match es with
            | [] => []
            | e' :: es' =>
                let '(h'', out) := dispatch h' e' in out ++ until_done h'' es'
            end)
           (__init__ (_parent h) (_thread_id h) (current_run_id h) true)
           resumed)
  end.

(** [stream.until_done()]: the events of one stream, in order. *)
Fixpoint until_done (h : handler) (es : list event) : list signal :=
  match es with
  | [] => []
  | e :: es' => let '(h', out) := dispatch h e in out ++ until_done h' es'
  end.

(** The handler after a stream prefix. *)
Fixpoint handler_after (h : handler) (es : list event) : handler :=
  match es with
  | [] => h
  | e :: es' => handler_after (dispatch h e).1 es'
  end.

(** One run: the primary stream is consumed by a handler built with
    [is_submit_tool_call=False]. *)
Definition process_run (parent : AssistantClient) (thread_id run_id : string)
    (events : list event) : list signal :=
  until_done (__init__ parent thread_id run_id false) events.

(** *** Observations on events and callbacks *)

Definition is_run_start (s : signal) : bool :=
  match s with on_run_start _ _ _ => true | _ => false end.

Definition is_run_end (s : signal) : bool :=
  match s with on_run_end _ _ _ => true | _ => false end.

(** The content-bearing events: the first text token of a message and the
    creation of a tool call. *)
Definition content_bearing (e : event) : bool :=
  match e with EvTextCreated | EvToolCallCreated => true | _ => false end.

Definition is_end (e : event) : bool :=
  match e with EvEnd => true | _ => false end.

(** The provider contract for one stream: nothing is delivered after its
    end, so an end event can only be the last one. *)
Fixpoint end_is_last (es : list event) : bool :=
  match es with
  | [] => true
  | e :: es' =>
      (if is_end e then match es' with [] => true | _ => false end else true)
      && end_is_last es'
  end.

(** The payload of an [on_run_update] with status ["streaming"]: the
    first-chunk flag and the text. *)
Definition streaming (s : signal) : option (bool * option string) :=
  match s with
  | on_run_update _ _ run_status _ is_first_message message =>
      if decide (run_status = "streaming")
      then Some (is_first_message, message) else None
  | _ => None
  end.

Definition is_text_delta (e : event) : bool :=
  match e with EvTextDelta _ => true | _ => false end.

(** A tool-call-done event that makes the handler submit tool outputs, and
    so opens a resumed stream. *)
Definition resumes (e : event) : bool :=
  match e with
  | EvToolCallDone required_action _ _ => submits_tool_outputs required_action
  | _ => false
  end.

(** The text deltas of a run in delivery order, those of resumed streams
    included. *)
Fixpoint deltas (e : event) : list string :=
  match e with
  | EvTextDelta value => [value]
  | EvToolCallDone required_action _ resumed =>
      if submits_tool_outputs required_action
      then flat_map deltas resumed else []
  | _ => []
  end.

(** The number of streams of a run, the primary one and every resumed one,
    that deliver at least one text delta of their own. *)
Fixpoint streams_with_delta_in (e : event) : nat :=
  match e with
  | EvToolCallDone required_action _ resumed =>
      if submits_tool_outputs required_action
      then (if existsb is_text_delta resumed then 1 else 0)
           + list_sum (map streams_with_delta_in resumed)
      else 0
  | _ => 0
  end.

Definition streams_with_delta (es : list event) : nat :=
  (if existsb is_text_delta es then 1 else 0)
  + list_sum (map streams_with_delta_in es).

(** What the receiver sees of the streamed text: the first-chunk flags and
    the chunks, one entry per ["streaming"] update. *)
Definition first_chunk_flags (out : list signal) : list bool :=
  fst <$> omap streaming out.

Definition streamed_chunks (out : list signal) : list (option string) :=
  snd <$> omap streaming out.

(** The updates with a given status. *)
Definition has_status (status : string) (s : signal) : bool :=
  match s with
  | on_run_update _ _ run_status _ _ _ => bool_decide (run_status = status)
  | _ => false
  end.

(** The number of message-done events of a run, resumed streams included. *)
Fixpoint message_dones (e : event) : nat :=
  match e with
  | EvMessageDone => 1
  | EvToolCallDone required_action _ resumed =>
      if submits_tool_outputs required_action
      then list_sum (map message_dones resumed) else 0
  | _ => 0
  end.

(** The number of streaming updates flagged as first chunk. *)
Definition flagged (out : list signal) : nat :=
  length (filter (λ b, b = true) (first_chunk_flags out)).

(** A list of callbacks without [on_run_start] and [on_run_end]. *)
Definition quiet (out : list signal) : Prop :=
  Forall (λ s, is_run_start s = false ∧ is_run_end s = false) out.

(** What one event adds to the flagged updates. *)
Definition flagged_spec (e : event) : Prop :=
  ∀ h, flagged (dispatch h e).2
       = (if _is_first_message h && is_text_delta e then 1 else 0)
         + streams_with_delta_in e.

(** The number of updates with status ["completed"]. *)
Definition completed_updates (out : list signal) : nat :=
  length (filter (λ s, has_status "completed" s = true) out).

(** Sample data: an assistant ["A"] on thread ["chat"], whose last user
    message is ["Hello"]. *)
Definition sample_threads : ConversationThreadClient :=
  {| get_thread_name_by_id := λ _, "chat"; last_user_request := λ _, "Hello" |}.

Definition sample_client : AssistantClient :=
  {| assistant_name_of := "A"; thread_client := sample_threads |}.

(** A plain streamed answer. *)
Definition sample_stream : list event :=
  [EvMessageCreated; EvTextCreated; EvTextDelta "Hi"; EvTextDelta " there";
   EvTextDone; EvMessageDone; EvEnd].

(** An answer that streams a chunk, asks for a tool call, and streams one
    more chunk once the tool output is submitted. *)
Definition sample_tool_stream : list event :=
  [EvTextCreated; EvTextDelta "Let me check. "; EvToolCallCreated;
   EvToolCallDone (Some "submit_tool_outputs")
     [{| function_name := "get_weather"; arguments := "{}"; response := "sunny" |}]
     [EvTextCreated; EvTextDelta "It is sunny."; EvMessageDone; EvEnd];
   EvEnd].

End Stream.

(** ** Assistant configuration *)

Module Config.

Section AssistantConfig.
(** A function specification of [selected_functions]: a JSON object, of
    which only equality is used. *)
Context {FunctionSpec : Type} `{EqDecision FunctionSpec}.

(** The fields of [AssistantConfig] as [__init__] sets them.
    [_function_configs] is left out: it is built from [_selected_functions]
    alone. *)
Record AssistantConfig : Type := {
  _name : string;
  _config_data : gmap string string;
  _instructions : string;
  _assistant_id : option string;
  _ai_client_type : string;
  _model : string;
  _knowledge_files : gmap string (option string);
  _selected_functions : list FunctionSpec;
  _knowledge_retrieval : bool;
  _code_interpreter : bool;
  _output_folder_path : string;
  _assistant_type : string
}.

(** The values [__eq__] can be handed: another configuration, or any other
    Python object, given by its [repr]. *)
Inductive object : Type :=
| Configuration (c : AssistantConfig)
| Other (repr : string).

(** What a rich comparison returns. *)
Inductive comparison : Type :=
| NotImplemented
| Bool (b : bool).

(** [AssistantConfig.__eq__] *)
Definition __eq__ (self : AssistantConfig) (other : object) : comparison :=
  match other with
  | Other _ => NotImplemented
  | Configuration other =>
      Bool (bool_decide (_name self = _name other)
            && bool_decide (_instructions self = _instructions other)
            && bool_decide (_assistant_id self = _assistant_id other)
            && bool_decide (_ai_client_type self = _ai_client_type other)
            && bool_decide (_model self = _model other)
            && bool_decide (_knowledge_files self = _knowledge_files other)
            && bool_decide (_selected_functions self = _selected_functions other)
            && bool_decide (_knowledge_retrieval self = _knowledge_retrieval other)
            && bool_decide (_code_interpreter self = _code_interpreter other))
  end.

(** Agreement on the nine compared fields. *)
Definition same_compared_fields (c d : AssistantConfig) : Prop :=
  _name c = _name d
  ∧ _instructions c = _instructions d
  ∧ _assistant_id c = _assistant_id d
  ∧ _ai_client_type c = _ai_client_type d
  ∧ _model c = _model d
  ∧ _knowledge_files c = _knowledge_files d
  ∧ _selected_functions c = _selected_functions d
  ∧ _knowledge_retrieval c = _knowledge_retrieval d
  ∧ _code_interpreter c = _code_interpreter d.

(** The same configuration with another output folder, assistant type and
    raw configuration data. *)
Definition relocated (c : AssistantConfig) (config_data : gmap string string)
    (output_folder_path assistant_type : string) : AssistantConfig :=
  {| _name := _name c;
     _config_data := config_data;
     _instructions := _instructions c;
     _assistant_id := _assistant_id c;
     _ai_client_type := _ai_client_type c;
     _model := _model c;
     _knowledge_files := _knowledge_files c;
     _selected_functions := _selected_functions c;
     _knowledge_retrieval := _knowledge_retrieval c;
     _code_interpreter := _code_interpreter c;
     _output_folder_path := output_folder_path;
     _assistant_type := assistant_type |}.

End AssistantConfig.

Arguments AssistantConfig FunctionSpec : clear implicits.
Arguments object FunctionSpec : clear implicits.

End Config.

(** ** Main window: input processing, attachments, presentation callbacks *)

Module Window.

(** How a call ends: it returns, or raises an exception (kept by its
    rendering, as the error signal shows it). *)
Inductive result (A : Type) : Type :=
| Returned (a : A)
| Raised (error : string).
Arguments Returned {A} a.
Arguments Raised {A} error.

(** Modelled from the spec: the enumeration [AttachmentType] is declared
    outside the sources at hand; an attachment is tagged as input of the code
    interpreter, input of the search index, or image.  The code names
    [IMAGE_FILE] only. *)
Inductive AttachmentType : Type :=
| CODE_INTERPRETER_INPUT
| SEARCH_INDEX_INPUT
| IMAGE_FILE.

#[global] Instance AttachmentType_eq_dec : EqDecision AttachmentType.
Proof. solve_decision. Defined.

Record Attachment : Type := {
  file_id : string;
  file_name : string;
  attachment_type : AttachmentType
}.

#[global] Instance Attachment_eq_dec : EqDecision Attachment.
Proof. solve_decision. Defined.

Record ConversationMessage : Type := {
  sender : string;
  (** the content of the text part, if the message has one *)
  text_message : option string;
  file_messages : list string
}.

(** What the main window does to the outside, in the order it does it: the
    Qt signals it emits and the calls it makes on its collaborators. *)
Inductive action : Type :=
| start_signal (assistant_name : string) (is_scheduled_task : bool)
| stop_signal (assistant_name : string) (is_scheduled_task : bool)
| error_signal (error_message : string)
| conversation_view_clear
| conversation_append_messages (messages : list ConversationMessage)
| conversation_append_message (message : ConversationMessage)
| conversation_append_chunk (assistant_name content : string)
    (is_first_message : bool)
| end_run_signal (assistant_name run_identifier run_end_time text : string)
| assistant_list_set_disabled (disabled : bool)
| stop_animation (status : string)
| start_animation (status : string)
| remove_attachment_from_thread_call (thread_id file_id : string)
| files_delete (file_id : string)
| create_conversation_thread_message (user_input thread_name : string)
| set_attachments_for_selected_thread (attachments : list Attachment)
| process_messages (assistant_name thread_name : string).

(** The signals that change the conversation view. *)
Definition changes_conversation_view (a : action) : bool :=
  match a with
  | conversation_view_clear | conversation_append_messages _
  | conversation_append_message _ | conversation_append_chunk _ _ _ => true
  | _ => false
  end.

(** *** The thread configuration *)

(** The attachment lists of [ConversationThreadConfig], by thread id. *)
Abbreviation thread_config := (gmap string (list Attachment)).

(** Modelled from the spec: [get_attachments_of_thread] and
    [remove_attachment_from_thread] belong to [ConversationThreadConfig],
    which is not part of the sources at hand.  A thread holds a list of
    attachments; detaching a file id drops the attachments with that id. *)
Definition get_attachments_of_thread (config : thread_config)
    (thread_id : string) : list Attachment :=
  default [] (config !! thread_id).

Definition remove_attachment_from_thread (config : thread_config)
    (thread_id file_id' : string) : thread_config :=
  alter (filter (λ att, file_id att ≠ file_id')) thread_id config.

(** *** The collaborators of the main window *)

Record Collaborators : Type := {
  (** [conversation_thread_clients[active_ai_client_type] is not None] *)
  thread_client_initialized : bool;
  get_thread_id_by_name : string → string;
  (** the file ids whose remote deletion raises *)
  files_delete_fails : string → option string;
  (** whether creating the message of a thread raises *)
  create_message_fails : string → option string;
  (** [retrieve_conversation]: the messages of the known threads *)
  conversations : gmap string (list ConversationMessage);
  (** [is_current_conversation_thread]: the thread on display *)
  current_conversation_thread : option string;
  (** [assistant_client_manager.get_client]; a client is given by how its
      [process_messages] ends on a thread *)
  clients : gmap string (string → result unit);
  realtime_assistants : gset string;
  selected_assistants : gset string
}.

Definition retrieve_conversation (env : Collaborators) (thread_name : string)
  : result (list ConversationMessage) :=
  match conversations env !! thread_name with
  | Some messages => Returned messages
  | None => Raised ("thread " +:+ thread_name +:+ " not found")
  end.

Definition is_current_conversation_thread (env : Collaborators)
    (thread_name : string) : bool :=
  bool_decide (current_conversation_thread env = Some thread_name).

(** *** Attachment reconciliation *)

(** [[att["file_id"] for att in attachments_dicts]]; a dictionary without
    the key raises [KeyError]. *)
Definition all_file_ids (attachments_dicts : list (gmap string string))
  : option (list string) :=
  mapM (λ att, att !! "file_id") attachments_dicts.

(** The loop over [attachments_to_remove]. *)
Fixpoint remove_attachments (env : Collaborators) (config : thread_config)
    (thread_id : string) (attachments_to_remove : list Attachment)
  : thread_config * list action * result unit :=
  match attachments_to_remove with
  | [] => (config, [], Returned ())
  | attachment :: rest =>
      let config1 :=
        remove_attachment_from_thread config thread_id (file_id attachment) in
      let detach :=
        remove_attachment_from_thread_call thread_id (file_id attachment) in
      if bool_decide (attachment_type attachment ≠ IMAGE_FILE)
      then
        match files_delete_fails env (file_id attachment) with
        | Some error =>
            (config1, [detach; files_delete (file_id attachment)], Raised error)
        | None =>
            let '(config2, out, r) :=
              remove_attachments env config1 thread_id rest in
            (config2, detach :: files_delete (file_id attachment) :: out, r)
        end
      else
        let '(config2, out, r) :=
          remove_attachments env config1 thread_id rest in
        (config2, detach :: out, r)
  end.

(** [MainWindow.update_attachments_from_ui_to_thread]; [attachments_dicts]
    is [None] when the caller passes no attachment list. *)
Definition update_attachments_from_ui_to_thread (env : Collaborators)
    (config : thread_config) (thread_id : string)
    (attachments_dicts : option (list (gmap string string)))
  : thread_config * list action * result unit :=
  let existing_attachments := get_attachments_of_thread config thread_id in
  match attachments_dicts with
  | None => (config, [], Raised "'NoneType' object is not iterable")
  | Some dicts =>
      match all_file_ids dicts with
      | None => (config, [], Raised "'file_id'")
      | Some all_attachment_ids =>
          let attachments_to_remove :=
            filter (λ att, file_id att ∉ all_attachment_ids)
              existing_attachments in
          remove_attachments env config thread_id attachments_to_remove
      end
  end.

(** What the loop does for one attachment when nothing raises: it detaches
    it, and requests its remote deletion unless it is an image. *)
Definition removal (thread_id : string) (attachment : Attachment) : list action :=
  remove_attachment_from_thread_call thread_id (file_id attachment)
  :: (if bool_decide (attachment_type attachment ≠ IMAGE_FILE)
      then [files_delete (file_id attachment)] else []).

(** *** Processing an input *)

(** [MainWindow.create_thread_message] *)
Definition create_thread_message (env : Collaborators)
    (user_input thread_name : string)
    (attachments_dicts : option (list (gmap string string)))
  : list action * result unit :=
  match retrieve_conversation env thread_name with
  | Raised error => ([], Raised error)
  | Returned conversation =>
      match attachments_dicts ≫= (λ dicts,
              match all_file_ids dicts with
              | None => Some "'file_id'" | Some _ => None
              end) with
      | Some error => ([], Raised error)
      | None =>
          ([create_conversation_thread_message user_input thread_name],
           match create_message_fails env thread_name with
           | Some error => Raised error
           | None => Returned ()
           end)
      end
  end.

(** [MainWindow.update_attachments_in_ui_from_thread] *)
Definition update_attachments_in_ui_from_thread (config : thread_config)
    (thread_id : string) : list action :=
  [set_attachments_for_selected_thread
     (get_attachments_of_thread config thread_id)].

(** [MainWindow.update_conversation_messages] *)
Definition update_conversation_messages
    (conversation : list ConversationMessage) : list action :=
  [conversation_view_clear; conversation_append_messages conversation].

(** [MainWindow.process_assistant_input] *)
Definition process_assistant_input (env : Collaborators)
    (assistant_name thread_name : string) (is_scheduled_task : bool)
  : list action * result unit :=
  let started := [start_signal assistant_name is_scheduled_task] in
  let stopped := [stop_signal assistant_name is_scheduled_task] in
  match clients env !! assistant_name with
  | None => (started ++ stopped, Returned ())
  | Some assistant_client =>
      let call := [process_messages assistant_name thread_name] in
      match assistant_client thread_name with
      | Returned _ => (started ++ call ++ stopped, Returned ())
      | Raised error => (started ++ call, Raised error)
      end
  end.

(** The loop [for assistant_name in assistants] of [process_input].  The
    third component is the loop variable when the loop is left: unbound
    ([None]) as long as no iteration has begun. *)
Fixpoint process_assistants (env : Collaborators) (assistants : list string)
    (thread_name : string) (is_scheduled_task : bool)
    (assistant_name : option string)
  : list action * result unit * option string :=
  match assistants with
  | [] => ([], Returned (), assistant_name)
  | name :: rest =>
      let '(out, r) :=
        process_assistant_input env name thread_name is_scheduled_task in
      match r with
      | Raised error => (out, Raised error, Some name)
      | Returned _ =>
          let '(out', r', last) :=
            process_assistants env rest thread_name is_scheduled_task
              (Some name) in
          (out ++ out', r', last)
      end
  end.

(** The [try] block of [process_input]. *)
Definition process_input_body (env : Collaborators) (config : thread_config)
    (user_input : string) (assistants : list string) (thread_name : string)
    (is_scheduled_task : bool)
    (attachments_dicts : option (list (gmap string string)))
  : thread_config * list action * result unit * option string :=
  if negb (thread_client_initialized env)
  then (config, [], Raised "'NoneType' object has no attribute 'get_config'",
        None)
  else
    let thread_id := get_thread_id_by_name env thread_name in
    let '(config1, out1, r1) :=
      update_attachments_from_ui_to_thread env config thread_id
        attachments_dicts in
    match r1 with
    | Raised error => (config1, out1, Raised error, None)
    | Returned _ =>
        let '(out2, r2) :=
          create_thread_message env user_input thread_name attachments_dicts in
        match r2 with
        | Raised error => (config1, out1 ++ out2, Raised error, None)
        | Returned _ =>
            let out3 := update_attachments_in_ui_from_thread config1 thread_id in
            match retrieve_conversation env thread_name with
            | Raised error =>
                (config1, out1 ++ out2 ++ out3, Raised error, None)
            | Returned updated_conversation =>
                let out4 := update_conversation_messages updated_conversation in
                let '(out5, r5, assistant_name) :=
                  process_assistants env assistants thread_name
                    is_scheduled_task None in
                (config1, out1 ++ out2 ++ out3 ++ out4 ++ out5, r5,
                 assistant_name)
            end
        end
    end.

(** [MainWindow.process_input]: the [try] block and its [except Exception]
    clause.  The clause emits the error, then the stop signal for the loop
    variable [assistant_name]; reading that variable raises when no
    iteration of the loop has begun. *)
Definition process_input (env : Collaborators) (config : thread_config)
    (user_input : string) (assistants : list string) (thread_name : string)
    (is_scheduled_task : bool)
    (attachments_dicts : option (list (gmap string string)))
  : thread_config * list action * result unit :=
  let '(config', out, r, assistant_name) :=
    process_input_body env config user_input assistants thread_name
      is_scheduled_task attachments_dicts in
  match r with
  | Returned _ => (config', out, Returned ())
  | Raised error =>
      let error_message :=
        "An error occurred while processing the input: " +:+ error in
      match assistant_name with
      | None =>
          (config', out ++ [error_signal error_message],
           Raised "cannot access local variable 'assistant_name' where it is not associated with a value")
      | Some name =>
          (config',
           out ++ [error_signal error_message;
                   stop_signal name is_scheduled_task],
           Returned ())
      end
  end.

(** *** Presentation callbacks *)

Definition is_realtime_assistant (env : Collaborators) (assistant_name : string)
  : bool :=
  bool_decide (assistant_name ∈ realtime_assistants env).

Definition is_assistant_selected (env : Collaborators) (assistant_name : string)
  : bool :=
  bool_decide (assistant_name ∈ selected_assistants env).

(** ["keyword" in run_identifier] *)
Definition mentions_keyword (run_identifier : string) : bool :=
  bool_decide (is_Some (String.index 0 "keyword" run_identifier)).

(** [MainWindow.handle_realtime_run_end] *)
Definition handle_realtime_run_end (env : Collaborators)
    (assistant_name run_identifier : string) : list action :=
  if is_realtime_assistant env assistant_name
  then
    assistant_list_set_disabled false
    :: (if mentions_keyword run_identifier
        then
          stop_animation "LISTENING_SPEECH"
          :: (if is_assistant_selected env assistant_name
              then [start_animation "LISTENING_KEYWORD"] else [])
        else [])
  else [].

(** [MainWindow.on_run_update] *)
Definition on_run_update (env : Collaborators)
    (assistant_name run_identifier run_status thread_name : string)
    (is_first_message : bool) (message : option ConversationMessage)
  : list action * result unit :=
  let is_current_thread := is_current_conversation_thread env thread_name in
  if negb is_current_thread then ([], Returned ())
  else if bool_decide (run_status = "streaming") then
    match message with
    | None => ([], Raised "'NoneType' object has no attribute 'text_message'")
    | Some message =>
        match text_message message with
        | Some content =>
            ([conversation_append_chunk assistant_name content
                is_first_message], Returned ())
        | None => ([], Returned ())
        end
    end
  else
    match bool_decide (run_status = "in_progress"), message with
    | true, Some message => ([conversation_append_message message], Returned ())
    | _, _ =>
        match retrieve_conversation env thread_name with
        | Raised error => ([], Raised error)
        | Returned conversation =>
            match conversation with
            | [] => ([], Returned ())
            | _ :: _ => (update_conversation_messages conversation, Returned ())
            end
        end
    end.

(** [MainWindow.on_run_failed] *)
Definition on_run_failed (env : Collaborators)
    (assistant_name run_identifier run_end_time error_code error_message
       thread_name : string)
  : list action * result unit :=
  let error_string :=
    "Run failed due to error code: " +:+ error_code +:+ ", message: "
    +:+ error_message in
  let diagnostics :=
    end_run_signal assistant_name run_identifier run_end_time error_string
    :: handle_realtime_run_end env assistant_name run_identifier in
  match retrieve_conversation env thread_name with
  | Raised error => (diagnostics, Raised error)
  | Returned conversation =>
      (diagnostics ++ update_conversation_messages conversation, Returned ())
  end.

(** *** Observations on what the main window did *)

(** The notifications and the submission of one assistant's processing. *)
Definition about_processing (a : action) : bool :=
  match a with
  | start_signal _ _ | stop_signal _ _ | process_messages _ _ => true
  | _ => false
  end.

(** The ways one assistant's processing shows in what [process_input] did:
    no client is bound, the submission returns, or it raises and the
    [except] clause of [process_input] takes over. *)
Inductive processing (thread_name : string) (is_scheduled_task : bool)
  : list action → Prop :=
| processing_without_client assistant_name :
    processing thread_name is_scheduled_task
      [start_signal assistant_name is_scheduled_task;
       stop_signal assistant_name is_scheduled_task]
| processing_returned assistant_name :
    processing thread_name is_scheduled_task
      [start_signal assistant_name is_scheduled_task;
       process_messages assistant_name thread_name;
       stop_signal assistant_name is_scheduled_task]
| processing_raised assistant_name error_message :
    processing thread_name is_scheduled_task
      [start_signal assistant_name is_scheduled_task;
       process_messages assistant_name thread_name;
       error_signal error_message;
       stop_signal assistant_name is_scheduled_task].

(** Sample data: thread ["chat"] with three attachments, of which the user
    keeps the last one; assistant ["A"] answers, assistant ["B"] fails. *)
Definition sample_attachments : list Attachment :=
  [{| file_id := "f1"; file_name := "report.csv";
      attachment_type := CODE_INTERPRETER_INPUT |};
   {| file_id := "f2"; file_name := "photo.png"; attachment_type := IMAGE_FILE |};
   {| file_id := "f3"; file_name := "notes.txt";
      attachment_type := SEARCH_INDEX_INPUT |}].

Definition sample_config : thread_config := {[ "thread_1" := sample_attachments ]}.

Definition sample_submitted : list (gmap string string) :=
  [{[ "file_id" := "f3"; "file_name" := "notes.txt" ]}].

Definition sample_conversation : list ConversationMessage :=
  [{| sender := "user"; text_message := Some "Hello"; file_messages := [] |}].

Definition sample_env : Collaborators :=
  {| thread_client_initialized := true;
     get_thread_id_by_name := λ _, "thread_1";
     files_delete_fails := λ _, None;
     create_message_fails := λ _, None;
     conversations :=
       {[ "chat" := sample_conversation;
          "Scheduled_report" :=
            [{| sender := "user"; text_message := Some "Daily report";
                file_messages := [] |}] ]};
     current_conversation_thread := Some "chat";
     clients :=
       {[ "A" := λ _, Returned (); "B" := λ _, Raised "rate limit exceeded" ]};
     realtime_assistants := ∅;
     selected_assistants := {[ "A" ]} |}.

End Window.

(** ** Main window: scheduled tasks and their threads *)

Module Scheduler.

Abbreviation result := Window.result.
Abbreviation Returned := Window.Returned.
Abbreviation Raised := Window.Raised.

(** The tasks the task manager hands over; [OtherTask] stands for a task
    that is none of the three kinds [on_task_execute] knows. *)
Inductive Task : Type :=
| BasicTask (user_request assistant_name : string)
| BatchTask (requests : list string) (assistant_name : string)
| MultiTask (requests : list (string * string))  (* assistant, task *)
| OtherTask.

(** What the scheduling callbacks use of the rest of the window. *)
Record Environment : Type := {
  (** [conversation_thread_clients[active_ai_client_type] is not None] *)
  threads_client_initialized : bool;
  (** [conversation_sidebar.create_conversation_thread]: the name given to
      the thread created when [n] threads were created before *)
  create_conversation_thread : nat → string;
  use_system_assistant_for_thread_name : bool;
  (** [update_conversation_title(text, thread_name, True)] *)
  update_conversation_title : string → option string → result (option string);
  (** how [process_input(user_request, [assistant], thread_name, True)] ends *)
  process_input : string → list string → option string → result unit;
  (** [conversation_sidebar.threadList.is_thread_selected] *)
  is_thread_selected : option string → bool
}.

(** [scheduled_task_threads] maps a schedule id to a thread name, or to
    [None]; [threads_created] lists the threads set up for scheduled tasks
    so far. *)
Record state : Type := {
  scheduled_task_threads : gmap string (option string);
  threads_created : list string
}.

(** [dict.get]: the thread name bound to a schedule id, [None] when there is
    no binding or the binding is to [None]. *)
Definition get (table : gmap string (option string)) (schedule_id : string)
  : option string :=
  mjoin (table !! schedule_id).

(** [MainWindow.setup_conversation_thread(True)] *)
Definition setup_conversation_thread (env : Environment) (st : state)
  : result string :=
  if threads_client_initialized env
  then Returned (create_conversation_thread env (length (threads_created st)))
  else Raised "Conversation thread client not initialized".

(** [MainWindow.on_task_started], run alone. *)
Definition on_task_started (env : Environment) (st : state)
    (schedule_id : string) : state * result unit :=
  if bool_decide (schedule_id ∉ dom (scheduled_task_threads st))
  then
    match setup_conversation_thread env st with
    | Window.Raised error => (st, Raised error)
    | Window.Returned thread_name =>
        ({| scheduled_task_threads :=
              <[schedule_id := Some thread_name]> (scheduled_task_threads st);
            threads_created := threads_created st ++ [thread_name] |},
         Returned ())
    end
  else (st, Returned ()).

(** What [handle_execution] does to the outside: the signals it emits and
    its call of [process_input]. *)
Inductive action : Type :=
| append_conversation_signal (role content color : string)
| update_conversation_title_signal (thread_name updated : option string)
| process_input_call (user_request : string) (assistants : list string)
    (thread_name : option string).

(** [MainWindow.handle_execution], run alone. *)
Definition handle_execution (env : Environment) (st : state)
    (user_request schedule_id assistant_name : string)
  : state * list action * result unit :=
  let thread_name := get (scheduled_task_threads st) schedule_id in
  let shown :=
    if is_thread_selected env thread_name
    then [append_conversation_signal "user" user_request "blue"] else [] in
  let renamed :=
    if use_system_assistant_for_thread_name env
    then
      match update_conversation_title env user_request thread_name with
      | Window.Raised error => Raised error
      | Window.Returned updated_thread_name =>
          Returned ([update_conversation_title_signal thread_name
                       updated_thread_name], updated_thread_name)
      end
    else Returned ([], thread_name) in
  match renamed with
  | Window.Raised error => (st, shown, Raised error)
  | Window.Returned (retitled, thread_name) =>
      let st' :=
        {| scheduled_task_threads :=
             <[schedule_id := thread_name]> (scheduled_task_threads st);
           threads_created := threads_created st |} in
      let assistant_list := [assistant_name] in
      (st',
       shown ++ retitled
       ++ [process_input_call user_request assistant_list thread_name],
       process_input env user_request assistant_list thread_name)
  end.

(** A loop of [handle_execution] calls; it is left at the first call that
    raises. *)
Fixpoint handle_executions (env : Environment) (st : state)
    (schedule_id : string) (requests : list (string * string))
  : state * list action * result unit :=
  match requests with
  | [] => (st, [], Returned ())
  | (assistant_name, user_request) :: rest =>
      let '(st1, out1, r1) :=
        handle_execution env st user_request schedule_id assistant_name in
      match r1 with
      | Window.Raised error => (st1, out1, Raised error)
      | Window.Returned _ =>
          let '(st2, out2, r2) := handle_executions env st1 schedule_id rest in
          (st2, out1 ++ out2, r2)
      end
  end.

(** [MainWindow.on_task_execute] *)
Definition on_task_execute (env : Environment) (st : state) (task : Task)
    (schedule_id : string) : state * list action * result unit :=
  match task with
  | BasicTask user_request assistant_name =>
      handle_execution env st user_request schedule_id assistant_name
  | BatchTask requests assistant_name =>
      handle_executions env st schedule_id
        ((λ request, (assistant_name, request)) <$> requests)
  | MultiTask requests => handle_executions env st schedule_id requests
  | OtherTask => (st, [], Returned ())
  end.

(** [MainWindow.cleanup_scheduled_thread], run alone. *)
Definition cleanup_scheduled_thread (st : state) (schedule_id : string) : state :=
  if bool_decide (schedule_id ∈ dom (scheduled_task_threads st))
  then {| scheduled_task_threads := delete schedule_id (scheduled_task_threads st);
          threads_created := threads_created st |}
  else st.

(** [MainWindow.on_task_completed] and [MainWindow.on_task_failed] *)
Definition on_task_completed (st : state) (schedule_id : string) : state :=
  cleanup_scheduled_thread st schedule_id.

Definition on_task_failed (st : state) (schedule_id : string) : state :=
  cleanup_scheduled_thread st schedule_id.

(** The callbacks of [TaskManagerCallbacks], and the state after one. *)
Inductive callback : Type :=
| Started (task : Task) (schedule_id : string)
| Execute (task : Task) (schedule_id : string)
| Completed (task : Task) (schedule_id : string)
| Failed (task : Task) (schedule_id : string).

Definition deliver (env : Environment) (st : state) (cb : callback) : state :=
  match cb with
  | Started _ schedule_id => (on_task_started env st schedule_id).1
  | Execute task schedule_id => (on_task_execute env st task schedule_id).1.1
  | Completed _ schedule_id => on_task_completed st schedule_id
  | Failed _ schedule_id => on_task_failed st schedule_id
  end.

Definition deliver_all (env : Environment) (st : state) (cbs : list callback)
  : state :=
  foldl (deliver env) st cbs.

Definition is_terminal_for (schedule_id : string) (cb : callback) : bool :=
  match cb with
  | Completed _ sid | Failed _ sid => bool_decide (sid = schedule_id)
  | _ => false
  end.

(** The threads [process_input] was called on. *)
Definition submitted_on (a : action) : option (option string) :=
  match a with
  | process_input_call _ _ thread_name => Some thread_name
  | _ => None
  end.

Definition bound (st : state) (schedule_id : string) : Prop :=
  schedule_id ∈ dom (scheduled_task_threads st).

(** The callbacks of an occurrence that is not over: started and execute. *)
Definition occurrence_of (schedule_id : string) (cb : callback) : Prop :=
  ∃ task, cb = Started task schedule_id ∨ cb = Execute task schedule_id.

(** What one execution keeps: every binding, the threads created, and,
    unless titles are updated, the thread each schedule id is bound to; it
    submits on the thread its own schedule id is bound to. *)
Definition kept (env : Environment) (schedule_id : string) (st st' : state)
    (out : list action) : Prop :=
  threads_created st' = threads_created st
  ∧ (∀ sid, bound st sid → bound st' sid)
  ∧ (∀ sid, sid ≠ schedule_id →
       scheduled_task_threads st' !! sid = scheduled_task_threads st !! sid)
  ∧ (use_system_assistant_for_thread_name env = false →
     (∀ sid, get (scheduled_task_threads st') sid
             = get (scheduled_task_threads st) sid)
     ∧ Forall (λ a, ∀ t, submitted_on a = Some t →
                 t = get (scheduled_task_threads st) schedule_id) out).

(** Sample data: titles are not updated, threads are named after the time
    they are created, and submissions of scheduled tasks raise. *)
Definition sample_env : Environment :=
  {| threads_client_initialized := true;
     create_conversation_thread :=
       λ n, if decide (n = 0) then "Scheduled_1" else "Scheduled_n";
     use_system_assistant_for_thread_name := false;
     update_conversation_title := λ _ thread_name, Returned thread_name;
     process_input := λ _ _ _, Raised "cannot access local variable 'assistant_name'";
     is_thread_selected := λ _, false |}.

Definition initial : state :=
  {| scheduled_task_threads := ∅; threads_created := [] |}.

(** *** Callbacks running concurrently *)

(** The three methods that work on [scheduled_task_threads], each under
    [with self.thread_lock]. *)
Inductive operation : Type :=
| TaskStarted (schedule_id : string)                      (* on_task_started *)
| Execution (user_request schedule_id assistant_name : string)
                                                          (* handle_execution *)
| Cleanup (schedule_id : string).               (* cleanup_scheduled_thread *)

Definition schedule_id_of (op : operation) : string :=
  match op with
  | TaskStarted sid | Execution _ sid _ | Cleanup sid => sid
  end.

(** Where a worker thread stands in its method.  Each point is named after
    the statement the thread runs next; local variables it has assigned are
    kept with the point. *)
Inductive point : Type :=
| Entering                        (* with self.thread_lock: *)
| TestAbsent                      (* if schedule_id not in ...threads: *)
| SetUp                           (* thread_name = self.setup_conversation_thread(True) *)
| Bind (thread_name : string)     (* ...threads[schedule_id] = thread_name *)
| Look                            (* thread_name = ...threads.get(schedule_id) *)
| Retitle (thread_name : option string)
                                  (* if self.use_system_assistant_for_thread_name: ... *)
| Rebind (thread_name : option string)
                                  (* ...threads[schedule_id] = thread_name *)
| Process (thread_name : option string)
                                  (* self.process_input(...) *)
| TestPresent                     (* if schedule_id in ...threads: *)
| Unbind                          (* del ...threads[schedule_id] *)
| Leaving (r : result unit)       (* end of the with block: release *)
| Left (r : result unit).

(** The first statement under the lock. *)
Definition first_point (op : operation) : point :=
  match op with
  | TaskStarted _ => TestAbsent
  | Execution _ _ _ => Look
  | Cleanup _ => TestPresent
  end.

(** The points between acquiring and releasing the lock. *)
Definition inside (p : point) : bool :=
  match p with Entering | Left _ => false | _ => true end.

(** The points whose statement reads or writes [scheduled_task_threads]. *)
Definition accesses_table (p : point) : bool :=
  match p with
  | TestAbsent | Bind _ | Look | Rebind _ | TestPresent | Unbind => true
  | _ => false
  end.

(** One statement of a method, run on the shared state. *)
Definition statement (env : Environment) (st : state) (op : operation)
    (p : point) : option (state * point) :=
  let table := scheduled_task_threads st in
  match op, p with
  | TaskStarted sid, TestAbsent =>
      Some (st, if bool_decide (sid ∉ dom table) then SetUp
                else Leaving (Returned ()))
  | TaskStarted sid, SetUp =>
      match setup_conversation_thread env st with
      | Window.Raised error => Some (st, Leaving (Raised error))
      | Window.Returned thread_name =>
          Some ({| scheduled_task_threads := table;
                   threads_created := threads_created st ++ [thread_name] |},
                Bind thread_name)
      end
  | TaskStarted sid, Bind thread_name =>
      Some ({| scheduled_task_threads := <[sid := Some thread_name]> table;
               threads_created := threads_created st |},
            Leaving (Returned ()))
  | Execution _ sid _, Look => Some (st, Retitle (get table sid))
  | Execution user_request sid _, Retitle thread_name =>
      if use_system_assistant_for_thread_name env
      then
        match update_conversation_title env user_request thread_name with
        | Window.Raised error => Some (st, Leaving (Raised error))
        | Window.Returned updated_thread_name =>
            Some (st, Rebind updated_thread_name)
        end
      else Some (st, Rebind thread_name)
  | Execution _ sid _, Rebind thread_name =>
      Some ({| scheduled_task_threads := <[sid := thread_name]> table;
               threads_created := threads_created st |},
            Process thread_name)
  | Execution user_request _ assistant_name, Process thread_name =>
      Some (st, Leaving (process_input env user_request [assistant_name]
                           thread_name))
  | Cleanup sid, TestPresent =>
      Some (st, if bool_decide (sid ∈ dom table) then Unbind
                else Leaving (Returned ()))
  | Cleanup sid, Unbind =>
      Some ({| scheduled_task_threads := delete sid table;
               threads_created := threads_created st |},
            Leaving (Returned ()))
  | _, _ => None
  end.

(** The window with its worker threads: the shared state, the holder of
    [thread_lock] if it is held, and where each worker stands. *)
Record system : Type := {
  shared : state;
  thread_lock : option nat;
  workers : list (operation * point)
}.

(** One step of worker [i].  A worker that finds the lock held, or has left
    its method, cannot step; the lock is released where the [with] block
    ends, however it ends. *)
Definition step (env : Environment) (i : nat) (sys : system) : option system :=
  match workers sys !! i with
  | None => None
  | Some (op, Entering) =>
      match thread_lock sys with
      | Some _ => None
      | None =>
          Some {| shared := shared sys; thread_lock := Some i;
                  workers := <[i := (op, first_point op)]> (workers sys) |}
      end
  | Some (op, Left _) => None
  | Some (op, Leaving r) =>
      Some {| shared := shared sys; thread_lock := None;
              workers := <[i := (op, Left r)]> (workers sys) |}
  | Some (op, p) =>
      match statement env (shared sys) op p with
      | None => None
      | Some (st', p') =>
          Some {| shared := st'; thread_lock := thread_lock sys;
                  workers := <[i := (op, p')]> (workers sys) |}
      end
  end.

(** An interleaving names the worker that is given each next turn; a turn
    given to a worker that cannot step passes. *)
Definition turn (env : Environment) (sys : system) (i : nat) : system :=
  default sys (step env i sys).

Definition run (env : Environment) (sys : system) (interleaving : list nat)
  : system :=
  foldl (turn env) sys interleaving.

(** All workers at the entry of their methods, the lock free. *)
Definition start (st : state) (ops : list operation) : system :=
  {| shared := st; thread_lock := None;
     workers := (λ op, (op, Entering)) <$> ops |}.

(** What a worker between a test and the write that depends on it relies
    on: the table still is as tested. *)
Definition as_tested (st : state) (op : operation) (p : point) : Prop :=
  match op, p with
  | TaskStarted sid, SetUp | TaskStarted sid, Bind _ => ¬ bound st sid
  | Cleanup sid, Unbind => bound st sid
  | Execution _ sid _, Retitle thread_name =>
      thread_name = get (scheduled_task_threads st) sid
  | _, _ => True
  end.

(** The invariant of the lock: a worker inside its method holds the lock,
    and the table is as it tested it. *)
Definition lock_invariant (sys : system) : Prop :=
  ∀ i op p, workers sys !! i = Some (op, p) → inside p = true →
    thread_lock sys = Some i ∧ as_tested (shared sys) op p.

(** What holds while workers start the same scheduled task concurrently
    from state [st0]: every worker runs [on_task_started] for that schedule
    id, a binding is never removed, and at most one thread has been set up,
    which is bound or about to be bound. *)
Definition one_set_up (st0 : state) (schedule_id : string) (sys : system)
  : Prop :=
  (∀ i op p, workers sys !! i = Some (op, p) → op = TaskStarted schedule_id)
  ∧ (bound st0 schedule_id → bound (shared sys) schedule_id)
  ∧ (threads_created (shared sys) = threads_created st0
     ∨ ∃ thread_name,
         threads_created (shared sys) = threads_created st0 ++ [thread_name]
         ∧ (bound (shared sys) schedule_id
            ∨ ∃ i, workers sys !! i
                   = Some (TaskStarted schedule_id, Bind thread_name)))
  ∧ (bound st0 schedule_id →
     threads_created (shared sys) = threads_created st0).

End Scheduler.

(** ** Stream event handler: further observations *)

Module StreamRun.
Import Stream.

(** A callback made on behalf of a given assistant, run and thread: the
    identifying arguments every callback of the interface starts with. *)
Definition made_for (assistant_name run_identifier thread_name : string)
    (s : signal) : Prop :=
  match s with
  | on_run_start a r _ => a = assistant_name ∧ r = run_identifier
  | on_function_call_processed a r _ _ _ =>
      a = assistant_name ∧ r = run_identifier
  | on_run_update a r _ t _ _ =>
      a = assistant_name ∧ r = run_identifier ∧ t = thread_name
  | on_run_end a r t =>
      a = assistant_name ∧ r = run_identifier ∧ t = thread_name
  end.

(** A handler as [__init__] leaves its identifying fields: the name is the
    parent's, the thread name is the one of the thread id. *)
Definition well_built (h : handler) : Prop :=
  _name h = assistant_name_of (_parent h)
  ∧ _thread_name h
    = get_thread_name_by_id (thread_client (_parent h)) (_thread_id h).




End StreamRun.

(** ** Assistant configuration: construction and export *)

Module ConfigData.

Abbreviation result := Window.result.
Abbreviation Returned := Window.Returned.
Abbreviation Raised := Window.Raised.

Section config_data.
Context {FunctionSpec : Type} `{EqDecision FunctionSpec}.

(** The configuration dictionary, by the keys the class reads or writes:
    [None] for a key that is absent.  The value of ['assistant_id'] and the
    values of ['knowledge_files'] are strings or [None]. *)
Record config_data : Type := {
  name : option string;
  instructions : option string;
  assistant_id : option (option string);
  ai_client_type : option string;
  model : option string;
  knowledge_files : option (gmap string (option string));
  selected_functions : option (list FunctionSpec);
  knowledge_retrieval : option bool;
  code_interpreter : option bool;
  output_folder_path : option string;
  assistant_type : option string
}.

(** The object, with the dictionary it was built from. *)
Record AssistantConfig : Type := {
  _name : string;
  _config_data : config_data;
  _instructions : string;
  _assistant_id : option string;
  _ai_client_type : string;
  _model : string;
  _knowledge_files : gmap string (option string);
  _selected_functions : list FunctionSpec;
  (** one [FunctionConfig] per selected function, given by its spec *)
  _function_configs : list FunctionSpec;
  _knowledge_retrieval : bool;
  _code_interpreter : bool;
  _output_folder_path : string;
  _assistant_type : string
}.

(** [v if v != '' else None] *)
Definition none_if_empty (v : option string) : option string :=
  match v with
  | Some s => if bool_decide (s = "") then None else Some s
  | None => None
  end.

(** [AssistantConfig.__init__]; [default_output_folder_path] is
    [os.path.join(os.getcwd(), 'output')].  The keys ['instructions'] and
    ['model'] are read by subscript, in this order, the others with a
    default. *)
Definition __init__ (default_output_folder_path : string) (name' : string)
    (data : config_data) : result AssistantConfig :=
  match instructions data with
  | None => Raised "'instructions'"
  | Some instructions' =>
      let assistant_id' :=
        match assistant_id data with
        | None => None
        | Some v => none_if_empty v
        end in
      let ai_client_type' := default "OPEN_AI" (ai_client_type data) in
      match model data with
      | None => Raised "'model'"
      | Some model' =>
          let raw_knowledge_files := default ∅ (knowledge_files data) in
          let selected := default [] (selected_functions data) in
          Returned
            {| _name := name';
               _config_data := data;
               _instructions := instructions';
               _assistant_id := assistant_id';
               _ai_client_type := ai_client_type';
               _model := model';
               _knowledge_files := none_if_empty <$> raw_knowledge_files;
               _selected_functions := selected;
               _function_configs := selected;
               _knowledge_retrieval := default false (knowledge_retrieval data);
               _code_interpreter := default false (code_interpreter data);
               _output_folder_path :=
                 default default_output_folder_path (output_folder_path data);
               _assistant_type := default "assistant" (assistant_type data) |}
      end
  end.

(** [AssistantConfig.from_dict] *)
Definition from_dict (default_output_folder_path : string) (data : config_data)
  : result AssistantConfig :=
  match name data with
  | None => Raised "'name'"
  | Some name' => __init__ default_output_folder_path name' data
  end.

(** [AssistantConfig._get_config_data]: the dictionary of the object with
    ten keys overwritten from the fields; ['assistant_type'] is not
    written. *)
Definition _get_config_data (c : AssistantConfig) : config_data :=
  {| name := Some (_name c);
     instructions := Some (_instructions c);
     assistant_id := Some (_assistant_id c);
     ai_client_type := Some (_ai_client_type c);
     model := Some (_model c);
     knowledge_files := Some (_knowledge_files c);
     selected_functions := Some (_selected_functions c);
     knowledge_retrieval := Some (_knowledge_retrieval c);
     code_interpreter := Some (_code_interpreter c);
     output_folder_path := Some (_output_folder_path c);
     assistant_type := assistant_type (_config_data c) |}.

(** The object after [_get_config_data]: its dictionary is the one
    returned. *)
Definition exported (c : AssistantConfig) : AssistantConfig :=
  {| _name := _name c;
     _config_data := _get_config_data c;
     _instructions := _instructions c;
     _assistant_id := _assistant_id c;
     _ai_client_type := _ai_client_type c;
     _model := _model c;
     _knowledge_files := _knowledge_files c;
     _selected_functions := _selected_functions c;
     _function_configs := _function_configs c;
     _knowledge_retrieval := _knowledge_retrieval c;
     _code_interpreter := _code_interpreter c;
     _output_folder_path := _output_folder_path c;
     _assistant_type := _assistant_type c |}.

(** The property setters the class offers for the identifier and the
    knowledge files. *)
Definition set_assistant_id (c : AssistantConfig) (value : option string)
  : AssistantConfig :=
  {| _name := _name c; _config_data := _config_data c;
     _instructions := _instructions c; _assistant_id := value;
     _ai_client_type := _ai_client_type c; _model := _model c;
     _knowledge_files := _knowledge_files c;
     _selected_functions := _selected_functions c;
     _function_configs := _function_configs c;
     _knowledge_retrieval := _knowledge_retrieval c;
     _code_interpreter := _code_interpreter c;
     _output_folder_path := _output_folder_path c;
     _assistant_type := _assistant_type c |}.

(** The fields [__eq__] reads, as the object the comparison is defined
    on; the raw dictionary, which [__eq__] does not read, is left empty. *)
Definition compared (c : AssistantConfig) : Config.AssistantConfig FunctionSpec :=
  {| Config._name := _name c;
     Config._config_data := ∅;
     Config._instructions := _instructions c;
     Config._assistant_id := _assistant_id c;
     Config._ai_client_type := _ai_client_type c;
     Config._model := _model c;
     Config._knowledge_files := _knowledge_files c;
     Config._selected_functions := _selected_functions c;
     Config._knowledge_retrieval := _knowledge_retrieval c;
     Config._code_interpreter := _code_interpreter c;
     Config._output_folder_path := _output_folder_path c;
     Config._assistant_type := _assistant_type c |}.

(** No empty string stands where [None] is meant. *)
Definition normalised (c : AssistantConfig) : Prop :=
  _assistant_id c ≠ Some ""
  ∧ ∀ file, _knowledge_files c !! file ≠ Some (Some "").

End config_data.

Arguments config_data FunctionSpec : clear implicits.
Arguments AssistantConfig FunctionSpec : clear implicits.

(** Sample data: a configuration file that leaves the assistant id and one
    knowledge file empty. *)
Definition sample_data : config_data string :=
  {| name := Some "A";
     instructions := Some "Be brief.";
     assistant_id := Some (Some "");
     ai_client_type := None;
     model := Some "gpt-4";
     knowledge_files := Some {[ "notes.txt" := Some ""; "a.pdf" := Some "file_9" ]};
     selected_functions := None;
     knowledge_retrieval := Some true;
     code_interpreter := None;
     output_folder_path := None;
     assistant_type := None |}.

End ConfigData.

(** ** Main window: images, realtime input *)

Module Inputs.

Abbreviation result := Window.result.
Abbreviation Returned := Window.Returned.
Abbreviation Raised := Window.Raised.

(** [os.path.basename] for POSIX paths: what follows the last slash. *)
Fixpoint has_slash (path : string) : bool :=
  match path with
  | EmptyString => false
  | String c rest => bool_decide (c = "/"%char) || has_slash rest
  end.

Fixpoint basename (path : string) : string :=
  match path with
  | EmptyString => EmptyString
  | String c rest =>
      if has_slash rest then basename rest
      else if bool_decide (c = "/"%char) then rest else path
  end.

(** The dictionary [add_image_to_selected_thread] builds; the empty list
    under ["tools"] is kept as its JSON text. *)
Definition image_dict (image_path : string) : gmap string string :=
  {[ "file_name" := basename image_path;
     "file_path" := image_path;
     "attachment_type" := "image_file";
     "tools" := "[]" ]}.

(** [MainWindow.add_image_to_selected_thread], on the attachment list of the
    selected thread. *)
Definition add_image_to_selected_thread
    (attachments_dicts : list (gmap string string)) (image_path : string)
  : list (gmap string string) :=
  attachments_dicts ++ [image_dict image_path].

(** [MainWindow.remove_image_from_selected_thread]: the comprehension reads
    [att["file_path"]] of every dictionary, and raises on one without it. *)
Fixpoint remove_image_from_selected_thread
    (attachments_dicts : list (gmap string string)) (image_path : string)
  : result (list (gmap string string)) :=
  match attachments_dicts with
  | [] => Returned []
  | att :: rest =>
      match att !! "file_path" with
      | None => Raised "'file_path'"
      | Some path =>
          match remove_image_from_selected_thread rest image_path with
          | Window.Raised error => Raised error
          | Window.Returned kept =>
              Returned (if bool_decide (path ≠ image_path)
                        then att :: kept else kept)
          end
      end
  end.

(** What the realtime path does besides the actions of the window: it
    hands the text to an assistant client. *)
Inductive action : Type :=
| window (a : Window.action)
| generate_response (assistant_name user_input : string).





Definition is_processing_signal (a : action) : bool :=
  match a with window a' => Window.about_processing a' | _ => false end.


(** A window whose thread client was never initialised. *)
Definition uninitialised_env : Window.Collaborators :=
  {| Window.thread_client_initialized := false;
     Window.get_thread_id_by_name := λ _, "thread_1";
     Window.files_delete_fails := λ _, None;
     Window.create_message_fails := λ _, None;
     Window.conversations := ∅;
     Window.current_conversation_thread := None;
     Window.clients := ∅;
     Window.realtime_assistants := ∅;
     Window.selected_assistants := ∅ |}.

(** Sample data: two attachments of the selected thread. *)
Definition sample_dicts : list (gmap string string) :=
  [{[ "file_id" := "f3"; "file_name" := "notes.txt";
      "file_path" := "/docs/notes.txt" ]};
   {[ "file_id" := "f4"; "file_name" := "plan.txt";
      "file_path" := "/docs/plan.txt" ]}].

End Inputs.

(** ** Main window: the processing indicator and the cancel button *)

Module Processing.

Abbreviation result := Window.result.
Abbreviation Returned := Window.Returned.
Abbreviation Raised := Window.Raised.

(** The value of an entry of [assistants_processing]:
    [{'user_input': ..., 'scheduled_task': ...}]. *)
Record flags : Type := {
  user_input : bool;
  scheduled_task : bool
}.

(** [assistants_processing], a dict; [on_cancel_run_button_clicked] iterates
    over its keys, in the order they were inserted. *)
Abbreviation table := (list (string * flags)).

(** [d[name]], when [name in d] *)
Fixpoint get (d : table) (name : string) : option flags :=
  match d with
  | [] => None
  | (n, f) :: rest => if bool_decide (n = name) then Some f else get rest name
  end.

(** [d[name] = f]: in place for a key of the dict, at the end for a new one *)
Fixpoint set (d : table) (name : string) (f : flags) : table :=
  match d with
  | [] => [(name, f)]
  | (n, f0) :: rest =>
      if bool_decide (n = name) then (n, f) :: rest
      else (n, f0) :: set rest name f
  end.

(** What the slots and the cancel button do to the outside: the calls on
    the widgets, the status bar and the assistant clients, which are taken
    to return. *)
Inductive action : Type :=
| input_field_set_read_only (read_only : bool)
| start_animation (status : string)
| stop_animation (status : string)
| cancel_processing (assistant_name : string)
| stop (assistant_name : string)
| start (assistant_name thread_name : string)
| assistant_list_set_disabled (disabled : bool).

#[global] Instance action_eq_dec : EqDecision action.
Proof. solve_decision. Defined.

(** [MainWindow.start_processing_input] *)
Definition start_processing_input (d : table) (assistant_name : string)
    (is_scheduled_task : bool) : table * list action :=
  let initial := {| user_input := false; scheduled_task := false |} in
  let d1 :=
    match get d assistant_name with
    | None => set d assistant_name initial
    | Some _ => d
    end in
  let f := default initial (get d1 assistant_name) in
  if is_scheduled_task
  then
    (set d1 assistant_name
       {| user_input := user_input f; scheduled_task := true |},
     [input_field_set_read_only true;
      start_animation "PROCESSING_SCHEDULED_TASK"])
  else
    (set d1 assistant_name
       {| user_input := true; scheduled_task := scheduled_task f |},
     [input_field_set_read_only true;
      start_animation "PROCESSING_USER_INPUT"]).

(** [MainWindow.stop_processing_input] *)
Definition stop_processing_input (d : table) (assistant_name : string)
    (is_scheduled_task : bool) : table * list action :=
  match get d assistant_name with
  | None => (d, [input_field_set_read_only false])
  | Some f =>
      if is_scheduled_task && scheduled_task f
      then
        (set d assistant_name
           {| user_input := user_input f; scheduled_task := false |},
         [input_field_set_read_only false;
          stop_animation "PROCESSING_SCHEDULED_TASK"])
      else if negb is_scheduled_task && user_input f
      then
        (set d assistant_name
           {| user_input := false; scheduled_task := scheduled_task f |},
         [input_field_set_read_only false;
          stop_animation "PROCESSING_USER_INPUT"])
      else (d, [input_field_set_read_only false])
  end.

(** The connections [start_processing_signal.start_signal.connect
    (self.start_processing_input)] and [stop_processing_signal.stop_signal
    .connect(self.stop_processing_input)]: what the window does on a signal
    it has emitted. *)
Definition receive (d : table) (a : Window.action) : table * list action :=
  match a with
  | Window.start_signal assistant_name is_scheduled_task =>
      start_processing_input d assistant_name is_scheduled_task
  | Window.stop_signal assistant_name is_scheduled_task =>
      stop_processing_input d assistant_name is_scheduled_task
  | _ => (d, [])
  end.

(** The signals are delivered in the order of their emission. *)
Fixpoint receive_all (d : table) (signals : list Window.action)
  : table * list action :=
  match signals with
  | [] => (d, [])
  | a :: rest =>
      let '(d1, out1) := receive d a in
      let '(d2, out2) := receive_all d1 rest in
      (d2, out1 ++ out2)
  end.

(** What [on_cancel_run_button_clicked] reads of the sidebar and of the
    assistant clients. *)
Record Sidebar : Type := {
  (** [conversation_sidebar.get_selected_assistants()] *)
  get_selected_assistants : list string;
  (** [conversation_sidebar.threadList.get_current_text()] *)
  get_current_text : string;
  (** the assistants whose client answers [is_active_run()] with [True] *)
  active_runs : gset string
}.

(** The first loop of [on_cancel_run_button_clicked], over the keys of
    [assistants_processing]. *)
Fixpoint cancel_runs (env : Window.Collaborators) (names : list string)
  : list action :=
  match names with
  | [] => []
  | assistant_name :: rest =>
      match Window.clients env !! assistant_name with
      | Some _ => cancel_processing assistant_name :: cancel_runs env rest
      | None => cancel_runs env rest
      end
  end.

(** Its second loop, over the selected assistants; the client of a selected
    assistant is used as it comes from [get_client]. *)
Fixpoint restart_realtime (env : Window.Collaborators) (sidebar : Sidebar)
    (selected_assistants : list string) : list action * result unit :=
  match selected_assistants with
  | [] => ([], Returned ())
  | assistant_name :: rest =>
      match Window.clients env !! assistant_name with
      | None =>
          ([], Raised "'NoneType' object has no attribute 'assistant_config'")
      | Some _ =>
          let here :=
            if Window.is_realtime_assistant env assistant_name
               && bool_decide (assistant_name ∈ active_runs sidebar)
            then [stop assistant_name;
                  start assistant_name (get_current_text sidebar)]
            else [] in
          let '(out, r) := restart_realtime env sidebar rest in
          (here ++ out, r)
      end
  end.

(** [MainWindow.on_cancel_run_button_clicked] *)
Definition on_cancel_run_button_clicked (env : Window.Collaborators)
    (sidebar : Sidebar) (d : table) : list action * result unit :=
  let out1 := cancel_runs env d.*1 in
  let '(out2, r) :=
    restart_realtime env sidebar (get_selected_assistants sidebar) in
  match r with
  | Window.Raised error => (out1 ++ out2, Raised error)
  | Window.Returned _ =>
      (out1 ++ out2
       ++ [assistant_list_set_disabled false; input_field_set_read_only false],
       Returned ())
  end.

(** *** Observations *)

(** Whether an assistant is marked as processing an input of a kind. *)
Definition marked (d : table) (assistant_name : string)
    (is_scheduled_task : bool) : bool :=
  match get d assistant_name with
  | Some f => if is_scheduled_task then scheduled_task f else user_input f
  | None => false
  end.

(** The animation of a kind of input. *)
Definition status_of (is_scheduled_task : bool) : string :=
  if is_scheduled_task then "PROCESSING_SCHEDULED_TASK"
  else "PROCESSING_USER_INPUT".

(** What the slots do over one complete processing of an assistant. *)
Definition indicated (is_scheduled_task : bool) : list action :=
  [input_field_set_read_only true;
   start_animation (status_of is_scheduled_task);
   input_field_set_read_only false;
   stop_animation (status_of is_scheduled_task)].

End Processing.

(** ** Main window: the start and the end of a run *)

Module Runs.

Abbreviation result := Window.result.
Abbreviation Returned := Window.Returned.
Abbreviation Raised := Window.Raised.

(** What the run callbacks do besides the actions of the window: the start
    of a run is shown in the diagnostics, and files are downloaded
    ([file_message.retrieve_file], taken to return). *)
Inductive action : Type :=
| window (a : Window.action)
| start_run_signal
    (assistant_name run_identifier run_start_time user_input : string)
| retrieve_file (file_message output_folder_path : string).

(** [MainWindow.handle_realtime_run_start] *)
Definition handle_realtime_run_start (env : Window.Collaborators)
    (assistant_name run_identifier : string) : list Window.action :=
  if Window.is_realtime_assistant env assistant_name
  then
    Window.assistant_list_set_disabled true
    :: (if Window.mentions_keyword run_identifier
        then
          Window.stop_animation "LISTENING_KEYWORD"
          :: (if Window.is_assistant_selected env assistant_name
              then [Window.start_animation "LISTENING_SPEECH"] else [])
        else [])
  else [].

(** [MainWindow.on_run_start] *)
Definition on_run_start (env : Window.Collaborators)
    (assistant_name run_identifier run_start_time user_input : string)
  : list action :=
  start_run_signal assistant_name run_identifier run_start_time user_input
  :: (window <$> handle_realtime_run_start env assistant_name run_identifier).

(** [MainWindow.on_run_cancelled] *)
Definition on_run_cancelled
    (assistant_name run_identifier run_end_time : string) : list action :=
  [window (Window.end_run_signal assistant_name run_identifier run_end_time
             "Run cancelled")].

(** What [on_run_end] reads besides the conversation. *)
Record Outputs : Type := {
  (** [conversation.get_last_text_message(assistant_name)]: the content of
      the message, if there is one *)
  get_last_text_message :
    list Window.ConversationMessage → string → option string;
  (** [assistant_config_manager.get_config(assistant_name)]: the output
      folder path of the configuration, if the assistant has one *)
  get_config : string → option string
}.

(** The loop [for file_message in message.file_messages] of [on_run_end] *)
Fixpoint retrieve_files (assistant_config : option string)
    (file_messages : list string) : list action * result unit :=
  match file_messages with
  | [] => ([], Returned ())
  | file_message :: rest =>
      match assistant_config with
      | None =>
          ([], Raised "'NoneType' object has no attribute 'output_folder_path'")
      | Some output_folder_path =>
          let '(out, r) := retrieve_files assistant_config rest in
          (retrieve_file file_message output_folder_path :: out, r)
      end
  end.

(** The loop [for message in conversation.messages] of [on_run_end] *)
Fixpoint copy_files (assistant_config : option string)
    (messages : list Window.ConversationMessage) : list action * result unit :=
  match messages with
  | [] => ([], Returned ())
  | message :: rest =>
      let '(out1, r1) :=
        if bool_decide (0 < length (Window.file_messages message))
        then retrieve_files assistant_config (Window.file_messages message)
        else ([], Returned ()) in
      match r1 with
      | Window.Raised error => (out1, Raised error)
      | Window.Returned _ =>
          let '(out2, r2) := copy_files assistant_config rest in
          (out1 ++ out2, r2)
      end
  end.

(** [MainWindow.on_run_end] *)
Definition on_run_end (env : Window.Collaborators) (outputs : Outputs)
    (assistant_name run_identifier run_end_time thread_name : string)
  : list action * result unit :=
  let realtime :=
    window <$> Window.handle_realtime_run_end env assistant_name run_identifier in
  match Window.retrieve_conversation env thread_name with
  | Window.Raised error => (realtime, Raised error)
  | Window.Returned conversation =>
      let text :=
        match get_last_text_message outputs conversation assistant_name with
        | None =>
            "No message was found from the assistant in the specified thread. This may be due to a rate limiting issue. Please check Diagnostics for more detailed information and troubleshooting steps."
        | Some content => content
        end in
      let ended :=
        [window (Window.end_run_signal assistant_name run_identifier
                   run_end_time text)] in
      let assistant_config := get_config outputs assistant_name in
      let '(out, r) := copy_files assistant_config conversation in
      (realtime ++ ended ++ out, r)
  end.

(** *** Observations *)

(** Whether the assistant list is disabled after what the window did, when
    it was [disabled] before. *)
Definition list_disabled (disabled : bool) (out : list action) : bool :=
  foldl (λ b a, match a with
                | window (Window.assistant_list_set_disabled b') => b'
                | _ => b
                end) disabled out.

Definition changes_view (a : action) : bool :=
  match a with
  | window a' => Window.changes_conversation_view a'
  | _ => false
  end.

Definition is_end_run (a : action) : bool :=
  match a with window (Window.end_run_signal _ _ _ _) => true | _ => false end.

(** Sample data: the realtime assistant ["R"] of a window showing ["chat"]. *)
Definition realtime_env : Window.Collaborators :=
  {| Window.thread_client_initialized := true;
     Window.get_thread_id_by_name := λ _, "thread_1";
     Window.files_delete_fails := λ _, None;
     Window.create_message_fails := λ _, None;
     Window.conversations := {[ "chat" := Window.sample_conversation ]};
     Window.current_conversation_thread := Some "chat";
     Window.clients := {[ "R" := λ _, Returned () ]};
     Window.realtime_assistants := {[ "R" ]};
     Window.selected_assistants := {[ "R" ]} |}.

Definition sample_outputs : Outputs :=
  {| get_last_text_message := λ _ _, Some "Hello";
     get_config := λ _, Some "/output" |}.

End Runs.

(** ** Scheduled tasks: the threads in use *)

Module Scheduled.
Import Scheduler.

(** [MainWindow._is_thread_name_in_scheduled_tasks]:
    [thread_name in self.scheduled_task_threads.values()] *)
Definition _is_thread_name_in_scheduled_tasks (st : state)
    (thread_name : string) : bool :=
  bool_decide (Some thread_name ∈ (map_to_list (scheduled_task_threads st)).*2).

End Scheduled.

(** ** Facts about the stream event handler *)

Module StreamFacts.
Import Stream.

(** Induction on events that also covers the events of resumed streams. *)
Section event_nested_ind.
Variable P : event → Prop.
Hypothesis Hflat : ∀ e, resumes e = false → P e.
Hypothesis Hresume : ∀ required_action tool_calls resumed,
  Forall P resumed → P (EvToolCallDone required_action tool_calls resumed).

Fixpoint event_nested_ind (e : event) : P e :=
  match e with
  | EvToolCallDone required_action tool_calls resumed =>
      Hresume required_action tool_calls resumed
        ((fix all (es : list event) : Forall P es :=
            match es with
            | [] => List.Forall_nil P
            | e' :: es' =>
                List.Forall_cons P e' es' (event_nested_ind e') (all es')
            end) resumed)
  | e' => Hflat e' eq_refl
  end.
End event_nested_ind.

Lemma dispatch_tool_call_done h required_action tool_calls resumed :
  dispatch h (EvToolCallDone required_action tool_calls resumed) =
  on_tool_call_done h required_action tool_calls
    (until_done (__init__ (_parent h) (_thread_id h) (current_run_id h) true)
       resumed).
Proof. reflexivity. Qed.

Lemma until_done_cons h e es :
  until_done h (e :: es) = (dispatch h e).2 ++ until_done (dispatch h e).1 es.
Proof. simpl. by destruct (dispatch h e). Qed.

Lemma until_done_app h es1 es2 :
  until_done h (es1 ++ es2) =
  until_done h es1 ++ until_done (handler_after h es1) es2.
Proof.
  revert h. induction es1 as [|e es1 IH]; intros h; [done|].
  rewrite <- app_comm_cons, !until_done_cons, IH. simpl. by rewrite app_assoc.
Qed.

(** The handler after an event: unchanged, started, or past its first
    chunk.  Its [is_submit_tool_call] flag never changes. *)
Lemma dispatch_submit_flag h e :
  _is_submit_tool_call (dispatch h e).1 = _is_submit_tool_call h.
Proof.
  destruct e; try done.
  - simpl. unfold on_end. by destruct (negb _).
  - simpl. unfold on_text_created, start_once. by destruct (_ && _).
  - simpl. unfold on_tool_call_created, start_once. by destruct (_ && _).
  - rewrite dispatch_tool_call_done. unfold on_tool_call_done.
    by destruct (submits_tool_outputs _).
Qed.

Lemma handler_after_submit_flag h es :
  _is_submit_tool_call (handler_after h es) = _is_submit_tool_call h.
Proof.
  revert h. induction es as [|e es IH]; intros h; [done|].
  simpl. by rewrite IH, dispatch_submit_flag.
Qed.

Lemma dispatch_started_mono h e :
  _is_started h = true → _is_started (dispatch h e).1 = true.
Proof.
  intros Hs. destruct e; try done.
  - simpl. unfold on_end. by destruct (negb _).
  - simpl. unfold on_text_created, start_once. by destruct (_ && _).
  - simpl. unfold on_tool_call_created, start_once. by destruct (_ && _).
  - rewrite dispatch_tool_call_done. unfold on_tool_call_done.
    by destruct (submits_tool_outputs _).
Qed.

Lemma quiet_app out1 out2 : quiet out1 → quiet out2 → quiet (out1 ++ out2).
Proof. unfold quiet. rewrite Forall_app. tauto. Qed.

Lemma quiet_reports h tool_calls :
  quiet (map (λ c, on_function_call_processed (_name h) (current_run_id h)
                     (function_name c) (arguments c) (response c)) tool_calls).
Proof. unfold quiet. apply Forall_map, Forall_forall. by intros. Qed.

(** A handler built for a tool-output submission fires neither
    [on_run_start] nor [on_run_end], whatever its stream delivers. *)
Lemma submit_handler_quiet_event e :
  ∀ h, _is_submit_tool_call h = true → quiet (dispatch h e).2.
Proof.
  induction e as [e Hflat|ra calls resumed IH] using event_nested_ind;
    intros h Hsub.
  - destruct e;
      try (rewrite dispatch_tool_call_done; unfold on_tool_call_done;
           simpl in Hflat; rewrite Hflat; by constructor);
      simpl; unfold on_end, on_text_created, on_tool_call_created, start_once;
      rewrite ?Hsub, ?andb_false_r; simpl; by repeat constructor.
  - rewrite dispatch_tool_call_done. unfold on_tool_call_done.
    destruct (submits_tool_outputs ra); [|by constructor].
    unfold _handle_required_action. apply quiet_app; [apply quiet_reports|].
    assert (∀ h0, _is_submit_tool_call h0 = true → quiet (until_done h0 resumed))
      as Hall.
    { induction IH as [|e es He _ IHes]; intros h0 H0; [by constructor|].
      rewrite until_done_cons. apply quiet_app; [by apply He|].
      apply IHes. by rewrite dispatch_submit_flag. }
    by apply Hall.
Qed.

Lemma submit_handler_quiet h es :
  _is_submit_tool_call h = true → quiet (until_done h es).
Proof.
  revert h. induction es as [|e es IH]; intros h Hsub; [by constructor|].
  rewrite until_done_cons. apply quiet_app.
  - by apply submit_handler_quiet_event.
  - apply IH. by rewrite dispatch_submit_flag.
Qed.

Lemma quiet_no_start out : quiet out → Forall (λ s, is_run_start s = false) out.
Proof. intros H. eapply Forall_impl; [exact H|]. simpl. tauto. Qed.

Lemma quiet_no_end out : quiet out → Forall (λ s, is_run_end s = false) out.
Proof. intros H. eapply Forall_impl; [exact H|]. simpl. tauto. Qed.

(** What one event makes a handler fire, by cases. *)
Lemma dispatch_first_content h e :
  content_bearing e = true → _is_started h = false →
  _is_submit_tool_call h = false →
  dispatch h e =
  (set_started h,
   [on_run_start (_name h) (current_run_id h)
      (last_user_request (thread_client (_parent h)) (_thread_name h))]).
Proof.
  intros Hc Hs Hsub. destruct e; try discriminate Hc; simpl;
    unfold on_text_created, on_tool_call_created, start_once;
    by rewrite Hs, Hsub.
Qed.

Lemma dispatch_no_start h e :
  content_bearing e = false ∨ _is_started h = true →
  Forall (λ s, is_run_start s = false) (dispatch h e).2.
Proof.
  intros Hcase. destruct e;
    try (rewrite dispatch_tool_call_done; unfold on_tool_call_done;
         destruct (submits_tool_outputs _); [|by constructor];
         apply quiet_no_start, quiet_app; [apply quiet_reports|];
         by apply submit_handler_quiet);
    simpl; unfold on_end, on_text_created, on_tool_call_created, start_once;
    try (destruct Hcase as [Hc|Hs]; [discriminate Hc|rewrite Hs]);
    simpl; try destruct (negb _); by repeat constructor.
Qed.

Lemma dispatch_no_end h e :
  is_end e = false → Forall (λ s, is_run_end s = false) (dispatch h e).2.
Proof.
  intros He. destruct e; try discriminate He;
    try (rewrite dispatch_tool_call_done; unfold on_tool_call_done;
         destruct (submits_tool_outputs _); [|by constructor];
         apply quiet_no_end, quiet_app; [apply quiet_reports|];
         by apply submit_handler_quiet);
    simpl; unfold on_text_created, on_tool_call_created, start_once;
    try destruct (_ && _); by repeat constructor.
Qed.

Lemma dispatch_end_no_start h : Forall (λ s, is_run_start s = false) (dispatch h EvEnd).2.
Proof. by apply dispatch_no_start; left. Qed.

Lemma dispatch_started_same h e :
  content_bearing e = false → _is_started (dispatch h e).1 = _is_started h.
Proof.
  intros Hc. destruct e; try discriminate Hc; try done.
  - simpl. unfold on_end. by destruct (negb _).
  - rewrite dispatch_tool_call_done. unfold on_tool_call_done.
    by destruct (submits_tool_outputs _).
Qed.

(** Once started, a handler stays silent about starts for the rest of its
    stream. *)
Lemma started_no_start h es :
  _is_started h = true →
  Forall (λ s, is_run_start s = false) (until_done h es).
Proof.
  revert h. induction es as [|e es IH]; intros h Hs; [by constructor|].
  rewrite until_done_cons. apply Forall_app. split.
  - apply dispatch_no_start. by right.
  - apply IH. by apply dispatch_started_mono.
Qed.

(** Without a content-bearing event no start is fired, and the handler is
    as started as before. *)
Lemma no_content_no_start h es :
  Forall (λ e, content_bearing e = false) es →
  Forall (λ s, is_run_start s = false) (until_done h es)
  ∧ _is_started (handler_after h es) = _is_started h.
Proof.
  intros Hes. revert h.
  induction Hes as [|e es He _ IH]; intros h; [by split; [constructor|]|].
  rewrite until_done_cons. simpl. destruct (IH (dispatch h e).1) as [IH1 IH2].
  split.
  - apply Forall_app. split; [|done]. apply dispatch_no_start. by left.
  - by rewrite IH2, dispatch_started_same.
Qed.

Lemma no_end_event_no_end h es :
  Forall (λ e, is_end e = false) es →
  Forall (λ s, is_run_end s = false) (until_done h es).
Proof.
  intros Hes. revert h.
  induction Hes as [|e es He _ IH]; intros h; [by constructor|].
  rewrite until_done_cons. apply Forall_app. split; [|by apply IH].
  by apply dispatch_no_end.
Qed.

(** A stream either holds a first content-bearing event or none. *)
Lemma first_content_split es :
  Forall (λ e, content_bearing e = false) es
  ∨ ∃ pre e post, es = pre ++ e :: post ∧ content_bearing e = true
      ∧ Forall (λ e', content_bearing e' = false) pre.
Proof.
  induction es as [|e es IH]; [left; constructor|].
  destruct (content_bearing e) eqn:He.
  - right. exists [], e, es. repeat split; [done|constructor].
  - destruct IH as [IH|(pre & e' & post & -> & Hc & Hpre)].
    + left. by constructor.
    + right. exists (e :: pre), e', post. repeat split; [done|by constructor].
Qed.

(** A stream that obeys the provider contract has no end event, or exactly
    one, in last position. *)
Lemma end_is_last_split es :
  end_is_last es = true →
  Forall (λ e, is_end e = false) es
  ∨ ∃ body, es = body ++ [EvEnd] ∧ Forall (λ e, is_end e = false) body.
Proof.
  induction es as [|e es IH]; [left; constructor|].
  simpl. intros [Hhead Htail]%andb_true_iff.
  destruct (is_end e) eqn:He.
  - destruct es; [|discriminate Hhead].
    right. exists []. split; [|constructor]. by destruct e.
  - destruct (IH Htail) as [Hall|(body & -> & Hbody)].
    + left. by constructor.
    + right. exists (e :: body). split; [done|by constructor].
Qed.

Lemma Forall_false_lookup {A} (f : A → bool) (l : list A) i x :
  Forall (λ y, f y = false) l → l !! i = Some x → f x = true → False.
Proof.
  intros Hall Hi Hx. rewrite Forall_lookup in Hall.
  specialize (Hall i x Hi). simpl in Hall. congruence.
Qed.

(** The shape of what a fresh primary handler fires: nothing about starts
    without a content-bearing event, and otherwise exactly one
    [on_run_start], fired by the first such event. *)
Lemma primary_run_shape h es :
  _is_started h = false → _is_submit_tool_call h = false →
  (Forall (λ e, content_bearing e = false) es
   ∧ Forall (λ s, is_run_start s = false) (until_done h es))
  ∨ ∃ pre e post rest,
      es = pre ++ e :: post ∧ content_bearing e = true
      ∧ Forall (λ e', content_bearing e' = false) pre
      ∧ until_done h es =
        until_done h pre
        ++ on_run_start (_name h) (current_run_id h)
             (last_user_request (thread_client (_parent h)) (_thread_name h))
           :: rest
      ∧ Forall (λ s, is_run_start s = false) (until_done h pre)
      ∧ Forall (λ s, is_run_start s = false) rest.
Proof.
  intros Hs Hsub.
  destruct (first_content_split es) as [Hnone|(pre & e & post & -> & Hc & Hpre)].
  - left. split; [done|]. by apply no_content_no_start.
  - right. exists pre, e, post.
    destruct (no_content_no_start h pre Hpre) as [Hquiet Hafter].
    pose proof (handler_after_submit_flag h pre) as Hsub'.
    rewrite Hs in Hafter. rewrite Hsub in Hsub'.
    pose proof (dispatch_first_content _ e Hc Hafter Hsub') as Hd.
    exists (until_done (set_started (handler_after h pre)) post).
    repeat split; [done|done| |done|by apply started_no_start].
    rewrite until_done_app, until_done_cons, Hd. simpl.
    (* the handler's name, run and thread are those it was built with *)
    assert (∀ es0 h0, _name (handler_after h0 es0) = _name h0
              ∧ current_run_id (handler_after h0 es0) = current_run_id h0
              ∧ _parent (handler_after h0 es0) = _parent h0
              ∧ _thread_name (handler_after h0 es0) = _thread_name h0) as Hsame.
    { clear. induction es0 as [|e0 es0 IH]; intros h0; [done|]. simpl.
      destruct (IH (dispatch h0 e0).1) as (-> & -> & -> & ->).
      destruct e0; try done; simpl;
        unfold on_end, on_text_created, on_tool_call_created, start_once,
          on_tool_call_done;
        by repeat match goal with |- context [if ?b then _ else _] => destruct b end. }
    by destruct (Hsame pre h) as (-> & -> & -> & ->).
Qed.

Lemma lookup_single_start (A B : list signal) x i s :
  Forall (λ s, is_run_start s = false) A →
  Forall (λ s, is_run_start s = false) B →
  (A ++ x :: B) !! i = Some s → is_run_start s = true → i = length A ∧ s = x.
Proof.
  intros HA HB Hi Hs.
  destruct (decide (i < length A)) as [Hlt|Hge].
  - rewrite lookup_app_l in Hi by done.
    destruct (Forall_false_lookup _ _ _ _ HA Hi Hs).
  - rewrite lookup_app_r in Hi by lia.
    destruct (i - length A) as [|k] eqn:Hk; simpl in Hi.
    + split; [lia|congruence].
    + destruct (Forall_false_lookup _ _ _ _ HB Hi Hs).
Qed.

(** C1.  In every run [on_run_start] is fired at most once; it is fired
    by the first content-bearing event of the primary stream (first text
    created or first tool call created) and by nothing else, so never by the
    submission alone; and when the stream obeys the provider contract that
    nothing follows its end, every [on_run_start] comes strictly before
    every [on_run_end] of the run. *)
Theorem on_run_start_once_at_first_content_before_end
    (parent : AssistantClient) (thread_id run_id : string)
    (events : list event) :
  let out := process_run parent thread_id run_id events in
  (∀ i j s s', out !! i = Some s → out !! j = Some s' →
     is_run_start s = true → is_run_start s' = true → i = j)
  ∧ (∀ i s, out !! i = Some s → is_run_start s = true →
       ∃ pre e post, events = pre ++ e :: post ∧ content_bearing e = true
         ∧ Forall (λ e', content_bearing e' = false) pre
         ∧ i = length (process_run parent thread_id run_id pre))
  ∧ (∀ pre e post, events = pre ++ e :: post → content_bearing e = true →
       Forall (λ e', content_bearing e' = false) pre →
       ∃ user_input,
         out !! length (process_run parent thread_id run_id pre)
         = Some (on_run_start (assistant_name_of parent) run_id user_input))
  ∧ (end_is_last events = true →
     ∀ i j s s', out !! i = Some s → is_run_start s = true →
       out !! j = Some s' → is_run_end s' = true → i < j).
Proof.
  unfold process_run. set (h := __init__ parent thread_id run_id false).
  simpl.
  destruct (primary_run_shape h events eq_refl eq_refl)
    as [[Hnone Hquiet]|(pre & e & post & rest & Hev & Hc & Hpre & Hout & HA & HB)].
  - (* no content-bearing event: no start at all *)
    repeat split.
    + intros i j s s' Hi _ Hs. destruct (Forall_false_lookup _ _ _ _ Hquiet Hi Hs).
    + intros i s Hi Hs. destruct (Forall_false_lookup _ _ _ _ Hquiet Hi Hs).
    + intros pre e post -> Hc _. apply Forall_app in Hnone as [_ Hnone].
      apply Forall_cons in Hnone as [Hne _]. congruence.
    + intros _ i j s s' Hi Hs. destruct (Forall_false_lookup _ _ _ _ Hquiet Hi Hs).
  - rewrite Hout. repeat split.
    + intros i j s s' Hi Hj Hs Hs'.
      destruct (lookup_single_start _ _ _ _ _ HA HB Hi Hs) as [-> _].
      by destruct (lookup_single_start _ _ _ _ _ HA HB Hj Hs') as [-> _].
    + intros i s Hi Hs.
      destruct (lookup_single_start _ _ _ _ _ HA HB Hi Hs) as [-> _].
      by exists pre, e, post.
    + intros pre' e' post' Hev' Hc' Hpre'.
      assert (pre' = pre) as ->.
      { clear -Hev Hev' Hc Hc' Hpre Hpre'. subst events.
        revert pre' Hev' Hpre'.
        induction pre as [|x pre IH]; intros [|y pre'] Heq Hp'; simpl in *.
        - done.
        - injection Heq as <- _. apply Forall_cons in Hp' as [Hy _]. congruence.
        - injection Heq as -> _. apply Forall_cons in Hpre as [Hx _]. congruence.
        - injection Heq as <- Heq. apply Forall_cons in Hpre as [_ Hpre].
          apply Forall_cons in Hp' as [_ Hp']. f_equal. by apply IH. }
      eexists. by rewrite lookup_app_r, Nat.sub_diag by lia.
    + intros Hlast i j s s' Hi Hs Hj Hs'.
      destruct (lookup_single_start _ _ _ _ _ HA HB Hi Hs) as [-> ->].
      rewrite <- Hout in Hj.
      destruct (end_is_last_split events Hlast) as [Hnoend|(body & Hbody & Hnoend)].
      { destruct (Forall_false_lookup _ _ _ _ (no_end_event_no_end h _ Hnoend) Hj Hs'). }
      (* the end event is last: the only [on_run_end] is the last callback *)
      assert (length (until_done h body) ≤ j) as Hjge.
      { destruct (decide (j < length (until_done h body))) as [Hlt|]; [|lia].
        rewrite Hbody, until_done_app, lookup_app_l in Hj by done.
        destruct (Forall_false_lookup _ _ _ _ (no_end_event_no_end h _ Hnoend) Hj Hs'). }
      assert (length (until_done h pre) < length (until_done h body)); [|lia].
      assert ((until_done h events) !! length (until_done h pre)
              = Some (on_run_start (_name h) (current_run_id h)
                   (last_user_request (thread_client (_parent h)) (_thread_name h))))
        as Hstart.
      { by rewrite Hout, lookup_app_r, Nat.sub_diag by lia. }
      destruct (decide (length (until_done h pre) < length (until_done h body)))
        as [|Hge]; [done|exfalso].
      rewrite Hbody, until_done_app, lookup_app_r in Hstart by lia.
      rewrite until_done_cons in Hstart. simpl until_done in Hstart.
      rewrite app_nil_r in Hstart.
      by destruct (Forall_false_lookup _ _ _ _ (dispatch_end_no_start _) Hstart).
Qed.

(** A run in which the start precedes the end: the plain streamed answer. *)
Lemma on_run_start_before_end_witness :
  end_is_last sample_stream = true
  ∧ process_run sample_client "thread_1" "run_1" sample_stream !! 0
    = Some (on_run_start "A" "run_1" "Hello")
  ∧ process_run sample_client "thread_1" "run_1" sample_stream !! 4
    = Some (on_run_end "A" "run_1" "chat")
  ∧ 0 < 4.
Proof.
  split; [reflexivity|]. split; [reflexivity|]. split; [reflexivity|].
  exact (proj2 (proj2 (proj2
    (on_run_start_once_at_first_content_before_end
       sample_client "thread_1" "run_1" sample_stream)))
    eq_refl 0 4 _ _ eq_refl eq_refl eq_refl eq_refl).
Defined.

(** *** Streaming updates *)

Lemma omap_streaming_reports h tool_calls :
  omap streaming
    (map (λ c, on_function_call_processed (_name h) (current_run_id h)
                 (function_name c) (arguments c) (response c)) tool_calls) = [].
Proof. by induction tool_calls. Qed.

Lemma first_chunk_flags_app out1 out2 :
  first_chunk_flags (out1 ++ out2)
  = first_chunk_flags out1 ++ first_chunk_flags out2.
Proof. unfold first_chunk_flags. by rewrite omap_app, fmap_app. Qed.

Lemma streamed_chunks_app out1 out2 :
  streamed_chunks (out1 ++ out2) = streamed_chunks out1 ++ streamed_chunks out2.
Proof. unfold streamed_chunks. by rewrite omap_app, fmap_app. Qed.

(** What an event other than a resuming one contributes. *)
Lemma dispatch_flat_streaming h e :
  resumes e = false →
  omap streaming (dispatch h e).2
  = (λ v, (_is_first_message h, Some v)) <$> deltas e.
Proof.
  intros Hflat. destruct e;
    try (rewrite dispatch_tool_call_done; unfold on_tool_call_done;
         simpl in Hflat; simpl; by rewrite Hflat);
    simpl; unfold on_end, on_text_created, on_tool_call_created, start_once;
    try done; by repeat match goal with
                        | |- context [if ?b then _ else _] => destruct b
                        end.
Qed.

Lemma dispatch_resume_streaming h required_action tool_calls resumed :
  submits_tool_outputs required_action = true →
  omap streaming (dispatch h (EvToolCallDone required_action tool_calls resumed)).2
  = omap streaming
      (until_done (__init__ (_parent h) (_thread_id h) (current_run_id h) true)
         resumed).
Proof.
  intros Hsub. rewrite dispatch_tool_call_done. unfold on_tool_call_done.
  rewrite Hsub. unfold _handle_required_action. simpl.
  by rewrite omap_app, omap_streaming_reports.
Qed.

Lemma dispatch_first_message h e :
  _is_first_message (dispatch h e).1
  = _is_first_message h && negb (is_text_delta e).
Proof.
  destruct e;
    try (rewrite dispatch_tool_call_done; unfold on_tool_call_done;
         destruct (submits_tool_outputs _); simpl; by rewrite andb_true_r);
    simpl; unfold on_end, on_text_created, on_tool_call_created, start_once;
    rewrite ?andb_true_r, ?andb_false_r; try done;
    by repeat match goal with
              | |- context [if ?b then _ else _] => destruct b
              end.
Qed.

(** Each text delta of a run, resumed streams included, is passed on as one
    streaming update carrying its text, in delivery order. *)
Lemma streamed_chunks_event e :
  ∀ h, streamed_chunks (dispatch h e).2 = Some <$> deltas e.
Proof.
  induction e as [e Hflat|ra calls resumed IH] using event_nested_ind; intros h.
  - unfold streamed_chunks. rewrite dispatch_flat_streaming by done.
    rewrite <- list_fmap_compose. by apply list_fmap_ext.
  - simpl deltas. destruct (submits_tool_outputs ra) eqn:Hsub.
    + unfold streamed_chunks. rewrite dispatch_resume_streaming by done.
      generalize (__init__ (_parent h) (_thread_id h) (current_run_id h) true).
      induction IH as [|e es He _ IHes]; intros h0; [done|].
      rewrite until_done_cons, omap_app, fmap_app. simpl flat_map.
      rewrite fmap_app. f_equal; [apply He|apply IHes].
    + rewrite dispatch_tool_call_done. unfold on_tool_call_done.
      by rewrite Hsub.
Qed.

Lemma streamed_chunks_until_done h es :
  streamed_chunks (until_done h es) = Some <$> flat_map deltas es.
Proof.
  revert h. induction es as [|e es IH]; intros h; [done|].
  rewrite until_done_cons, streamed_chunks_app, streamed_chunks_event, IH.
  simpl flat_map. by rewrite fmap_app.
Qed.

(** Within one stream that is never resumed, only the first chunk can be
    flagged, and it is when the handler has not passed a chunk before. *)
Lemma first_chunk_flags_flat h es :
  Forall (λ e, resumes e = false) es →
  first_chunk_flags (until_done h es) =
  match flat_map deltas es with
  | [] => []
  | _ :: chunks => _is_first_message h :: ((λ _, false) <$> chunks)
  end.
Proof.
  intros Hes. revert h. induction Hes as [|e es He _ IH]; intros h; [done|].
  rewrite until_done_cons, first_chunk_flags_app, IH. simpl flat_map.
  unfold first_chunk_flags at 1. rewrite dispatch_flat_streaming by done.
  rewrite dispatch_first_message.
  destruct e; try discriminate He; simpl; try by rewrite andb_true_r.
  - rewrite andb_false_r. by destruct (flat_map deltas es).
  - simpl in He. rewrite He. simpl. by rewrite andb_true_r.
Qed.

Lemma flagged_app out1 out2 : flagged (out1 ++ out2) = flagged out1 + flagged out2.
Proof.
  unfold flagged. by rewrite first_chunk_flags_app, filter_app, length_app.
Qed.

Lemma flagged_stream h es :
  Forall flagged_spec es →
  flagged (until_done h es)
  = (if _is_first_message h && existsb is_text_delta es then 1 else 0)
    + list_sum (map streams_with_delta_in es).
Proof.
  intros Hes. revert h. induction Hes as [|e es He _ IH]; intros h.
  - simpl. by rewrite andb_false_r.
  - rewrite until_done_cons, flagged_app, He, IH, dispatch_first_message.
    simpl. destruct (_is_first_message h), (is_text_delta e),
      (existsb is_text_delta es); simpl; lia.
Qed.

Lemma flagged_event e : flagged_spec e.
Proof.
  induction e as [e Hflat|ra calls resumed IH] using event_nested_ind; intros h.
  - unfold flagged, first_chunk_flags.
    rewrite dispatch_flat_streaming by done.
    destruct e; try discriminate Hflat; simpl; rewrite ?andb_false_r; try done.
    + rewrite andb_true_r. by destruct (_is_first_message h).
    + simpl in Hflat. by rewrite Hflat.
  - simpl is_text_delta. rewrite andb_false_r. simpl streams_with_delta_in.
    destruct (submits_tool_outputs ra) eqn:Hsub.
    + unfold flagged, first_chunk_flags.
      rewrite dispatch_resume_streaming by done.
      exact (flagged_stream
               (__init__ (_parent h) (_thread_id h) (current_run_id h) true)
               resumed IH).
    + rewrite dispatch_tool_call_done. unfold on_tool_call_done.
      by rewrite Hsub.
Qed.

(** The number of flagged streaming updates of a run is the number of its
    streams, primary or resumed, that deliver a text delta. *)
Lemma flagged_run parent thread_id run_id events :
  flagged (process_run parent thread_id run_id events)
  = streams_with_delta events.
Proof.
  unfold process_run, streams_with_delta. rewrite flagged_stream; [done|].
  apply Forall_forall. intros e _. apply flagged_event.
Qed.

(** C4, as amended.  Each text delta of a run is passed on as exactly one
    ["streaming"] update carrying its text, in delivery order.  The
    first-chunk flag is per stream: in a stream that is not resumed it is
    true for the first delta only, the stream that answers a tool-output
    submission is consumed by a fresh handler, so its first delta is flagged
    again, and over the whole run the flagged updates are as many as the
    streams (primary or resumed) that deliver a delta. *)
Theorem streaming_updates_one_per_delta_flagged_per_stream
    (parent : AssistantClient) (thread_id run_id : string)
    (events : list event) :
  let out := process_run parent thread_id run_id events in
  streamed_chunks out = Some <$> flat_map deltas events
  ∧ length (omap streaming out) = length (flat_map deltas events)
  ∧ (∀ h value,
       (dispatch h (EvTextDelta value)).2
       = [on_run_update (_name h) (current_run_id h) "streaming"
            (_thread_name h) (_is_first_message h) (Some value)])
  ∧ (Forall (λ e, resumes e = false) events →
     first_chunk_flags out =
     match flat_map deltas events with
     | [] => []
     | _ :: chunks => true :: ((λ _, false) <$> chunks)
     end)
  ∧ (∀ h required_action tool_calls resumed,
       submits_tool_outputs required_action = true →
       Forall (λ e, resumes e = false) resumed →
       first_chunk_flags
         (dispatch h (EvToolCallDone required_action tool_calls resumed)).2 =
       match flat_map deltas resumed with
       | [] => []
       | _ :: chunks => true :: ((λ _, false) <$> chunks)
       end)
  ∧ flagged out = streams_with_delta events.
Proof.
  cbv zeta. split; [apply streamed_chunks_until_done|].
  split.
  { rewrite <- (length_fmap snd), <- (length_fmap Some (flat_map deltas events)).
    f_equal. apply streamed_chunks_until_done. }
  split; [done|]. split.
  { intros Hflat. unfold process_run. by rewrite first_chunk_flags_flat. }
  split; [|apply flagged_run].
  intros h ra calls resumed Hsub Hflat. unfold first_chunk_flags.
  rewrite dispatch_resume_streaming by done.
  exact (first_chunk_flags_flat
           (__init__ (_parent h) (_thread_id h) (current_run_id h) true)
           resumed Hflat).
Qed.

(** A run whose stream is never resumed: only the first chunk is flagged. *)
Lemma streaming_flags_witness :
  Forall (λ e, resumes e = false) sample_stream
  ∧ first_chunk_flags (process_run sample_client "thread_1" "run_1" sample_stream)
    = [true; false].
Proof.
  assert (Forall (λ e, resumes e = false) sample_stream) as Hflat
    by (repeat constructor).
  split; [exact Hflat|].
  exact (proj1 (proj2 (proj2 (proj2
    (streaming_updates_one_per_delta_flagged_per_stream
       sample_client "thread_1" "run_1" sample_stream)))) Hflat).
Defined.

(** C4 as stated fails: in a run that resumes after a tool call, the first
    delta after the resume is the second delta of the run and is flagged as
    first chunk again. *)
Lemma first_chunk_flag_true_again_after_resume :
  let out := process_run sample_client "thread_1" "run_1" sample_tool_stream in
  omap streaming out
  = [(true, Some "Let me check. "); (true, Some "It is sunny.")]
  ∧ ¬ (∀ i chunk, omap streaming out !! i = Some (true, chunk) → i = 0).
Proof.
  simpl. split; [reflexivity|].
  intros Hclaim. by specialize (Hclaim 1 (Some "It is sunny.") eq_refl).
Qed.

(** *** Message-done events *)

Lemma completed_updates_app out1 out2 :
  completed_updates (out1 ++ out2)
  = completed_updates out1 + completed_updates out2.
Proof. unfold completed_updates. by rewrite filter_app, length_app. Qed.

Lemma completed_updates_reports h tool_calls :
  completed_updates
    (map (λ c, on_function_call_processed (_name h) (current_run_id h)
                 (function_name c) (arguments c) (response c)) tool_calls) = 0.
Proof. by induction tool_calls. Qed.

Lemma completed_updates_stream es :
  Forall (λ e, ∀ h, completed_updates (dispatch h e).2 = message_dones e) es →
  ∀ h, completed_updates (until_done h es) = list_sum (map message_dones es).
Proof.
  induction 1 as [|e es He _ IH]; intros h; [done|].
  rewrite until_done_cons, completed_updates_app, He, IH. done.
Qed.

Lemma completed_updates_event e :
  ∀ h, completed_updates (dispatch h e).2 = message_dones e.
Proof.
  induction e as [e Hflat|ra calls resumed IH] using event_nested_ind; intros h.
  - destruct e;
      try (rewrite dispatch_tool_call_done; unfold on_tool_call_done;
           simpl in Hflat; simpl message_dones; by rewrite Hflat);
      simpl; unfold on_end, on_text_created, on_tool_call_created, start_once;
      try done; by repeat match goal with
                          | |- context [if ?b then _ else _] => destruct b
                          end.
  - rewrite dispatch_tool_call_done. unfold on_tool_call_done.
    simpl message_dones. destruct (submits_tool_outputs ra); [|done].
    unfold _handle_required_action. simpl.
    rewrite completed_updates_app, completed_updates_reports.
    by apply completed_updates_stream.
Qed.

Lemma no_in_progress_stream es :
  Forall (λ e, ∀ h, Forall (λ s, has_status "in_progress" s = false)
                      (dispatch h e).2) es →
  ∀ h, Forall (λ s, has_status "in_progress" s = false) (until_done h es).
Proof.
  induction 1 as [|e es He _ IH]; intros h; [by constructor|].
  rewrite until_done_cons. apply Forall_app. by split; [apply He|apply IH].
Qed.

Lemma no_in_progress_event e :
  ∀ h, Forall (λ s, has_status "in_progress" s = false) (dispatch h e).2.
Proof.
  induction e as [e Hflat|ra calls resumed IH] using event_nested_ind; intros h.
  - destruct e;
      try (rewrite dispatch_tool_call_done; unfold on_tool_call_done;
           simpl in Hflat; rewrite Hflat; by constructor);
      simpl; unfold on_end, on_text_created, on_tool_call_created, start_once;
      repeat match goal with
             | |- context [if ?b then _ else _] => destruct b
             end; by repeat constructor.
  - rewrite dispatch_tool_call_done. unfold on_tool_call_done.
    destruct (submits_tool_outputs ra); [|by constructor].
    unfold _handle_required_action. apply Forall_app. split.
    + apply Forall_map, Forall_forall. by intros.
    + by apply no_in_progress_stream.
Qed.

(** C5, as amended.  A message-done event makes the translator fire exactly
    one [on_run_update] with status ["completed"] that carries no message;
    a run has as many such updates as message-done events, and the
    translator never fires an update with status ["in_progress"]. *)
Theorem message_done_fires_completed_update
    (parent : AssistantClient) (thread_id run_id : string)
    (events : list event) :
  let out := process_run parent thread_id run_id events in
  (∀ h, dispatch h EvMessageDone
        = (h, [on_run_update (_name h) (current_run_id h) "completed"
                 (_thread_name h) false None]))
  ∧ completed_updates out = list_sum (map message_dones events)
  ∧ Forall (λ s, has_status "in_progress" s = false) out.
Proof.
  cbv zeta. split; [done|]. unfold process_run. split.
  - apply completed_updates_stream, Forall_forall. intros e _.
    apply completed_updates_event.
  - apply no_in_progress_stream, Forall_forall. intros e _.
    apply no_in_progress_event.
Qed.

(** C5 as stated fails: the message-done event of the sample run fires an
    update with status ["completed"] and no message, and no update with
    status ["in_progress"]. *)
Lemma message_done_is_not_in_progress :
  let h := __init__ sample_client "thread_1" "run_1" false in
  (dispatch h EvMessageDone).2
  = [on_run_update "A" "run_1" "completed" "chat" false None]
  ∧ ¬ (∃ assistant run thread is_first message,
         on_run_update assistant run "in_progress" thread is_first (Some message)
         ∈ (dispatch h EvMessageDone).2).
Proof.
  cbv zeta. split; [reflexivity|].
  intros (a & r & t & f & m & Hin). simpl in Hin.
  apply list_elem_of_singleton in Hin. discriminate Hin.
Qed.

End StreamFacts.

(** ** Facts about the assistant configuration *)

Module ConfigFacts.
Import Config.

Section eq.
Context {FunctionSpec : Type} `{EqDecision FunctionSpec}.

Lemma eq_true_iff (c d : AssistantConfig FunctionSpec) :
  __eq__ c (Configuration d) = Bool true ↔ same_compared_fields c d.
Proof.
  unfold __eq__, same_compared_fields. split.
  - intros [= Hb]. repeat apply andb_prop in Hb as [Hb ?%bool_decide_eq_true].
    apply bool_decide_eq_true in Hb. tauto.
  - intros (?&?&?&?&?&?&?&?&?). f_equal.
    repeat (apply andb_true_intro; split); by apply bool_decide_eq_true.
Qed.

(** C10.  Equality of configurations compares the name, the instructions,
    the assistant id, the client type, the model, the knowledge files, the
    selected functions, and the knowledge-retrieval and code-interpreter
    switches, and nothing else: two configurations that agree on them are
    equal whatever their output folder and assistant type, two that differ
    on one of them are not, and the comparison with a value that is not a
    configuration returns [NotImplemented]. *)
Theorem assistant_config_eq_compares_nine_fields :
  (∀ c d : AssistantConfig FunctionSpec,
     ∃ b, __eq__ c (Configuration d) = Bool b
          ∧ (b = true ↔ same_compared_fields c d))
  ∧ (∀ (c : AssistantConfig FunctionSpec) config_data output_folder_path
       assistant_type,
       __eq__ c (Configuration
                   (relocated c config_data output_folder_path assistant_type))
       = Bool true)
  ∧ (∀ (c : AssistantConfig FunctionSpec) repr,
       __eq__ c (Other repr) = NotImplemented).
Proof.
  split; [|split].
  - intros c d. destruct (__eq__ c (Configuration d)) as [|b] eqn:Heq;
      [discriminate Heq|].
    exists b. split; [done|]. rewrite <- eq_true_iff, Heq.
    split; [by intros ->|by intros [= ->]].
  - intros c config_data path type. apply eq_true_iff.
    by repeat split.
  - done.
Qed.

End eq.

End ConfigFacts.

(** ** Facts about the main window *)

Module WindowFacts.
Import Window.

(** *** Attachment reconciliation *)

Lemma filter_all {A} (P : A → Prop) `{!∀ x, Decision (P x)} (l : list A) :
  (∀ x, x ∈ l → P x) → filter P l = l.
Proof.
  induction l as [|x l IH]; intros Hall; [done|].
  rewrite filter_cons_True by (apply Hall; left).
  f_equal. apply IH. intros y Hy. apply Hall. by right.
Qed.

Lemma filter_none {A} (P : A → Prop) `{!∀ x, Decision (P x)} (l : list A) :
  (∀ x, x ∈ l → ¬ P x) → filter P l = [].
Proof.
  induction l as [|x l IH]; intros Hnone; [done|].
  rewrite filter_cons_False by (apply Hnone; left).
  apply IH. intros y Hy. apply Hnone. by right.
Qed.

Lemma get_after_remove (config : thread_config) thread_id fid :
  get_attachments_of_thread
    (remove_attachment_from_thread config thread_id fid) thread_id
  = filter (λ att, file_id att ≠ fid) (get_attachments_of_thread config thread_id).
Proof.
  unfold get_attachments_of_thread, remove_attachment_from_thread.
  rewrite lookup_alter_eq. by destruct (config !! thread_id).
Qed.

Lemma remove_attachments_returned env (config : thread_config) thread_id l
    config' out :
  remove_attachments env config thread_id l = (config', out, Returned ()) →
  out = l ≫= removal thread_id
  ∧ get_attachments_of_thread config' thread_id
    = filter (λ att, file_id att ∉ file_id <$> l)
        (get_attachments_of_thread config thread_id).
Proof.
  revert config config' out.
  induction l as [|a l IH]; intros config config' out Hrun; simpl in Hrun.
  - injection Hrun as <- <-. split; [done|].
    symmetry. apply filter_all. intros att _. apply not_elem_of_nil.
  - unfold removal at 1. simpl mbind.
    destruct (bool_decide (attachment_type a ≠ IMAGE_FILE)).
    + destruct (files_delete_fails env (file_id a)); [discriminate Hrun|].
      destruct (remove_attachments env _ thread_id l) as [[config2 out2] r] eqn:Hrest.
      injection Hrun as <- <- ->.
      destruct (IH _ _ _ Hrest) as [-> Hget]. split; [done|].
      rewrite Hget, get_after_remove, list_filter_filter.
      apply list_filter_iff. intros att. rewrite fmap_cons, not_elem_of_cons.
      tauto.
    + destruct (remove_attachments env _ thread_id l) as [[config2 out2] r] eqn:Hrest.
      injection Hrun as <- <- ->.
      destruct (IH _ _ _ Hrest) as [-> Hget]. split; [done|].
      rewrite Hget, get_after_remove, list_filter_filter.
      apply list_filter_iff. intros att. rewrite fmap_cons, not_elem_of_cons.
      tauto.
Qed.

Lemma filter_ext_in {A} (P Q : A → Prop)
    `{!∀ x, Decision (P x), !∀ x, Decision (Q x)} (l : list A) :
  (∀ x, x ∈ l → P x ↔ Q x) → filter P l = filter Q l.
Proof.
  induction l as [|x l IH]; intros Hext; [done|].
  rewrite !filter_cons.
  assert (filter P l = filter Q l) as ->.
  { apply IH. intros y Hy. apply Hext. by right. }
  apply decide_ext, Hext. by left.
Qed.

(** What a reconciliation that returns has done. *)
Lemma reconciliation_returned
    (env : Collaborators) (config config' : thread_config)
    (thread_id : string) (dicts : list (gmap string string)) (out : list action) :
  update_attachments_from_ui_to_thread env config thread_id (Some dicts)
  = (config', out, Returned ()) →
  ∃ ids, all_file_ids dicts = Some ids
  ∧ get_attachments_of_thread config' thread_id
    = filter (λ att, file_id att ∈ ids)
        (get_attachments_of_thread config thread_id)
  ∧ out = filter (λ att, file_id att ∉ ids)
            (get_attachments_of_thread config thread_id)
          ≫= removal thread_id.
Proof.
  unfold update_attachments_from_ui_to_thread.
  destruct (all_file_ids dicts) as [ids|]; [|discriminate].
  set (existing := get_attachments_of_thread config thread_id).
  intros [Hout Hget]%remove_attachments_returned.
  exists ids. split; [done|]. split; [|done].
  rewrite Hget. apply filter_ext_in. intros att Hatt. split.
  - intros Hnot. destruct (decide (file_id att ∈ ids)) as [|Hout']; [done|].
    destruct Hnot. apply list_elem_of_fmap_2. by apply list_elem_of_filter.
  - intros Hin (att' & Heq & [Hno _]%list_elem_of_filter)%list_elem_of_fmap.
    apply Hno. by rewrite <- Heq.
Qed.

(** Whether or not the loop is left by an exception, it does nothing but
    removals of the attachments it was given. *)
Lemma remove_attachments_only_removals env (config : thread_config) thread_id l a :
  a ∈ (remove_attachments env config thread_id l).1.2 →
  a ∈ l ≫= removal thread_id.
Proof.
  revert config. induction l as [|att l IH]; intros config; simpl;
    [by intros ?%elem_of_nil|].
  unfold removal at 1.
  specialize (IH (remove_attachment_from_thread config thread_id (file_id att))).
  destruct (bool_decide (attachment_type att ≠ IMAGE_FILE)).
  - destruct (files_delete_fails env (file_id att)); simpl.
    { rewrite !elem_of_cons. intros [->|[->|Ha]]; [by left|right; by left|].
      by apply elem_of_nil in Ha. }
    destruct (remove_attachments env _ thread_id l) as [[c o] r]. simpl in *.
    rewrite !elem_of_cons. intros [->|[->|Ha]]; [by left|right; by left|].
    right. right. by apply IH.
  - destruct (remove_attachments env _ thread_id l) as [[c o] r]. simpl in *.
    rewrite !elem_of_cons. intros [->|Ha]; [by left|]. right. by apply IH.
Qed.

(** C7.  A reconciliation against a submitted attachment list detaches
    attachments of the thread whose file id is not in the list, and nothing
    else, and requests remote deletions for detached attachments that are not
    images, and for nothing else; when it returns, every attachment of the
    thread whose file id is not in the list has been detached from the
    thread configuration, its remote deletion has been requested if it is not
    an image, and the attachments whose file id is in the list have
    stayed. *)
Theorem reconciliation_detaches_absent_and_deletes_unless_image
    (env : Collaborators) (config : thread_config) (thread_id : string)
    (attachments_dicts : list (gmap string string)) :
  let done :=
    update_attachments_from_ui_to_thread env config thread_id
      (Some attachments_dicts) in
  let existing := get_attachments_of_thread config thread_id in
  (∀ fid, files_delete fid ∈ done.1.2 →
     ∃ ids att, all_file_ids attachments_dicts = Some ids
       ∧ att ∈ existing ∧ file_id att = fid ∧ (fid ∉ ids)
       ∧ attachment_type att ≠ IMAGE_FILE)
  ∧ (∀ tid fid, remove_attachment_from_thread_call tid fid ∈ done.1.2 →
       tid = thread_id
       ∧ ∃ ids att, all_file_ids attachments_dicts = Some ids
           ∧ att ∈ existing ∧ file_id att = fid ∧ fid ∉ ids)
  ∧ (done.2 = Returned () →
     ∃ ids, all_file_ids attachments_dicts = Some ids
     ∧ get_attachments_of_thread done.1.1 thread_id
       = filter (λ att, file_id att ∈ ids) existing
     ∧ ∀ att, att ∈ existing → file_id att ∉ ids →
         (∀ att', att' ∈ get_attachments_of_thread done.1.1 thread_id →
            file_id att' ≠ file_id att)
         ∧ remove_attachment_from_thread_call thread_id (file_id att) ∈ done.1.2
         ∧ (attachment_type att ≠ IMAGE_FILE →
            files_delete (file_id att) ∈ done.1.2)).
Proof.
  cbv zeta. set (existing := get_attachments_of_thread config thread_id).
  assert (∀ a, a ∈ (update_attachments_from_ui_to_thread env config thread_id
                      (Some attachments_dicts)).1.2 →
            ∃ ids att, all_file_ids attachments_dicts = Some ids
              ∧ att ∈ existing ∧ (file_id att ∉ ids)
              ∧ a ∈ removal thread_id att) as Honly.
  { unfold update_attachments_from_ui_to_thread.
    destruct (all_file_ids attachments_dicts) as [ids|];
      [|by intros a ?%elem_of_nil].
    intros a (att & Ha & [Hno Hatt]%list_elem_of_filter)%
             remove_attachments_only_removals%list_elem_of_bind.
    by exists ids, att. }
  split; [|split].
  - intros fid (ids & att & Hids & Hatt & Hno & Ha)%Honly.
    unfold removal in Ha. apply elem_of_cons in Ha as [[=]|Ha].
    destruct (bool_decide_reflect (attachment_type att ≠ IMAGE_FILE)) as [Himg|];
      [|by apply elem_of_nil in Ha].
    apply list_elem_of_singleton in Ha as [= ->]. by exists ids, att.
  - intros tid fid (ids & att & Hids & Hatt & Hno & Ha)%Honly.
    unfold removal in Ha. apply elem_of_cons in Ha as [[= -> ->]|Ha].
    { split; [done|]. by exists ids, att. }
    destruct (bool_decide (attachment_type att ≠ IMAGE_FILE));
      [|by apply elem_of_nil in Ha].
    by apply list_elem_of_singleton in Ha.
  - destruct (update_attachments_from_ui_to_thread env config thread_id
                (Some attachments_dicts)) as [[config' out] r] eqn:Hrun.
    simpl. intros ->.
    apply reconciliation_returned in Hrun as (ids & Hids & Hget & Hout).
    fold existing in Hget, Hout.
    exists ids. split; [done|]. split; [done|].
    intros att Hatt Hno.
    assert (att ∈ filter (λ a, file_id a ∉ ids) existing) as Hrem
      by (apply list_elem_of_filter; done).
    split; [|split].
    + rewrite Hget. intros att' [Hkeep _]%list_elem_of_filter Heq.
      apply Hno. by rewrite <- Heq.
    + rewrite Hout. apply list_elem_of_bind. exists att. split; [|done]. by left.
    + intros Himg. rewrite Hout. apply list_elem_of_bind. exists att.
      split; [|done]. unfold removal. rewrite bool_decide_eq_true_2 by done.
      right. by left.
Qed.

(** C8.  Reconciliation is idempotent: when a reconciliation returns, a
    second one against the same submitted list, run right after it, detaches
    nothing, requests no remote deletion, and leaves the thread
    configuration as it is. *)
Theorem reconciliation_idempotent
    (env : Collaborators) (config config' : thread_config)
    (thread_id : string) (attachments_dicts : option (list (gmap string string)))
    (out : list action) :
  update_attachments_from_ui_to_thread env config thread_id attachments_dicts
  = (config', out, Returned ()) →
  update_attachments_from_ui_to_thread env config' thread_id attachments_dicts
  = (config', [], Returned ()).
Proof.
  destruct attachments_dicts as [dicts|]; [|discriminate].
  intros Hfirst.
  destruct (reconciliation_returned env config config' thread_id dicts out
              Hfirst) as (ids & Hids & Hget & _).
  unfold update_attachments_from_ui_to_thread. rewrite Hids, Hget.
  rewrite (filter_none (λ att, file_id att ∉ ids)); [done|].
  by intros att [Hin _]%list_elem_of_filter Hno.
Qed.

(** The sample reconciliation: the report and the photo are detached, the
    report alone is deleted remotely, the notes stay. *)
Lemma reconciliation_witness :
  update_attachments_from_ui_to_thread sample_env sample_config "thread_1"
    (Some sample_submitted)
  = ({[ "thread_1" := [{| file_id := "f3"; file_name := "notes.txt";
                          attachment_type := SEARCH_INDEX_INPUT |}] ]},
     [remove_attachment_from_thread_call "thread_1" "f1"; files_delete "f1";
      remove_attachment_from_thread_call "thread_1" "f2"],
     Returned ())
  ∧ ∃ ids, all_file_ids sample_submitted = Some ids
      ∧ get_attachments_of_thread
          (update_attachments_from_ui_to_thread sample_env sample_config
             "thread_1" (Some sample_submitted)).1.1 "thread_1"
        = filter (λ att, file_id att ∈ ids)
            (get_attachments_of_thread sample_config "thread_1").
Proof.
  split; [vm_compute; reflexivity|].
  destruct (proj2 (proj2
    (reconciliation_detaches_absent_and_deletes_unless_image
       sample_env sample_config "thread_1" sample_submitted)) eq_refl)
    as (ids & Hids & Hget & _).
  exists ids. split; [exact Hids|exact Hget].
Defined.

(** The sample reconciliation, run a second time. *)
Lemma reconciliation_idempotent_witness :
  update_attachments_from_ui_to_thread sample_env
    {[ "thread_1" := [{| file_id := "f3"; file_name := "notes.txt";
                         attachment_type := SEARCH_INDEX_INPUT |}] ]}
    "thread_1" (Some sample_submitted)
  = ({[ "thread_1" := [{| file_id := "f3"; file_name := "notes.txt";
                          attachment_type := SEARCH_INDEX_INPUT |}] ]},
     [], Returned ()).
Proof.
  apply (reconciliation_idempotent sample_env sample_config _ "thread_1"
           (Some sample_submitted)
           [remove_attachment_from_thread_call "thread_1" "f1";
            files_delete "f1";
            remove_attachment_from_thread_call "thread_1" "f2"]).
  vm_compute. reflexivity.
Defined.

(** *** Start and stop notifications *)

Lemma remove_attachments_not_about_processing env (config : thread_config)
    thread_id l :
  Forall (λ a, about_processing a = false)
    (remove_attachments env config thread_id l).1.2.
Proof.
  revert config. induction l as [|att l IH]; intros config; simpl;
    [by constructor|].
  destruct (bool_decide _).
  - destruct (files_delete_fails env (file_id att)); [by repeat constructor|].
    specialize (IH (remove_attachment_from_thread config thread_id (file_id att))).
    destruct (remove_attachments env _ thread_id l) as [[c o] r].
    by repeat constructor.
  - specialize (IH (remove_attachment_from_thread config thread_id (file_id att))).
    destruct (remove_attachments env _ thread_id l) as [[c o] r].
    by repeat constructor.
Qed.

Lemma update_attachments_not_about_processing env (config : thread_config)
    thread_id dicts :
  Forall (λ a, about_processing a = false)
    (update_attachments_from_ui_to_thread env config thread_id dicts).1.2.
Proof.
  unfold update_attachments_from_ui_to_thread.
  destruct dicts as [dicts|]; [|by constructor].
  destruct (all_file_ids dicts); [|by constructor].
  apply remove_attachments_not_about_processing.
Qed.

Lemma create_thread_message_not_about_processing env user_input thread_name dicts :
  Forall (λ a, about_processing a = false)
    (create_thread_message env user_input thread_name dicts).1.
Proof.
  unfold create_thread_message.
  destruct (retrieve_conversation env thread_name); [|by constructor].
  destruct (dicts ≫= _); by repeat constructor.
Qed.

(** One assistant's processing on its own: when the submission raises, the
    method is left without the stop notification. *)
Lemma process_assistant_input_cases env assistant_name thread_name sched :
  (processing thread_name sched
     (process_assistant_input env assistant_name thread_name sched).1
   ∧ (process_assistant_input env assistant_name thread_name sched).2
     = Returned ())
  ∨ ∃ error,
      process_assistant_input env assistant_name thread_name sched
      = ([start_signal assistant_name sched;
          process_messages assistant_name thread_name], Raised error).
Proof.
  unfold process_assistant_input.
  destruct (clients env !! assistant_name) as [client|].
  - destruct (client thread_name) as [[]|error].
    + left. split; [apply processing_returned|done].
    + right. by exists error.
  - left. split; [apply processing_without_client|done].
Qed.

Lemma process_assistants_shape env assistants thread_name sched last :
  ∃ blocks,
    Forall (processing thread_name sched) blocks
    ∧ ((process_assistants env assistants thread_name sched last).1
       = (concat blocks, Returned ())
       ∨ ∃ error assistant_name,
           process_assistants env assistants thread_name sched last
           = (concat blocks
              ++ [start_signal assistant_name sched;
                  process_messages assistant_name thread_name],
              Raised error, Some assistant_name)).
Proof.
  revert last. induction assistants as [|a rest IH]; intros last.
  - exists []. split; [constructor|]. by left.
  - simpl.
    destruct (process_assistant_input_cases env a thread_name sched)
      as [[Hblock Hret]|[error Hraise]].
    + destruct (process_assistant_input env a thread_name sched) as [out r].
      simpl in Hblock, Hret. subst r.
      destruct (IH (Some a)) as (blocks & Hblocks & Hrest).
      exists (out :: blocks). split; [by constructor|].
      destruct (process_assistants env rest thread_name sched (Some a))
        as [[out' r'] last'].
      destruct Hrest as [Hrest|(error & name & Hrest)].
      * left. simpl in Hrest. by injection Hrest as -> ->.
      * right. exists error, name. injection Hrest as -> -> ->.
        by rewrite app_assoc.
    + rewrite Hraise. exists []. split; [constructor|].
      right. by exists error, a.
Qed.

(** What [process_input] did is a prelude that notifies nothing about
    processing, followed by one complete processing per assistant reached. *)
Lemma process_input_shape env (config : thread_config) user_input assistants
    thread_name sched dicts :
  ∃ prelude blocks,
    (process_input env config user_input assistants thread_name sched dicts).1.2
    = prelude ++ concat blocks
    ∧ Forall (λ a, about_processing a = false) prelude
    ∧ Forall (processing thread_name sched) blocks.
Proof.
  unfold process_input, process_input_body.
  destruct (thread_client_initialized env); simpl.
  2: { eexists [_], []. by repeat constructor. }
  pose proof (update_attachments_not_about_processing env config
                (get_thread_id_by_name env thread_name) dicts) as H1.
  destruct (update_attachments_from_ui_to_thread env config _ dicts)
    as [[config1 out1] [[]|error1]]; simpl in H1.
  2: { exists (out1 ++ [error_signal
                          ("An error occurred while processing the input: "
                           +:+ error1)]), [].
       simpl. rewrite app_nil_r. split; [done|]. split; [|constructor].
       apply Forall_app. split; [done|by repeat constructor]. }
  pose proof (create_thread_message_not_about_processing env user_input
                thread_name dicts) as H2.
  destruct (create_thread_message env user_input thread_name dicts)
    as [out2 [[]|error2]]; simpl in H2.
  2: { eexists ((out1 ++ out2) ++ [_]), [].
       simpl. rewrite app_nil_r. split; [done|]. split; [|constructor].
       repeat (apply Forall_app; split); try done. by repeat constructor. }
  destruct (retrieve_conversation env thread_name) as [conversation|error3].
  2: { eexists ((out1 ++ out2 ++ _) ++ [_]), [].
       simpl. rewrite app_nil_r. split; [done|]. split; [|constructor].
       repeat (apply Forall_app; split); try done; by repeat constructor. }
  destruct (process_assistants_shape env assistants thread_name sched None)
    as (blocks & Hblocks & Hloop).
  set (prelude := out1 ++ out2
         ++ update_attachments_in_ui_from_thread config1
              (get_thread_id_by_name env thread_name)
         ++ update_conversation_messages conversation).
  assert (Forall (λ a, about_processing a = false) prelude) as Hprelude.
  { repeat (apply Forall_app; split); try done; by repeat constructor. }
  destruct (process_assistants env assistants thread_name sched None)
    as [[out5 r5] last].
  destruct Hloop as [Hloop|(error & name & Hloop)].
  - simpl in Hloop. injection Hloop as -> ->. exists prelude, blocks.
    simpl. split; [|done].
    unfold prelude, update_conversation_messages,
      update_attachments_in_ui_from_thread.
    by repeat (rewrite <- app_assoc; simpl).
  - injection Hloop as -> -> ->.
    exists prelude,
      (blocks ++ [[start_signal name sched; process_messages name thread_name;
                   error_signal ("An error occurred while processing the input: "
                                 +:+ error);
                   stop_signal name sched]]).
    simpl. split; [|split; [done|]].
    + unfold prelude, update_conversation_messages,
        update_attachments_in_ui_from_thread.
      rewrite concat_app. simpl. rewrite ?app_nil_r.
      by repeat (rewrite <- app_assoc; simpl).
    + apply Forall_app. split; [done|]. repeat constructor.
Qed.

Lemma lookup_concat_block {A} (blocks : list (list A)) k x :
  concat blocks !! k = Some x →
  ∃ pre b post off,
    blocks = pre ++ b :: post ∧ b !! off = Some x
    ∧ k = length (concat pre) + off.
Proof.
  revert k. induction blocks as [|b blocks IH]; intros k Hk; [done|].
  simpl in Hk. destruct (decide (k < length b)) as [Hlt|Hge].
  - rewrite lookup_app_l in Hk by done. by exists [], b, blocks, k.
  - rewrite lookup_app_r in Hk by lia.
    destruct (IH _ Hk) as (pre & b' & post & off & -> & Hoff & Hlen).
    exists (b :: pre), b', post, off. repeat split; [done|].
    simpl. rewrite length_app. lia.
Qed.

Lemma lookup_at_block {A} (prelude : list A) pre b post off :
  off < length b →
  (prelude ++ concat (pre ++ b :: post))
    !! (length prelude + (length (concat pre) + off))
  = b !! off.
Proof.
  intros Hoff. rewrite lookup_app_r by lia. rewrite concat_app. simpl.
  rewrite lookup_app_r by lia. rewrite lookup_app_l by lia. f_equal. lia.
Qed.

(** C3.  Whatever [process_input] meets, each assistant whose processing
    begins is notified as started before its submission and as stopped
    after it, also when the submission raises: what [process_input] did is
    a prelude without such notifications followed by complete processings,
    every submission lies between the start and the stop notification of
    its assistant, and every start notification is followed by the matching
    stop notification. *)
Theorem start_and_stop_notified_on_every_exit
    (env : Collaborators) (config : thread_config) (user_input : string)
    (assistants : list string) (thread_name : string)
    (is_scheduled_task : bool)
    (attachments_dicts : option (list (gmap string string))) :
  let out :=
    (process_input env config user_input assistants thread_name
       is_scheduled_task attachments_dicts).1.2 in
  (∃ prelude blocks,
     out = prelude ++ concat blocks
     ∧ Forall (λ a, about_processing a = false) prelude
     ∧ Forall (processing thread_name is_scheduled_task) blocks)
  ∧ (∀ k assistant_name thread,
       out !! k = Some (process_messages assistant_name thread) →
       ∃ i j, i < k ∧ k < j
         ∧ out !! i = Some (start_signal assistant_name is_scheduled_task)
         ∧ out !! j = Some (stop_signal assistant_name is_scheduled_task))
  ∧ (∀ i assistant_name scheduled,
       out !! i = Some (start_signal assistant_name scheduled) →
       ∃ j, i < j ∧ out !! j = Some (stop_signal assistant_name scheduled)).
Proof.
  cbv zeta.
  destruct (process_input_shape env config user_input assistants thread_name
              is_scheduled_task attachments_dicts)
    as (prelude & blocks & -> & Hprelude & Hblocks).
  split; [by exists prelude, blocks|].
  assert (∀ k x, (prelude ++ concat blocks) !! k = Some x →
            about_processing x = true →
            ∃ pre b post off,
              blocks = pre ++ b :: post ∧ b !! off = Some x
              ∧ k = length prelude + (length (concat pre) + off)
              ∧ processing thread_name is_scheduled_task b) as Hfind.
  { intros k x Hk Hx. destruct (decide (k < length prelude)) as [Hlt|Hge].
    - rewrite lookup_app_l in Hk by done. rewrite Forall_lookup in Hprelude.
      specialize (Hprelude _ _ Hk). simpl in Hprelude. congruence.
    - rewrite lookup_app_r in Hk by lia.
      destruct (lookup_concat_block _ _ _ Hk)
        as (pre & b & post & off & -> & Hoff & Hlen).
      exists pre, b, post, off. repeat split; [done|lia|].
      apply Forall_app in Hblocks as [_ Hb].
      by apply Forall_cons in Hb as [Hb _]. }
  split.
  - intros k a t Hk.
    destruct (Hfind _ _ Hk eq_refl) as (pre & b & post & off & -> & Hoff & -> & Hb).
    exists (length prelude + (length (concat pre) + 0)).
    destruct Hb as [name|name|name msg];
      destruct off as [|[|[|[|off]]]]; simplify_eq/=.
    + exists (length prelude + (length (concat pre) + 2)).
      repeat split; [lia|lia| |]; by rewrite lookup_at_block by (simpl; lia).
    + exists (length prelude + (length (concat pre) + 3)).
      repeat split; [lia|lia| |]; by rewrite lookup_at_block by (simpl; lia).
  - intros i a sched Hi.
    destruct (Hfind _ _ Hi eq_refl) as (pre & b & post & off & -> & Hoff & -> & Hb).
    destruct Hb as [name|name|name msg];
      destruct off as [|[|[|[|off]]]]; simplify_eq/=.
    + exists (length prelude + (length (concat pre) + 1)).
      split; [lia|]. by rewrite lookup_at_block by (simpl; lia).
    + exists (length prelude + (length (concat pre) + 2)).
      split; [lia|]. by rewrite lookup_at_block by (simpl; lia).
    + exists (length prelude + (length (concat pre) + 3)).
      split; [lia|]. by rewrite lookup_at_block by (simpl; lia).
Qed.

(** The sample input sent to assistants ["A"] and ["B"]: the submission of
    ["B"] raises, and its stop notification is emitted all the same. *)
Lemma start_and_stop_witness :
  (process_input sample_env sample_config "Hello" ["A"; "B"] "chat" false
     (Some sample_submitted)).1.2
  = [remove_attachment_from_thread_call "thread_1" "f1"; files_delete "f1";
     remove_attachment_from_thread_call "thread_1" "f2";
     create_conversation_thread_message "Hello" "chat";
     set_attachments_for_selected_thread
       [{| file_id := "f3"; file_name := "notes.txt";
           attachment_type := SEARCH_INDEX_INPUT |}];
     conversation_view_clear;
     conversation_append_messages sample_conversation;
     start_signal "A" false; process_messages "A" "chat"; stop_signal "A" false;
     start_signal "B" false; process_messages "B" "chat";
     error_signal
       "An error occurred while processing the input: rate limit exceeded";
     stop_signal "B" false]
  ∧ ∃ i j, i < 11 ∧ 11 < j
      ∧ (process_input sample_env sample_config "Hello" ["A"; "B"] "chat" false
           (Some sample_submitted)).1.2 !! i = Some (start_signal "B" false)
      ∧ (process_input sample_env sample_config "Hello" ["A"; "B"] "chat" false
           (Some sample_submitted)).1.2 !! j = Some (stop_signal "B" false).
Proof.
  split; [vm_compute; reflexivity|].
  apply (proj1 (proj2 (start_and_stop_notified_on_every_exit
                         sample_env sample_config "Hello" ["A"; "B"] "chat"
                         false (Some sample_submitted))) 11 "B" "chat").
  vm_compute. reflexivity.
Defined.

(** X19.  Called without an attachment list, as [handle_execution] does for
    a scheduled task, [process_input] never reaches its loop: the
    reconciliation raises, and the [except] clause, after emitting the
    error, raises on the loop variable that was never assigned. *)
Lemma process_input_without_attachments env (config : thread_config)
    user_input assistants thread_name sched :
  ∃ error_message,
    process_input env config user_input assistants thread_name sched None
    = (config, [error_signal error_message],
       Raised "cannot access local variable 'assistant_name' where it is not associated with a value").
Proof.
  unfold process_input, process_input_body.
  destruct (thread_client_initialized env); simpl; by eexists.
Qed.

(** *** Signals of a thread that is not on display *)

(** [on_run_update] drops the update of a thread that is not the displayed
    one, whatever the status. *)
Lemma on_run_update_drops_stale env assistant_name run_identifier run_status
    thread_name is_first_message message :
  is_current_conversation_thread env thread_name = false →
  on_run_update env assistant_name run_identifier run_status thread_name
    is_first_message message = ([], Returned ()).
Proof. intros Hstale. unfold on_run_update. by rewrite Hstale. Qed.

(** [on_run_failed] never asks whether the thread is on display: once the
    conversation of the thread is retrieved, the view is cleared and filled
    with it. *)
Lemma on_run_failed_updates_view env assistant_name run_identifier run_end_time
    error_code error_message thread_name conversation :
  conversations env !! thread_name = Some conversation →
  ∃ diagnostics,
    on_run_failed env assistant_name run_identifier run_end_time error_code
      error_message thread_name
    = (diagnostics
       ++ [conversation_view_clear; conversation_append_messages conversation],
       Returned ())
    ∧ Forall (λ a, changes_conversation_view a = false) diagnostics.
Proof.
  intros Hthread. unfold on_run_failed, retrieve_conversation.
  rewrite Hthread. eexists. split; [done|].
  constructor; [done|]. unfold handle_realtime_run_end.
  repeat match goal with |- context [if ?b then _ else _] => destruct b end;
    by repeat constructor.
Qed.

(** C6, the failing case.  While thread ["chat"] is on display a run on
    thread ["Scheduled_report"] fails: an update of that run is dropped, but
    the failure clears the view and fills it with the messages of
    ["Scheduled_report"]. *)
Theorem on_run_failed_applies_signal_of_other_thread :
  is_current_conversation_thread sample_env "Scheduled_report" = false
  ∧ on_run_update sample_env "A" "run_7" "completed" "Scheduled_report" false
      None = ([], Returned ())
  ∧ on_run_failed sample_env "A" "run_7" "2024-05-01 12:00:00"
      "rate_limit_exceeded" "Too many requests" "Scheduled_report"
    = ([end_run_signal "A" "run_7" "2024-05-01 12:00:00"
          "Run failed due to error code: rate_limit_exceeded, message: Too many requests";
        conversation_view_clear;
        conversation_append_messages
          [{| sender := "user"; text_message := Some "Daily report";
              file_messages := [] |}]],
       Returned ()).
Proof. repeat split; vm_compute; reflexivity. Qed.

End WindowFacts.

(** ** Facts about scheduled tasks and their threads *)

Module SchedulerFacts.
Import Scheduler.

(** *** The callbacks, one at a time *)

Lemma on_task_started_bound env st schedule_id :
  bound st schedule_id → on_task_started env st schedule_id = (st, Returned ()).
Proof.
  intros Hb. unfold on_task_started.
  rewrite bool_decide_eq_false_2; [done|]. by intros Hn.
Qed.

Lemma on_task_started_unbound env st schedule_id :
  ¬ bound st schedule_id → threads_client_initialized env = true →
  on_task_started env st schedule_id
  = ({| scheduled_task_threads :=
          <[schedule_id :=
              Some (create_conversation_thread env (length (threads_created st)))]>
            (scheduled_task_threads st);
        threads_created :=
          threads_created st
          ++ [create_conversation_thread env (length (threads_created st))] |},
     Returned ()).
Proof.
  intros Hn Hinit. unfold on_task_started, setup_conversation_thread.
  by rewrite bool_decide_eq_true_2, Hinit.
Qed.

Lemma on_task_started_keeps env st schedule_id sid :
  bound st sid → bound (on_task_started env st schedule_id).1 sid.
Proof.
  intros Hb. unfold on_task_started.
  destruct (bool_decide _); [|done].
  destruct (setup_conversation_thread env st); [|done].
  unfold bound. simpl. rewrite dom_insert_L. set_solver.
Qed.

Lemma kept_refl env schedule_id st : kept env schedule_id st st [].
Proof. by repeat split. Qed.

Lemma kept_trans env schedule_id st1 st2 st3 out1 out2 :
  kept env schedule_id st1 st2 out1 → kept env schedule_id st2 st3 out2 →
  kept env schedule_id st1 st3 (out1 ++ out2).
Proof.
  intros (Hc1 & Hb1 & Ho1 & Hn1) (Hc2 & Hb2 & Ho2 & Hn2).
  split; [congruence|]. split; [by auto|]. split.
  { intros sid Hsid. by rewrite Ho2, Ho1. }
  intros Hoff. destruct (Hn1 Hoff) as [Hg1 Hs1], (Hn2 Hoff) as [Hg2 Hs2].
  split; [intros sid; by rewrite Hg2, Hg1|].
  apply Forall_app. split; [done|].
  eapply Forall_impl; [exact Hs2|]. intros a Ha t Ht. rewrite <- Hg1. by apply Ha.
Qed.

Lemma get_insert_get (table : gmap string (option string)) schedule_id sid :
  get (<[schedule_id := get table schedule_id]> table) sid = get table sid.
Proof.
  unfold get. destruct (decide (schedule_id = sid)) as [->|Hne].
  - rewrite lookup_insert_eq. simpl. by destruct (table !! sid).
  - by rewrite lookup_insert_ne.
Qed.

Lemma handle_execution_kept env st user_request schedule_id assistant_name :
  kept env schedule_id st
    (handle_execution env st user_request schedule_id assistant_name).1.1
    (handle_execution env st user_request schedule_id assistant_name).1.2.
Proof.
  unfold handle_execution.
  destruct (use_system_assistant_for_thread_name env) eqn:Huse.
  - destruct (update_conversation_title env user_request _) as [updated|error];
      simpl.
    + split; [done|]. split.
      { intros sid Hb. unfold bound. simpl. rewrite dom_insert_L. set_solver. }
      split; [|congruence]. intros sid Hne. simpl. by rewrite lookup_insert_ne.
    + split; [done|]. split; [done|]. split; [done|]. congruence.
  - simpl. split; [done|]. split.
    { intros sid Hb. unfold bound. simpl. rewrite dom_insert_L. set_solver. }
    split; [intros sid Hne; simpl; by rewrite lookup_insert_ne|].
    intros _. split; [intros sid; apply get_insert_get|].
    apply Forall_app. split.
    + destruct (is_thread_selected env _); repeat constructor; by intros t [=].
    + repeat constructor. by intros t [= <-].
Qed.

Lemma handle_executions_kept env st schedule_id requests :
  kept env schedule_id st
    (handle_executions env st schedule_id requests).1.1
    (handle_executions env st schedule_id requests).1.2.
Proof.
  revert st. induction requests as [|[assistant request] rest IH]; intros st;
    [apply kept_refl|].
  simpl.
  pose proof (handle_execution_kept env st request schedule_id assistant) as H1.
  destruct (handle_execution env st request schedule_id assistant)
    as [[st1 out1] [[]|error]]; simpl in H1; [|done].
  specialize (IH st1).
  destruct (handle_executions env st1 schedule_id rest) as [[st2 out2] r2].
  simpl in *. by eapply kept_trans.
Qed.

Lemma on_task_execute_kept env st task schedule_id :
  kept env schedule_id st
    (on_task_execute env st task schedule_id).1.1
    (on_task_execute env st task schedule_id).1.2.
Proof.
  destruct task; simpl.
  - apply handle_execution_kept.
  - apply handle_executions_kept.
  - apply handle_executions_kept.
  - apply kept_refl.
Qed.

Lemma cleanup_unbinds st schedule_id :
  ¬ bound (cleanup_scheduled_thread st schedule_id) schedule_id.
Proof.
  unfold cleanup_scheduled_thread, bound.
  destruct (bool_decide_reflect (schedule_id ∈ dom (scheduled_task_threads st)));
    [|done].
  simpl. rewrite dom_delete_L. apply not_elem_of_difference. right.
  by apply elem_of_singleton.
Qed.

Lemma cleanup_keeps_others st schedule_id sid :
  sid ≠ schedule_id →
  scheduled_task_threads (cleanup_scheduled_thread st schedule_id) !! sid
  = scheduled_task_threads st !! sid
  ∧ threads_created (cleanup_scheduled_thread st schedule_id)
    = threads_created st.
Proof.
  intros Hne. unfold cleanup_scheduled_thread.
  destruct (bool_decide _); [|done]. simpl. by rewrite lookup_delete_ne.
Qed.

(** Only the completed and the failed callback of a schedule id remove its
    binding. *)
Lemma deliver_keeps env st cb sid :
  is_terminal_for sid cb = false → bound st sid → bound (deliver env st cb) sid.
Proof.
  intros Hcb Hb. destruct cb as [task s|task s|task s|task s]; simpl in *.
  - by apply on_task_started_keeps.
  - by apply (on_task_execute_kept env st task s).
  - apply bool_decide_eq_false in Hcb. unfold bound.
    destruct (cleanup_keeps_others st s sid) as [Hsame _]; [done|].
    apply elem_of_dom. unfold on_task_completed. rewrite Hsame.
    by apply elem_of_dom.
  - apply bool_decide_eq_false in Hcb. unfold bound.
    destruct (cleanup_keeps_others st s sid) as [Hsame _]; [done|].
    apply elem_of_dom. unfold on_task_failed. rewrite Hsame.
    by apply elem_of_dom.
Qed.

Lemma deliver_all_keeps env st cbs sid :
  Forall (λ cb, is_terminal_for sid cb = false) cbs →
  bound st sid → bound (deliver_all env st cbs) sid.
Proof.
  intros Hcbs. revert st. induction Hcbs as [|cb cbs Hcb _ IH]; intros st Hb;
    [done|].
  simpl. apply IH. by apply deliver_keeps.
Qed.

Lemma deliver_all_reuses env st cbs sid :
  Forall (occurrence_of sid) cbs → bound st sid →
  threads_created (deliver_all env st cbs) = threads_created st
  ∧ (use_system_assistant_for_thread_name env = false →
     get (scheduled_task_threads (deliver_all env st cbs)) sid
     = get (scheduled_task_threads st) sid).
Proof.
  intros Hcbs. revert st.
  induction Hcbs as [|cb cbs [task [->| ->]] _ IH]; intros st Hb; [done| |].
  - simpl. rewrite on_task_started_bound by done. by apply IH.
  - simpl.
    destruct (on_task_execute_kept env st task sid) as (Hc & Hk & _ & Hn).
    destruct (IH _ (Hk _ Hb)) as [IHc IHn].
    split; [congruence|]. intros Hoff. rewrite IHn by done.
    by apply Hn.
Qed.

(** C9.  The binding of a schedule id to its thread is made by the first
    callback of the task, [on_task_started], which sets up the thread; the
    completed and the failed callback remove it, and no other callback
    does: an execute callback removes no binding and sets up no thread, so
    whatever is executed in between, the schedule id stays bound, no further
    thread is set up for it, and (titles not being updated) it stays bound
    to the same thread, on which every execution is submitted. *)
Theorem scheduled_thread_bound_from_start_to_completion (env : Environment) :
  (∀ st sid, ¬ bound st sid → threads_client_initialized env = true →
     let thread_name :=
       create_conversation_thread env (length (threads_created st)) in
     let st' := (on_task_started env st sid).1 in
     scheduled_task_threads st' !! sid = Some (Some thread_name)
     ∧ threads_created st' = threads_created st ++ [thread_name])
  ∧ (∀ st sid, ¬ bound (on_task_completed st sid) sid
               ∧ ¬ bound (on_task_failed st sid) sid)
  ∧ (∀ st cb sid, bound st sid → ¬ bound (deliver env st cb) sid →
       is_terminal_for sid cb = true)
  ∧ (∀ st task schedule_id sid, bound st sid →
       bound (on_task_execute env st task schedule_id).1.1 sid)
  ∧ (∀ st task schedule_id,
       threads_created (on_task_execute env st task schedule_id).1.1
       = threads_created st)
  ∧ (∀ st cbs sid, bound st sid →
       Forall (λ cb, is_terminal_for sid cb = false) cbs →
       bound (deliver_all env st cbs) sid)
  ∧ (∀ st cbs sid, bound st sid → Forall (occurrence_of sid) cbs →
       threads_created (deliver_all env st cbs) = threads_created st
       ∧ (use_system_assistant_for_thread_name env = false →
          get (scheduled_task_threads (deliver_all env st cbs)) sid
          = get (scheduled_task_threads st) sid))
  ∧ (∀ st task sid, use_system_assistant_for_thread_name env = false →
       Forall (λ a, ∀ t, submitted_on a = Some t →
                 t = get (scheduled_task_threads st) sid)
         (on_task_execute env st task sid).1.2).
Proof.
  split; [|split; [|split; [|split; [|split; [|split; [|split]]]]]].
  - intros st sid Hn Hinit. cbv zeta.
    rewrite on_task_started_unbound by done. simpl.
    by rewrite lookup_insert_eq.
  - intros st sid. split; apply cleanup_unbinds.
  - intros st cb sid Hb Hn.
    destruct (is_terminal_for sid cb) eqn:Hcb; [done|].
    destruct Hn. by apply deliver_keeps.
  - intros st task schedule_id sid Hb.
    by apply (on_task_execute_kept env st task schedule_id).
  - intros st task schedule_id.
    by destruct (on_task_execute_kept env st task schedule_id).
  - intros st cbs sid Hb Hcbs. by apply deliver_all_keeps.
  - intros st cbs sid Hb Hcbs. by apply deliver_all_reuses.
  - intros st task sid Hoff.
    by apply (on_task_execute_kept env st task sid).
Qed.

(** A recurring task: started, executed twice, completed.  The thread set
    up at the start is the one bound after both executions, and the
    completion removes the binding. *)
Lemma scheduled_thread_witness :
  let running :=
    deliver_all sample_env initial
      [Started (BasicTask "Daily report" "A") "s1";
       Execute (BasicTask "Daily report" "A") "s1";
       Started (BasicTask "Daily report" "A") "s1";
       Execute (BasicTask "Daily report" "A") "s1"] in
  ¬ bound initial "s1"
  ∧ scheduled_task_threads (on_task_started sample_env initial "s1").1 !! "s1"
    = Some (Some "Scheduled_1")
  ∧ get (scheduled_task_threads running) "s1" = Some "Scheduled_1"
  ∧ threads_created running = ["Scheduled_1"]
  ∧ ¬ bound (on_task_completed running "s1") "s1".
Proof.
  cbv zeta.
  assert (¬ bound initial "s1") as Hfresh.
  { unfold bound, initial. simpl. rewrite dom_empty_L. apply not_elem_of_empty. }
  pose proof (scheduled_thread_bound_from_start_to_completion sample_env)
    as (Hstart & Hdone & _).
  split; [exact Hfresh|].
  split; [exact (proj1 (Hstart initial "s1" Hfresh eq_refl))|].
  split; [vm_compute; reflexivity|].
  split; [vm_compute; reflexivity|].
  exact (proj1 (Hdone _ "s1")).
Defined.

(** *** Callbacks running concurrently *)

Lemma statement_inside env st op p st' p' :
  statement env st op p = Some (st', p') → inside p = true ∧ inside p' = true.
Proof.
  unfold statement. intros Hs.
  destruct op, p; try discriminate Hs;
    repeat match type of Hs with
           | context [match ?x with _ => _ end] => destruct x
           | context [if ?b then _ else _] => destruct b
           end;
    by injection Hs as <- <-.
Qed.

(** A statement leaves the table as the worker tested it, or is the test. *)
Lemma statement_as_tested env st op p st' p' :
  statement env st op p = Some (st', p') →
  as_tested st op p → as_tested st' op p'.
Proof.
  unfold statement. intros Hs Ht.
  destruct op as [sid|request sid assistant|sid], p; try discriminate Hs;
    simpl in *.
  - destruct (bool_decide_reflect (sid ∉ dom (scheduled_task_threads st)));
      by injection Hs as <- <-.
  - destruct (setup_conversation_thread env st); by injection Hs as <- <-.
  - by injection Hs as <- <-.
  - by injection Hs as <- <-.
  - destruct (use_system_assistant_for_thread_name env);
      [destruct (update_conversation_title env request thread_name)|];
      by injection Hs as <- <-.
  - by injection Hs as <- <-.
  - by injection Hs as <- <-.
  - destruct (bool_decide_reflect (sid ∈ dom (scheduled_task_threads st)));
      by injection Hs as <- <-.
  - by injection Hs as <- <-.
Qed.

Lemma start_invariant st ops : lock_invariant (start st ops).
Proof.
  intros i op p Hi Hin. simpl in Hi. rewrite list_lookup_fmap in Hi.
  destruct (ops !! i); simplify_eq/=.
Qed.

(** Every step keeps the invariant of the lock. *)
Lemma step_invariant env i sys sys' :
  lock_invariant sys → step env i sys = Some sys' → lock_invariant sys'.
Proof.
  intros Hinv Hstep. unfold step in Hstep.
  destruct (workers sys !! i) as [[op p]|] eqn:Hi; [|discriminate Hstep].
  assert (i < length (workers sys)) as Hlen by (by eapply lookup_lt_Some).
  (* a worker other than [i] that is inside excludes [i] being inside *)
  assert (∀ j op' p', j ≠ i → workers sys !! j = Some (op', p') →
            inside p' = true → inside p = true → False) as Hexcl.
  { intros j op' p' Hne Hj Hin' Hin.
    destruct (Hinv _ _ _ Hj Hin') as [Hlock' _].
    destruct (Hinv _ _ _ Hi Hin) as [Hlock _]. congruence. }
  destruct p.
  1: { (* acquiring the lock *)
    destruct (thread_lock sys) eqn:Hfree; [discriminate Hstep|].
    injection Hstep as <-. intros j op' p' Hj Hin'. simpl in *.
    destruct (decide (j = i)) as [->|Hne].
    - rewrite list_lookup_insert_eq in Hj by done. injection Hj as <- <-.
      split; [done|]. by destruct op.
    - rewrite list_lookup_insert_ne in Hj by done.
      destruct (Hinv _ _ _ Hj Hin') as [Hlock' _]. congruence. }
  10: { (* releasing the lock *)
    injection Hstep as <-. intros j op' p' Hj Hin'. simpl in *.
    destruct (decide (j = i)) as [->|Hne].
    - rewrite list_lookup_insert_eq in Hj by done. by injection Hj as <- <-.
    - rewrite list_lookup_insert_ne in Hj by done.
      destruct (Hexcl _ _ _ Hne Hj Hin' eq_refl). }
  10: discriminate Hstep.
  (* a statement under the lock *)
  all: destruct (statement env (shared sys) op _) as [[st' p']|] eqn:Hs;
    [|discriminate Hstep];
    injection Hstep as <-;
    destruct (Hinv _ _ _ Hi eq_refl) as [Hlock Htested];
    intros j op' q Hj Hin'; simpl in *;
    (destruct (decide (j = i)) as [->|Hne];
     [rewrite list_lookup_insert_eq in Hj by done; injection Hj as <- <-;
      split; [done|]; by eapply statement_as_tested
     |rewrite list_lookup_insert_ne in Hj by done;
      destruct (Hexcl _ _ _ Hne Hj Hin' eq_refl)]).
Qed.

Lemma run_invariant env sys interleaving :
  lock_invariant sys → lock_invariant (run env sys interleaving).
Proof.
  revert sys. induction interleaving as [|i rest IH]; intros sys Hinv; [done|].
  simpl. apply IH. unfold turn.
  destruct (step env i sys) as [sys'|] eqn:Hstep; [|done].
  by eapply step_invariant.
Qed.

Lemma accesses_table_inside p : accesses_table p = true → inside p = true.
Proof. by destruct p. Qed.

(** C2.  However the scheduling callbacks of any number of worker threads
    interleave, a schedule id is bound to at most one thread name at any
    instant; every statement that reads or writes the binding table is run
    by the holder of the lock, at most one worker is inside a locked method,
    and between the test of a lookup-or-create or of a delete and the write
    that depends on it the table is still as tested. *)
Theorem binding_table_accessed_under_lock
    (env : Environment) (st : state) (ops : list operation)
    (interleaving : list nat) :
  let sys := run env (start st ops) interleaving in
  (∀ schedule_id name1 name2,
     scheduled_task_threads (shared sys) !! schedule_id = Some name1 →
     scheduled_task_threads (shared sys) !! schedule_id = Some name2 →
     name1 = name2)
  ∧ (∀ i op p, workers sys !! i = Some (op, p) → accesses_table p = true →
       thread_lock sys = Some i)
  ∧ (∀ i j op p op' p', workers sys !! i = Some (op, p) →
       workers sys !! j = Some (op', p') →
       inside p = true → inside p' = true → i = j)
  ∧ (∀ i op p, workers sys !! i = Some (op, p) → as_tested (shared sys) op p).
Proof.
  cbv zeta.
  pose proof (run_invariant env _ interleaving (start_invariant st ops)) as Hinv.
  split; [congruence|]. split; [|split].
  - intros i op p Hi Hacc.
    by destruct (Hinv _ _ _ Hi (accesses_table_inside _ Hacc)).
  - intros i j op p op' p' Hi Hj Hin Hin'.
    destruct (Hinv _ _ _ Hi Hin) as [Hlock _].
    destruct (Hinv _ _ _ Hj Hin') as [Hlock' _]. congruence.
  - intros i op p Hi. destruct (inside p) eqn:Hin.
    + by destruct (Hinv _ _ _ Hi Hin).
    + by destruct op, p.
Qed.

(** Two workers start the same scheduled task at once.  The lock lets one
    of them test and bind before the other tests: one thread is set up. *)
Lemma concurrent_starts_witness :
  let sys :=
    run sample_env (start initial [TaskStarted "s1"; TaskStarted "s1"])
      [0; 1; 0; 1; 0; 1; 0; 0; 1; 1; 1; 1] in
  scheduled_task_threads (shared sys) !! "s1" = Some (Some "Scheduled_1")
  ∧ threads_created (shared sys) = ["Scheduled_1"]
  ∧ workers sys
    = [(TaskStarted "s1", Left (Returned ()));
       (TaskStarted "s1", Left (Returned ()))]
  ∧ ∀ i op p, workers sys !! i = Some (op, p) → accesses_table p = true →
      thread_lock sys = Some i.
Proof.
  cbv zeta. split; [vm_compute; reflexivity|].
  split; [vm_compute; reflexivity|]. split; [vm_compute; reflexivity|].
  exact (proj1 (proj2 (binding_table_accessed_under_lock sample_env initial
                         [TaskStarted "s1"; TaskStarted "s1"]
                         [0; 1; 0; 1; 0; 1; 0; 0; 1; 1; 1; 1]))).
Defined.

(** *** A worker running alone performs its method *)

Lemma turn_enter env st op :
  turn env {| shared := st; thread_lock := None;
              workers := [(op, Entering)] |} 0
  = {| shared := st; thread_lock := Some 0;
       workers := [(op, first_point op)] |}.
Proof. reflexivity. Qed.

Lemma turn_statement env st lock op p st' p' :
  statement env st op p = Some (st', p') →
  turn env {| shared := st; thread_lock := lock; workers := [(op, p)] |} 0
  = {| shared := st'; thread_lock := lock; workers := [(op, p')] |}.
Proof.
  intros Hs. unfold turn, step.
  change (workers {| shared := st; thread_lock := lock;
                     workers := [(op, p)] |} !! 0) with (Some (op, p)).
  change (shared {| shared := st; thread_lock := lock;
                    workers := [(op, p)] |}) with st.
  destruct p; try (by destruct op); by rewrite Hs.
Qed.

Lemma turn_leave env st lock op r :
  turn env {| shared := st; thread_lock := lock;
              workers := [(op, Leaving r)] |} 0
  = {| shared := st; thread_lock := None; workers := [(op, Left r)] |}.
Proof. reflexivity. Qed.

Lemma turn_left env st lock op r :
  turn env {| shared := st; thread_lock := lock;
              workers := [(op, Left r)] |} 0
  = {| shared := st; thread_lock := lock; workers := [(op, Left r)] |}.
Proof. reflexivity. Qed.

Lemma run_cons env sys i rest :
  run env sys (i :: rest) = run env (turn env sys i) rest.
Proof. reflexivity. Qed.

Lemma run_nil env sys : run env sys [] = sys.
Proof. reflexivity. Qed.

Ltac alone_step :=
  rewrite run_cons;
  first [ rewrite turn_enter
        | rewrite turn_leave
        | rewrite turn_left
        | erewrite turn_statement by
            (unfold statement;
             repeat match goal with
                    | H : _ = _ |- _ => rewrite H
                    end; reflexivity) ].

Lemma alone_on_task_started env st schedule_id :
  run env (start st [TaskStarted schedule_id]) [0; 0; 0; 0; 0]
  = {| shared := (on_task_started env st schedule_id).1;
       thread_lock := None;
       workers := [(TaskStarted schedule_id,
                    Left (on_task_started env st schedule_id).2)] |}.
Proof.
  unfold on_task_started, start. rewrite fmap_cons, fmap_nil.
  unfold first_point.
  destruct (bool_decide (schedule_id ∉ dom (scheduled_task_threads st)))
    eqn:Htest.
  - destruct (setup_conversation_thread env st) as [name|error] eqn:Hsetup.
    + by do 5 alone_step.
    + do 5 alone_step. by destruct st.
  - do 5 alone_step. by destruct st.
Qed.

Lemma alone_handle_execution env st user_request schedule_id assistant_name :
  run env (start st [Execution user_request schedule_id assistant_name])
    [0; 0; 0; 0; 0; 0]
  = {| shared :=
         (handle_execution env st user_request schedule_id assistant_name).1.1;
       thread_lock := None;
       workers :=
         [(Execution user_request schedule_id assistant_name,
           Left (handle_execution env st user_request schedule_id
                   assistant_name).2)] |}.
Proof.
  unfold handle_execution, start. rewrite fmap_cons, fmap_nil.
  unfold first_point.
  destruct (use_system_assistant_for_thread_name env) eqn:Huse.
  - destruct (update_conversation_title env user_request
                (get (scheduled_task_threads st) schedule_id))
      as [updated|error] eqn:Htitle.
    + by do 6 alone_step.
    + do 6 alone_step. by destruct st.
  - by do 6 alone_step.
Qed.

Lemma alone_cleanup_scheduled_thread env st schedule_id :
  run env (start st [Cleanup schedule_id]) [0; 0; 0; 0]
  = {| shared := cleanup_scheduled_thread st schedule_id;
       thread_lock := None;
       workers := [(Cleanup schedule_id, Left (Returned ()))] |}.
Proof.
  unfold cleanup_scheduled_thread, start. rewrite fmap_cons, fmap_nil.
  unfold first_point.
  destruct (bool_decide (schedule_id ∈ dom (scheduled_task_threads st)))
    eqn:Htest.
  - by do 4 alone_step.
  - do 4 alone_step. by destruct st.
Qed.

(** *** Concurrent starts of one scheduled task *)

Lemma one_set_up_start st schedule_id n :
  one_set_up st schedule_id (start st (replicate n (TaskStarted schedule_id))).
Proof.
  split; [|split; [done|split; [by left|done]]].
  intros i op p Hi. simpl in Hi. rewrite list_lookup_fmap in Hi.
  destruct (replicate n (TaskStarted schedule_id) !! i) as [op'|] eqn:Hop;
    [|done].
  apply lookup_replicate in Hop as [-> _]. by injection Hi as <- _.
Qed.

Lemma one_set_up_step env st0 schedule_id i sys sys' :
  lock_invariant sys → one_set_up st0 schedule_id sys →
  step env i sys = Some sys' → one_set_up st0 schedule_id sys'.
Proof.
  intros Hinv (Hops & Hbound & Hone & Hsame) Hstep. unfold step in Hstep.
  destruct (workers sys !! i) as [[op p]|] eqn:Hi; [|discriminate Hstep].
  assert (i < length (workers sys)) as Hlen by (by eapply lookup_lt_Some).
  pose proof (Hops _ _ _ Hi) as ->.
  (* the workers after the step still run [on_task_started] *)
  assert (∀ q j op' p', <[i := (TaskStarted schedule_id, q)]> (workers sys) !! j
                        = Some (op', p') → op' = TaskStarted schedule_id)
    as Hops'.
  { intros q j op' p' Hj. destruct (decide (j = i)) as [->|Hne].
    - rewrite list_lookup_insert_eq in Hj by done. by injection Hj as <- _.
    - rewrite list_lookup_insert_ne in Hj by done. by eapply Hops. }
  (* a worker about to bind is still about to bind, unless it is [i] *)
  assert (∀ q, inside p = true → (∀ name, p ≠ Bind name) →
            threads_created (shared sys) = threads_created st0
            ∨ ∃ thread_name,
                threads_created (shared sys) = threads_created st0 ++ [thread_name]
                ∧ (bound (shared sys) schedule_id
                   ∨ ∃ j, <[i := (TaskStarted schedule_id, q)]> (workers sys) !! j
                          = Some (TaskStarted schedule_id, Bind thread_name)))
    as Hone'.
  { intros q Hin Hp. destruct Hone as [Hone|(name & Hone & [Hb|[j Hj]])];
      [by left|right; exists name; split; [done|by left]|].
    destruct (Hinv _ _ _ Hi Hin) as [Hlock _].
    destruct (Hinv _ _ _ Hj eq_refl) as [Hlock' _].
    assert (j = i) as -> by congruence. rewrite Hi in Hj.
    injection Hj as ->. by destruct (Hp name). }
  destruct p; simpl in Hstep; try discriminate Hstep.
  - (* acquiring the lock *)
    destruct (thread_lock sys) eqn:Hfree; [discriminate Hstep|].
    injection Hstep as <-. split; [apply Hops'|]. split; [done|].
    split; [|done]. simpl.
    destruct Hone as [Hone|(name & Hone & [Hb|[j Hj]])];
      [by left|right; exists name; split; [done|by left]|].
    destruct (Hinv _ _ _ Hj eq_refl) as [Hlock' _]. congruence.
  - (* the test *)
    injection Hstep as <-. split; [apply Hops'|]. split; [done|].
    split; [|done]. simpl. by apply Hone'.
  - (* setting up the thread *)
    destruct (Hinv _ _ _ Hi eq_refl) as [Hlock Hfresh]. simpl in Hfresh.
    destruct (setup_conversation_thread env (shared sys)) as [name|error];
      injection Hstep as <-.
    + split; [apply Hops'|]. simpl. split; [done|]. split.
      * right. exists name.
        destruct (Hone' SetUp eq_refl) as [->|(name' & _ & [Hb|[j Hj]])];
          [done| |by destruct Hfresh|].
        { split; [done|]. right. exists i.
          by rewrite list_lookup_insert_eq. }
        destruct (decide (j = i)) as [->|Hne].
        -- rewrite list_lookup_insert_eq in Hj by done. discriminate Hj.
        -- rewrite list_lookup_insert_ne in Hj by done.
           destruct (Hinv _ _ _ Hj eq_refl) as [Hlock' _]. congruence.
      * intros Hb. by destruct Hfresh; apply Hbound.
    + split; [apply Hops'|]. split; [done|]. split; [|done]. simpl.
      by apply Hone'.
  - (* binding the thread *)
    injection Hstep as <-. split; [apply Hops'|]. simpl.
    assert (bound {| scheduled_task_threads :=
                       <[schedule_id := Some thread_name]>
                         (scheduled_task_threads (shared sys));
                     threads_created := threads_created (shared sys) |}
              schedule_id) as Hnow.
    { unfold bound. simpl. rewrite dom_insert_L. apply elem_of_union. left.
      by apply elem_of_singleton. }
    split; [done|]. split; [|done].
    destruct Hone as [Hone|(name & Hone & _)]; [by left|].
    right. exists name. split; [done|by left].
  - (* releasing the lock *)
    injection Hstep as <-. split; [apply Hops'|]. split; [done|].
    split; [|done]. simpl. by apply Hone'.
Qed.

(** X20.  However many workers start the same scheduled task at once, and
    however they interleave, at most one thread is set up for it, and none
    when the schedule id is bound already. *)
Lemma concurrent_starts_set_up_one_thread env st schedule_id n interleaving :
  let sys :=
    run env (start st (replicate n (TaskStarted schedule_id))) interleaving in
  length (threads_created (shared sys)) ≤ S (length (threads_created st))
  ∧ (bound st schedule_id → threads_created (shared sys) = threads_created st).
Proof.
  cbv zeta.
  assert (∀ sys, lock_invariant sys → one_set_up st schedule_id sys →
            lock_invariant (run env sys interleaving)
            ∧ one_set_up st schedule_id (run env sys interleaving)) as Hrun.
  { induction interleaving as [|i rest IH]; intros sys Hinv Hone; [done|].
    rewrite run_cons. unfold turn.
    destruct (step env i sys) as [sys'|] eqn:Hstep; simpl; [|by apply IH].
    apply IH; [by eapply step_invariant|by eapply one_set_up_step]. }
  destruct (Hrun _ (start_invariant st _) (one_set_up_start st schedule_id n))
    as [_ (_ & _ & Hone & Hsame)].
  split; [|done].
  destruct Hone as [->|(name & -> & _)]; [lia|].
  rewrite length_app. simpl. lia.
Qed.

End SchedulerFacts.

(** ** Further facts about the stream event handler *)

Module StreamRunFacts.
Import Stream StreamRun StreamFacts.





Lemma well_built_init parent thread_id run_id submit :
  well_built (__init__ parent thread_id run_id submit).
Proof. done. Qed.

Lemma dispatch_same_identity h e :
  _parent (dispatch h e).1 = _parent h
  ∧ _name (dispatch h e).1 = _name h
  ∧ _thread_name (dispatch h e).1 = _thread_name h
  ∧ _thread_id (dispatch h e).1 = _thread_id h
  ∧ current_run_id (dispatch h e).1 = current_run_id h.
Proof.
  destruct e;
    try (rewrite dispatch_tool_call_done; unfold on_tool_call_done;
         by destruct (submits_tool_outputs _));
    simpl; unfold on_end, on_text_created, on_tool_call_created, start_once;
    try done;
    by repeat match goal with |- context [if ?b then _ else _] => destruct b end.
Qed.

Lemma made_for_stream name run thread es :
  Forall (λ e, ∀ h, _name h = name → current_run_id h = run →
                 _thread_name h = thread → well_built h →
                 Forall (made_for name run thread) (dispatch h e).2) es →
  ∀ h, _name h = name → current_run_id h = run → _thread_name h = thread →
    well_built h → Forall (made_for name run thread) (until_done h es).
Proof.
  induction 1 as [|e es He _ IH]; intros h Hn Hr Ht Hw; [by constructor|].
  rewrite until_done_cons. apply Forall_app. split; [by apply He|].
  destruct (dispatch_same_identity h e) as (Hp & Hn' & Ht' & Hi' & Hr').
  apply IH; try congruence.
  destruct Hw as [Hw1 Hw2]. split; congruence.
Qed.

Lemma made_for_event e name run thread :
  ∀ h, _name h = name → current_run_id h = run → _thread_name h = thread →
    well_built h → Forall (made_for name run thread) (dispatch h e).2.
Proof.
  induction e as [e Hflat|ra calls resumed IH] using event_nested_ind;
    intros h Hn Hr Ht Hw.
  - destruct e;
      try (rewrite dispatch_tool_call_done; unfold on_tool_call_done;
           simpl in Hflat; rewrite Hflat; by constructor);
      simpl; unfold on_end, on_text_created, on_tool_call_created, start_once;
      repeat match goal with |- context [if ?b then _ else _] => destruct b end;
      by repeat constructor.
  - rewrite dispatch_tool_call_done. unfold on_tool_call_done.
    destruct (submits_tool_outputs ra); [|by constructor].
    unfold _handle_required_action. apply Forall_app. split.
    + apply Forall_map, Forall_forall. by intros c _.
    + destruct Hw as [Hw1 Hw2].
      apply (made_for_stream name run thread resumed IH); simpl;
        try congruence. apply well_built_init.
Qed.

(** X2.  Every callback of a run, whichever handler fires it, is made for
    the assistant of the parent client, for the run, and for the thread
    name the thread id resolved to when the handler was built: a receiver
    can attribute each callback, those after a tool-call resume
    included. *)
Theorem callbacks_made_for_the_run
    (parent : AssistantClient) (thread_id run_id : string)
    (events : list event) :
  Forall (made_for (assistant_name_of parent) run_id
            (get_thread_name_by_id (thread_client parent) thread_id))
    (process_run parent thread_id run_id events).
Proof.
  unfold process_run.
  apply (made_for_stream _ _ _ events); try done.
  apply Forall_forall. intros e _. apply made_for_event.
Qed.



End StreamRunFacts.

(** ** Facts about the construction and export of configurations *)

Module ConfigDataFacts.
Import ConfigData.

Section facts.
Context {FunctionSpec : Type} `{EqDecision FunctionSpec}.

(** X4.  Building a configuration from a dictionary fails exactly when
    ['name'], ['instructions'] or ['model'] is missing, with the missing key
    that is read first as the error; every other key may be absent. *)
Theorem from_dict_needs_name_instructions_model
    (default_output_folder_path : string) (data : config_data FunctionSpec) :
  ((∃ c, from_dict default_output_folder_path data = Returned c)
   ↔ is_Some (name data) ∧ is_Some (instructions data) ∧ is_Some (model data))
  ∧ (name data = None →
     from_dict default_output_folder_path data = Raised "'name'")
  ∧ (is_Some (name data) → instructions data = None →
     from_dict default_output_folder_path data = Raised "'instructions'")
  ∧ (is_Some (name data) → is_Some (instructions data) → model data = None →
     from_dict default_output_folder_path data = Raised "'model'").
Proof.
  unfold from_dict, __init__.
  destruct (name data) as [n|], (instructions data) as [i|],
    (model data) as [m|]; simpl;
    (split; [split; [intros [c Hc]; by try discriminate Hc
                    |intros (Hn & Hi & Hm);
                     try (by destruct Hn); try (by destruct Hi);
                     try (by destruct Hm); by eexists]
            |repeat split; try done;
             try (by intros [? ?]); try (by intros _ [? ?]); 
             try (by intros _ _ ?)]).
Qed.

Lemma none_if_empty_not_empty v : none_if_empty v ≠ Some "".
Proof.
  destruct v as [s|]; [|done]. simpl.
  destruct (bool_decide_reflect (s = "")); [done|congruence].
Qed.

Lemma none_if_empty_id v : v ≠ Some "" → none_if_empty v = v.
Proof.
  destruct v as [s|]; [|done]. simpl. intros Hv.
  destruct (bool_decide_reflect (s = "")); [congruence|done].
Qed.

(** X5.  A configuration built from a dictionary holds no empty string
    where an identifier is expected: an empty assistant id and empty
    knowledge file ids are read as [None], the knowledge files keep their
    names, and one function configuration is built per selected
    function. *)
Theorem built_configuration_normalised
    (default_output_folder_path name' : string)
    (data : config_data FunctionSpec) (c : AssistantConfig FunctionSpec) :
  __init__ default_output_folder_path name' data = Returned c →
  normalised c
  ∧ dom (_knowledge_files c) = dom (default ∅ (knowledge_files data))
  ∧ (∀ file id, id ≠ "" →
       (_knowledge_files c !! file = Some (Some id)
        ↔ default ∅ (knowledge_files data) !! file = Some (Some id)))
  ∧ length (_function_configs c) = length (_selected_functions c).
Proof.
  unfold __init__.
  destruct (instructions data); [|discriminate].
  destruct (model data); [|discriminate].
  intros [= <-]. simpl. split; [split|split; [|split; [|done]]].
  - destruct (assistant_id data) as [v|]; [apply none_if_empty_not_empty|done].
  - intros file. simpl. rewrite lookup_fmap.
    destruct (default ∅ (knowledge_files data) !! file) as [v|]; [|done].
    simpl. intros [= Hv]. by apply none_if_empty_not_empty in Hv.
  - by rewrite dom_fmap_L.
  - intros file id Hid. rewrite lookup_fmap.
    destruct (default ∅ (knowledge_files data) !! file) as [[v|]|]; simpl;
      try done.
    destruct (bool_decide_reflect (v = "")); simpl; [|done].
    split; [done|]. intros [= ->]. done.
Qed.

Lemma fmap_none_if_empty_id (files : gmap string (option string)) :
  (∀ file, files !! file ≠ Some (Some "")) → none_if_empty <$> files = files.
Proof.
  intros Hfiles. apply map_eq. intros file. rewrite lookup_fmap.
  specialize (Hfiles file). destruct (files !! file) as [v|]; [|done].
  simpl. f_equal. apply none_if_empty_id. congruence.
Qed.

(** X6.  Export and reload is the identity on normalised configurations:
    rebuilding a configuration from the dictionary [_get_config_data]
    returns never fails and gives back every field, so the rebuilt
    configuration equals the exported one, also by the class's own
    [__eq__].  The assistant type survives because the export leaves that
    key of the dictionary as it was loaded. *)
Theorem export_then_from_dict_round_trip
    (default_output_folder_path : string) (c : AssistantConfig FunctionSpec) :
  normalised c →
  _function_configs c = _selected_functions c →
  _assistant_type c = default "assistant" (assistant_type (_config_data c)) →
  from_dict default_output_folder_path (_get_config_data c)
  = Returned (exported c)
  ∧ Config.__eq__ (compared c) (Config.Configuration (compared (exported c)))
    = Config.Bool true.
Proof.
  intros [Hid Hfiles] Hconfigs Htype. split.
  - unfold from_dict, __init__, exported. simpl. f_equal.
    rewrite none_if_empty_id by done.
    rewrite fmap_none_if_empty_id by done.
    rewrite <- Htype, <- Hconfigs. done.
  - apply ConfigFacts.eq_true_iff. by repeat split.
Qed.

(** A configuration just built satisfies what the round trip asks for. *)
Lemma built_configuration_round_trips
    (default_output_folder_path name' : string)
    (data : config_data FunctionSpec) (c : AssistantConfig FunctionSpec) :
  __init__ default_output_folder_path name' data = Returned c →
  from_dict default_output_folder_path (_get_config_data c)
  = Returned (exported c).
Proof using Type*.
  intros Hc.
  destruct (built_configuration_normalised _ _ _ _ Hc) as (Hn & _).
  apply export_then_from_dict_round_trip; [done| |];
    unfold __init__ in Hc;
    destruct (instructions data); try discriminate Hc;
    destruct (model data); try discriminate Hc;
    by injection Hc as <-.
Qed.

End facts.

(** The sample file: the empty assistant id and the empty file id are read
    as [None]. *)
Lemma built_configuration_witness :
  ∃ c, __init__ "/home/user/output" "A" sample_data = Returned c
    ∧ _assistant_id c = None
    ∧ _knowledge_files c !! "notes.txt" = Some None
    ∧ _ai_client_type c = "OPEN_AI"
    ∧ normalised c.
Proof.
  eexists. split; [reflexivity|]. split; [reflexivity|].
  split; [vm_compute; reflexivity|]. split; [reflexivity|].
  exact (proj1 (built_configuration_normalised
                  "/home/user/output" "A" sample_data _ eq_refl)).
Defined.

(** The sample configuration, exported and reloaded. *)
Lemma export_round_trip_witness :
  ∃ c, __init__ "/home/user/output" "A" sample_data = Returned c
    ∧ from_dict "/home/user/output" (_get_config_data c)
      = Returned (exported c).
Proof.
  eexists. split; [reflexivity|].
  refine (proj1 (export_then_from_dict_round_trip "/home/user/output" _ _ _ _)).
  - exact (proj1 (built_configuration_normalised
                    "/home/user/output" "A" sample_data _ eq_refl)).
  - reflexivity.
  - reflexivity.
Defined.

End ConfigDataFacts.

(** ** Facts about images, realtime input and failing inputs *)

Module InputsFacts.
Import Inputs.

Lemma image_dict_no_file_id image_path : image_dict image_path !! "file_id" = None.
Proof.
  unfold image_dict.
  rewrite !lookup_insert_ne by done. by rewrite lookup_singleton_ne.
Qed.

Lemma all_file_ids_with_image attachments_dicts image_path :
  Window.all_file_ids (add_image_to_selected_thread attachments_dicts image_path)
  = None.
Proof.
  unfold Window.all_file_ids, add_image_to_selected_thread.
  induction attachments_dicts as [|att rest IH]; simpl.
  - by rewrite image_dict_no_file_id.
  - destruct (att !! "file_id"); [|done]. simpl.
    unfold Window.all_file_ids in IH. by rewrite IH.
Qed.

(** X7.  The dictionary [add_image_to_selected_thread] appends has no
    ['file_id'] entry.  Handed an attachment list that holds it, the
    reconciliation raises the key error before it detaches anything, and
    [process_input] emits that error and starts no assistant. *)
Theorem added_image_makes_reconciliation_raise
    (env : Window.Collaborators) (config : gmap string (list Window.Attachment))
    (thread_id : string) (attachments_dicts : list (gmap string string))
    (image_path : string) :
  let with_image := add_image_to_selected_thread attachments_dicts image_path in
  Window.update_attachments_from_ui_to_thread env config thread_id
    (Some with_image) = (config, [], Raised "'file_id'")
  ∧ (Window.thread_client_initialized env = true →
     ∀ user_input assistants thread_name is_scheduled_task,
       Window.process_input env config user_input assistants thread_name
         is_scheduled_task (Some with_image)
       = (config,
          [Window.error_signal
             "An error occurred while processing the input: 'file_id'"],
          Raised "cannot access local variable 'assistant_name' where it is not associated with a value")).
Proof.
  cbv zeta.
  assert (Window.update_attachments_from_ui_to_thread env config thread_id
            (Some (add_image_to_selected_thread attachments_dicts image_path))
          = (config, [], Raised "'file_id'")) as Hraise.
  { unfold Window.update_attachments_from_ui_to_thread.
    by rewrite all_file_ids_with_image. }
  split; [done|]. intros Hinit user_input assistants thread_name sched.
  unfold Window.process_input, Window.process_input_body.
  rewrite Hinit. simpl negb. cbv iota.
  unfold Window.update_attachments_from_ui_to_thread.
  by rewrite all_file_ids_with_image.
Qed.

Lemma remove_image_returned attachments_dicts image_path kept :
  remove_image_from_selected_thread attachments_dicts image_path = Returned kept →
  kept = filter (λ att, att !! "file_path" ≠ Some image_path) attachments_dicts.
Proof.
  revert kept. induction attachments_dicts as [|att rest IH]; intros kept; simpl.
  - by intros [= <-].
  - destruct (att !! "file_path") as [path|] eqn:Hpath; [|discriminate].
    destruct (remove_image_from_selected_thread rest image_path) as [kept'|];
      [|discriminate].
    intros [= <-]. rewrite (IH kept' eq_refl), filter_cons, Hpath.
    destruct (bool_decide_reflect (path ≠ image_path)).
    + case_decide as Hd; [done|]. congruence.
    + case_decide as Hd; [|done].
      destruct (decide (path = image_path)); naive_solver.
Qed.

Lemma remove_image_returns attachments_dicts image_path :
  Forall (λ att, is_Some (att !! "file_path")) attachments_dicts →
  ∃ kept,
    remove_image_from_selected_thread attachments_dicts image_path = Returned kept.
Proof.
  induction 1 as [|att rest [path Hpath] _ [kept IH]]; simpl; [by eexists|].
  rewrite Hpath, IH. by eexists.
Qed.

(** X8.  Removing an image path drops every attachment dictionary with
    that path, whatever its type, and keeps the others in order; it raises
    when a dictionary has no ['file_path'].  Removing the path of an image
    just added gives back the list from before the addition when no other
    attachment has that path. *)
Theorem remove_image_undoes_add_image
    (attachments_dicts : list (gmap string string)) (image_path : string) :
  (∀ kept,
     remove_image_from_selected_thread attachments_dicts image_path
     = Returned kept →
     kept = filter (λ att, att !! "file_path" ≠ Some image_path)
              attachments_dicts)
  ∧ ((∃ kept, remove_image_from_selected_thread attachments_dicts image_path
              = Returned kept)
     ↔ Forall (λ att, is_Some (att !! "file_path")) attachments_dicts)
  ∧ (Forall (λ att, ∃ path, att !! "file_path" = Some path ∧ path ≠ image_path)
       attachments_dicts →
     remove_image_from_selected_thread
       (add_image_to_selected_thread attachments_dicts image_path) image_path
     = Returned attachments_dicts).
Proof.
  split; [apply remove_image_returned|]. split; [split|].
  - intros [kept Hkept]. revert kept Hkept.
    induction attachments_dicts as [|att rest IH]; intros kept; simpl;
      [by constructor|].
    destruct (att !! "file_path") as [path|] eqn:Hpath; [|discriminate].
    destruct (remove_image_from_selected_thread rest image_path) as [kept'|];
      [|discriminate].
    intros _. constructor; [by eexists|]. by eapply IH.
  - apply remove_image_returns.
  - intros Hother.
    assert (Forall (λ att, is_Some (att !! "file_path"))
              (add_image_to_selected_thread attachments_dicts image_path))
      as Hall.
    { apply Forall_app. split.
      - eapply Forall_impl; [exact Hother|]. intros att (path & Hp & _).
        by eexists.
      - repeat constructor. unfold image_dict.
        rewrite lookup_insert_ne by done. rewrite lookup_insert_eq.
        by eexists. }
    destruct (remove_image_returns _ image_path Hall) as [kept Hkept].
    rewrite Hkept. f_equal. rewrite (remove_image_returned _ _ _ Hkept).
    unfold add_image_to_selected_thread. rewrite filter_app.
    rewrite (filter_cons_False _ (image_dict image_path)); last first.
    { intros Hne. apply Hne. unfold image_dict.
      rewrite lookup_insert_ne by done. by rewrite lookup_insert_eq. }
    rewrite filter_nil, app_nil_r.
    apply WindowFacts.filter_all. intros att Hatt.
    rewrite Forall_forall in Hother.
    destruct (Hother att Hatt) as (path & -> & Hne). congruence.
Qed.

(** An image added to the sample attachments and removed again. *)
Lemma remove_image_witness :
  Forall (λ att, ∃ path, att !! "file_path" = Some path
                   ∧ path ≠ "/pictures/cat.png") sample_dicts
  ∧ remove_image_from_selected_thread
      (add_image_to_selected_thread sample_dicts "/pictures/cat.png")
      "/pictures/cat.png"
    = Returned sample_dicts.
Proof.
  assert (Forall (λ att, ∃ path, att !! "file_path" = Some path
                           ∧ path ≠ "/pictures/cat.png") sample_dicts)
    as Hother.
  { repeat constructor; eexists; (split; [vm_compute; reflexivity|done]). }
  split; [exact Hother|].
  exact (proj2 (proj2 (remove_image_undoes_add_image sample_dicts
                         "/pictures/cat.png")) Hother).
Defined.

(** *** Inputs that fail *)

(** X9.  [process_input] is left by an exception only when its [try]
    block failed before the loop over the assistants began: the exception
    is then the one of the unassigned loop variable, the error has been
    emitted last, and no assistant has been started, stopped or handed the
    messages.  A failure inside the loop is answered by the [except] clause
    and the method returns. *)
Theorem process_input_raises_only_before_first_assistant
    (env : Window.Collaborators) (config config' : gmap string (list Window.Attachment))
    (user_input : string) (assistants : list string) (thread_name : string)
    (is_scheduled_task : bool)
    (attachments_dicts : option (list (gmap string string)))
    (out : list Window.action) (error : string) :
  Window.process_input env config user_input assistants thread_name
    is_scheduled_task attachments_dicts = (config', out, Raised error) →
  error = "cannot access local variable 'assistant_name' where it is not associated with a value"
  ∧ ∃ prelude error_message,
      out = prelude ++ [Window.error_signal error_message]
      ∧ Forall (λ a, Window.about_processing a = false) prelude.
Proof.
  unfold Window.process_input, Window.process_input_body.
  destruct (Window.thread_client_initialized env); simpl.
  2: { intros [= <- <- <-]. split; [done|]. by eexists [], _. }
  pose proof (WindowFacts.update_attachments_not_about_processing env config
                (Window.get_thread_id_by_name env thread_name)
                attachments_dicts) as H1.
  destruct (Window.update_attachments_from_ui_to_thread env config _
              attachments_dicts) as [[config1 out1] [[]|error1]]; simpl in H1.
  2: { intros [= <- <- <-]. split; [done|]. by eexists out1, _. }
  pose proof (WindowFacts.create_thread_message_not_about_processing env
                user_input thread_name attachments_dicts) as H2.
  destruct (Window.create_thread_message env user_input thread_name
              attachments_dicts) as [out2 [[]|error2]]; simpl in H2.
  2: { intros [= <- <- <-]. split; [done|]. eexists (out1 ++ out2), _.
       split; [done|]. by apply Forall_app. }
  destruct (Window.retrieve_conversation env thread_name)
    as [conversation|error3].
  2: { intros [= <- <- <-]. split; [done|]. eexists (out1 ++ out2 ++ _), _.
       split; [done|].
       repeat (apply Forall_app; split); try done; by repeat constructor. }
  destruct (WindowFacts.process_assistants_shape env assistants thread_name
              is_scheduled_task None) as (blocks & _ & Hloop).
  destruct (Window.process_assistants env assistants thread_name
              is_scheduled_task None) as [[out5 r5] last].
  destruct Hloop as [Hloop|(error5 & name & Hloop)].
  - simpl in Hloop. injection Hloop as -> ->. discriminate.
  - injection Hloop as -> -> ->. discriminate.
Qed.

(** The thread client of a window that was never initialised. *)
Lemma process_input_raises_witness :
  Window.process_input uninitialised_env ∅ "hello" ["A"] "chat" false (Some [])
  = (∅,
     [Window.error_signal
        "An error occurred while processing the input: 'NoneType' object has no attribute 'get_config'"],
     Raised "cannot access local variable 'assistant_name' where it is not associated with a value")
  ∧ ∃ prelude error_message,
      [Window.error_signal
         "An error occurred while processing the input: 'NoneType' object has no attribute 'get_config'"]
      = prelude ++ [Window.error_signal error_message]
      ∧ Forall (λ a, Window.about_processing a = false) prelude.
Proof.
  assert (Window.process_input uninitialised_env ∅ "hello" ["A"] "chat" false
            (Some [])
          = (∅,
             [Window.error_signal
                "An error occurred while processing the input: 'NoneType' object has no attribute 'get_config'"],
             Raised "cannot access local variable 'assistant_name' where it is not associated with a value"))
    as Hrun by (vm_compute; reflexivity).
  split; [exact Hrun|].
  exact (proj2 (process_input_raises_only_before_first_assistant
                  _ _ _ _ _ _ _ _ _ _ Hrun)).
Defined.

(** *** Realtime text input *)


Lemma window_actions_quiet (out : list Window.action) :
  Forall (λ a, Window.about_processing a = false) out →
  Forall (λ a, is_processing_signal a = false) (window <$> out).
Proof. intros H. by apply Forall_fmap. Qed.



End InputsFacts.

(** ** Facts about the processing indicator and the cancel button *)

Module ProcessingFacts.
Import Processing.

Lemma get_set d n f m :
  get (set d n f) m = if bool_decide (m = n) then Some f else get d m.
Proof.
  induction d as [|[n0 f0] d IH]; simpl.
  - destruct (bool_decide_reflect (n = m)), (bool_decide_reflect (m = n));
      congruence.
  - destruct (bool_decide_reflect (n0 = n)); simpl.
    + subst n0.
      destruct (bool_decide_reflect (n = m)), (bool_decide_reflect (m = n));
        congruence.
    + rewrite IH.
      destruct (bool_decide_reflect (n0 = m)), (bool_decide_reflect (m = n));
        congruence.
Qed.

Lemma keys_set d n f :
  (set d n f).*1 = d.*1 ++ (if get d n is Some _ then [] else [n]).
Proof.
  induction d as [|[n0 f0] d IH]; [done|]. cbn [set get].
  destruct (bool_decide_reflect (n0 = n)); rewrite !fmap_cons; cbn [fst].
  - by rewrite app_nil_r.
  - by rewrite IH.
Qed.

(** What [start_processing_input] does: the assistant is marked for the kind
    of input, every other mark stays. *)
Lemma start_processing_input_marks d n s :
  (start_processing_input d n s).2
  = [input_field_set_read_only true; start_animation (status_of s)]
  ∧ ∀ m k, marked (start_processing_input d n s).1 m k
           = if bool_decide (m = n ∧ k = s) then true else marked d m k.
Proof.
  unfold start_processing_input, marked, status_of. split; [by destruct s|].
  intros m k.
  destruct (get d n) as [f|] eqn:Hget; destruct s; simpl; rewrite ?get_set;
    rewrite ?bool_decide_eq_true_2 by done; rewrite ?Hget; simpl;
    destruct (bool_decide_reflect (m = n)) as [->|Hne]; simpl;
    rewrite ?Hget; destruct k; simpl;
    rewrite ?(bool_decide_eq_true_2 (n = n)) by done; simpl;
    try (rewrite bool_decide_eq_true_2 by done; done);
    try (rewrite bool_decide_eq_false_2 by (by intros [? ?]); done).
Qed.

(** What [stop_processing_input] does: the animation is stopped when the
    assistant was marked for the kind of input, the mark is cleared, every
    other mark stays. *)
Lemma stop_processing_input_clears d n s :
  (stop_processing_input d n s).2
  = input_field_set_read_only false
    :: (if marked d n s then [stop_animation (status_of s)] else [])
  ∧ ∀ m k, marked (stop_processing_input d n s).1 m k
           = if bool_decide (m = n ∧ k = s) then false else marked d m k.
Proof.
  unfold stop_processing_input, marked, status_of.
  destruct (get d n) as [[u t]|] eqn:Hget.
  - destruct s, u, t; simpl; (split; [done|]); intros m k;
      rewrite ?get_set;
      destruct (bool_decide_reflect (m = n)) as [->|Hne]; simpl;
      rewrite ?Hget; destruct k; simpl;
      try (rewrite bool_decide_eq_true_2 by done; done);
      try (rewrite bool_decide_eq_false_2 by (by intros [? ?]); done).
  - split; [done|]. intros m k. case_bool_decide as Hmk; [|done].
    destruct Hmk as [-> ->]. simpl. by rewrite Hget.
Qed.

Lemma receive_all_app d l1 l2 :
  receive_all d (l1 ++ l2)
  = ((receive_all (receive_all d l1).1 l2).1,
     (receive_all d l1).2 ++ (receive_all (receive_all d l1).1 l2).2).
Proof.
  revert d. induction l1 as [|a l1 IH]; intros d; simpl.
  - by destruct (receive_all d l2).
  - destruct (receive d a) as [d1 out1]. rewrite IH.
    destruct (receive_all d1 l1) as [d2 out2]. simpl.
    by rewrite app_assoc.
Qed.

Lemma receive_all_prelude d l :
  Forall (λ a, Window.about_processing a = false) l → receive_all d l = (d, []).
Proof.
  induction 1 as [|a l Ha _ IH]; simpl; [done|].
  destruct a; try discriminate Ha; simpl; by rewrite IH.
Qed.

(** The slots over one complete processing of an assistant. *)
Lemma receive_all_processing d thread_name s block :
  Window.processing thread_name s block →
  (receive_all d block).2 = indicated s
  ∧ ∀ m k, marked (receive_all d block).1 m k = true → marked d m k = true.
Proof.
  intros Hblock.
  assert (∀ n, let d1 := (start_processing_input d n s).1 in
               (start_processing_input d n s).2
               ++ (stop_processing_input d1 n s).2 = indicated s
               ∧ ∀ m k, marked (stop_processing_input d1 n s).1 m k = true →
                        marked d m k = true) as Hpair.
  { intros n. cbv zeta.
    destruct (start_processing_input_marks d n s) as [Hout1 Hm1].
    destruct (stop_processing_input_clears
                (start_processing_input d n s).1 n s) as [Hout2 Hm2].
    rewrite Hout1, Hout2, Hm1, bool_decide_eq_true_2 by done.
    split; [done|]. intros m k. rewrite Hm2, Hm1.
    by case_bool_decide. }
  destruct Hblock as [n|n|n error_message]; simpl;
    specialize (Hpair n); cbv zeta in Hpair;
    destruct (start_processing_input d n s) as [d1 out1];
    simpl in Hpair;
    destruct (stop_processing_input d1 n s) as [d2 out2];
    simpl in *; by rewrite ?app_nil_r.
Qed.

Lemma receive_all_blocks d thread_name s blocks :
  Forall (Window.processing thread_name s) blocks →
  (receive_all d (concat blocks)).2
  = concat (replicate (length blocks) (indicated s))
  ∧ ∀ m k, marked (receive_all d (concat blocks)).1 m k = true →
           marked d m k = true.
Proof.
  intros Hblocks. revert d.
  induction Hblocks as [|block blocks Hblock _ IH]; intros d; [done|].
  simpl concat. rewrite receive_all_app. simpl.
  destruct (receive_all_processing d thread_name s block Hblock) as [Hout Hm].
  destruct (IH (receive_all d block).1) as [Hout' Hm'].
  rewrite Hout, Hout'. split; [done|]. intros m k Hmk. by apply Hm, Hm'.
Qed.

(** X11.  Delivered to the slots [start_processing_input] and
    [stop_processing_input], the signals of one [process_input] call start
    and stop the animation of its kind of input in pairs, each pair
    between making the input field read-only and writable again, and leave
    no assistant marked as processing that was not marked before. *)
Theorem indicator_started_and_stopped_in_pairs
    (env : Window.Collaborators) (config : gmap string (list Window.Attachment))
    (user_input : string) (assistants : list string) (thread_name : string)
    (is_scheduled_task : bool)
    (attachments_dicts : option (list (gmap string string))) (d : table) :
  let signals :=
    (Window.process_input env config user_input assistants thread_name
       is_scheduled_task attachments_dicts).1.2 in
  ∃ n,
    (receive_all d signals).2
    = concat (replicate n (indicated is_scheduled_task))
    ∧ ∀ assistant_name kind,
        marked (receive_all d signals).1 assistant_name kind = true →
        marked d assistant_name kind = true.
Proof.
  cbv zeta.
  destruct (WindowFacts.process_input_shape env config user_input assistants
              thread_name is_scheduled_task attachments_dicts)
    as (prelude & blocks & -> & Hprelude & Hblocks).
  exists (length blocks).
  rewrite receive_all_app, (receive_all_prelude d prelude Hprelude). simpl.
  by apply (receive_all_blocks d thread_name).
Qed.

Lemma elem_of_keys d n f : get d n = Some f → n ∈ d.*1.
Proof.
  induction d as [|[n0 f0] d IH]; [done|]. simpl.
  destruct (bool_decide_reflect (n0 = n)) as [->|?]; intros Hget;
    apply elem_of_cons; [by left|right; by apply IH].
Qed.

Lemma keys_start d n s m :
  m ∈ (start_processing_input d n s).1.*1 ↔ m ∈ d.*1 ∨ m = n.
Proof.
  unfold start_processing_input. cbv zeta.
  destruct (get d n) as [f|] eqn:Hget; destruct s;
    cbv beta iota delta [fst];
    rewrite !keys_set, ?get_set, ?bool_decide_eq_true_2, ?Hget by done;
    rewrite ?app_nil_r.
  3,4: rewrite elem_of_app, elem_of_cons, elem_of_nil; tauto.
  all: split; [by left|]; intros [?| ->]; [done|]; by eapply elem_of_keys.
Qed.

Lemma keys_stop d n s : (stop_processing_input d n s).1.*1 = d.*1.
Proof.
  unfold stop_processing_input.
  destruct (get d n) as [f|] eqn:Hget; [|done].
  destruct (_ && _); simpl; [by rewrite keys_set, Hget, app_nil_r|].
  destruct (_ && _); simpl; [by rewrite keys_set, Hget, app_nil_r|done].
Qed.

Lemma keys_receive_all d signals m :
  m ∈ d.*1 ∨ (∃ s, Window.start_signal m s ∈ signals) →
  m ∈ (receive_all d signals).1.*1.
Proof.
  revert d. induction signals as [|a rest IH]; intros d; simpl.
  - intros [?|[s Hs]]; [done|]. by apply elem_of_nil in Hs.
  - intros Hm.
    assert (m ∈ (receive d a).1.*1 ∨ ∃ s, Window.start_signal m s ∈ rest)
      as Hm'.
    { destruct Hm as [Hm|[s Hs]].
      - left. destruct a; simpl; try done.
        + apply keys_start. by left.
        + by rewrite keys_stop.
      - apply elem_of_cons in Hs as [<-|Hs]; [|right; by exists s].
        left. simpl. apply keys_start. by right. }
    specialize (IH (receive d a).1 Hm').
    destruct (receive d a) as [d1 out1]. cbn [fst] in IH.
    by destruct (receive_all d1 rest) as [d2 out2].
Qed.

Lemma cancel_runs_reaches env names n :
  n ∈ names → is_Some (Window.clients env !! n) →
  cancel_processing n ∈ cancel_runs env names.
Proof.
  intros Hn [client Hclient].
  induction names as [|n0 names IH]; [by apply elem_of_nil in Hn|].
  simpl. apply elem_of_cons in Hn as [<-|Hn].
  - rewrite Hclient. apply elem_of_cons. by left.
  - destruct (Window.clients env !! n0); [apply elem_of_cons; right|];
      by apply IH.
Qed.

(** X12.  An entry of [assistants_processing] is never removed: whatever
    start and stop signals the slots have received since, the cancel button
    calls [cancel_processing] on every assistant with a client that had an
    entry or has been started, whether or not it is still marked as
    processing. *)
Theorem cancel_reaches_every_assistant_ever_started
    (env : Window.Collaborators) (sidebar : Sidebar) (d : table)
    (signals : list Window.action) (assistant_name : string) :
  assistant_name ∈ d.*1
  ∨ (∃ kind, Window.start_signal assistant_name kind ∈ signals) →
  is_Some (Window.clients env !! assistant_name) →
  cancel_processing assistant_name
  ∈ (on_cancel_run_button_clicked env sidebar (receive_all d signals).1).1.
Proof.
  intros Hever Hclient. unfold on_cancel_run_button_clicked.
  pose proof (cancel_runs_reaches env _ assistant_name
                (keys_receive_all d signals assistant_name Hever) Hclient)
    as Hcancel.
  destruct (restart_realtime env sidebar _) as [out2 [[]|error]]; simpl;
    apply elem_of_app; by left.
Qed.

(** Assistant ["A"] has finished its processing and is cancelled still. *)
Lemma cancel_reaches_witness :
  let signals := [Window.start_signal "A" false; Window.stop_signal "A" false] in
  let sidebar := {| get_selected_assistants := ["A"];
                    get_current_text := "chat"; active_runs := ∅ |} in
  marked (receive_all [] signals).1 "A" false = false
  ∧ cancel_processing "A"
    ∈ (on_cancel_run_button_clicked Window.sample_env sidebar
         (receive_all [] signals).1).1.
Proof.
  cbv zeta. split; [vm_compute; reflexivity|].
  apply cancel_reaches_every_assistant_ever_started.
  - right. exists false. apply elem_of_cons. by left.
  - vm_compute. by eexists.
Defined.

Lemma restart_realtime_quiet env sidebar selected :
  Forall (λ a, ∀ b, a ≠ assistant_list_set_disabled b
                    ∧ a ≠ input_field_set_read_only b)
    (restart_realtime env sidebar selected).1.
Proof.
  induction selected as [|n rest IH]; simpl; [constructor|].
  destruct (Window.clients env !! n); [|constructor].
  destruct (restart_realtime env sidebar rest) as [out2 r2]. simpl in *.
  destruct (_ && _); simpl; [|done]. by repeat constructor.
Qed.

Lemma cancel_runs_quiet env names :
  Forall (λ a, ∀ b, a ≠ assistant_list_set_disabled b
                    ∧ a ≠ input_field_set_read_only b)
    (cancel_runs env names).
Proof.
  induction names as [|n rest IH]; simpl; [constructor|].
  destruct (Window.clients env !! n); [|done]. by repeat constructor.
Qed.

Lemma restart_realtime_returns env sidebar selected :
  (restart_realtime env sidebar selected).2 = Returned ()
  ↔ Forall (λ n, is_Some (Window.clients env !! n)) selected.
Proof.
  induction selected as [|n rest IH]; simpl; [by split; [constructor|]|].
  destruct (Window.clients env !! n) as [client|] eqn:Hclient.
  - destruct (restart_realtime env sidebar rest) as [out2 r2]. simpl in *.
    rewrite IH. split.
    + intros Hrest. constructor; [by eexists|done].
    + by intros [_ Hrest]%Forall_cons.
  - simpl. split; [done|]. intros [[? Hn] _]%Forall_cons. congruence.
Qed.

(** X13.  The cancel button re-enables the assistant list and the input
    field as the last thing it does, and only when every selected
    assistant has a client: the loop over the selected assistants uses the
    client as [get_client] returns it, and a selected assistant without a
    client ends the handler by an exception before anything is
    re-enabled. *)
Theorem cancel_reenables_only_when_selected_have_clients
    (env : Window.Collaborators) (sidebar : Sidebar) (d : table) :
  let all_have_clients :=
    Forall (λ n, is_Some (Window.clients env !! n))
      (get_selected_assistants sidebar) in
  let run := on_cancel_run_button_clicked env sidebar d in
  (all_have_clients →
   ∃ calls,
     run = (calls ++ [assistant_list_set_disabled false;
                      input_field_set_read_only false], Returned ())
     ∧ Forall (λ a, ∀ b, a ≠ assistant_list_set_disabled b
                         ∧ a ≠ input_field_set_read_only b) calls)
  ∧ (¬ all_have_clients →
     run.2 = Raised "'NoneType' object has no attribute 'assistant_config'"
     ∧ Forall (λ a, ∀ b, a ≠ assistant_list_set_disabled b
                         ∧ a ≠ input_field_set_read_only b) run.1).
Proof.
  cbv zeta. unfold on_cancel_run_button_clicked.
  pose proof (restart_realtime_returns env sidebar
                (get_selected_assistants sidebar)) as Hret.
  pose proof (restart_realtime_quiet env sidebar
                (get_selected_assistants sidebar)) as Hquiet.
  pose proof (cancel_runs_quiet env d.*1) as Hquiet1.
  assert (∀ error,
            (restart_realtime env sidebar (get_selected_assistants sidebar)).2
            = Raised error →
            error = "'NoneType' object has no attribute 'assistant_config'")
    as Herror.
  { generalize (get_selected_assistants sidebar) as selected.
    induction selected as [|n rest IH]; simpl; [done|].
    destruct (Window.clients env !! n); [|by intros error [= <-]].
    by destruct (restart_realtime env sidebar rest). }
  destruct (restart_realtime env sidebar _) as [out2 [[]|error]];
    simpl in *.
  - split.
    + intros _. exists (cancel_runs env d.*1 ++ out2).
      split; [by rewrite <- app_assoc|]. by apply Forall_app.
    + intros Hnot. destruct Hnot. by apply Hret.
  - split.
    + intros Hall. apply Hret in Hall. discriminate.
    + intros _. rewrite (Herror error eq_refl).
      split; [done|]. by apply Forall_app.
Qed.

End ProcessingFacts.

(** ** Facts about the start and the end of a run *)

Module RunsFacts.
Import Runs.

Lemma list_disabled_app b l1 l2 :
  list_disabled b (l1 ++ l2) = list_disabled (list_disabled b l1) l2.
Proof. apply foldl_app. Qed.

Lemma list_disabled_untouched b l :
  Forall (λ a, ∀ b', a ≠ window (Window.assistant_list_set_disabled b')) l →
  list_disabled b l = b.
Proof.
  intros Hl. revert b. induction Hl as [|a l Ha _ IH]; intros b; [done|].
  change (list_disabled b (a :: l))
    with (list_disabled
            (match a with
             | window (Window.assistant_list_set_disabled b') => b'
             | _ => b
             end) l).
  rewrite IH. destruct a as [[]| |]; try done. by destruct (Ha disabled).
Qed.

Lemma list_disabled_realtime_start env assistant_name run_identifier b :
  Window.is_realtime_assistant env assistant_name = true →
  list_disabled b
    (window <$> handle_realtime_run_start env assistant_name run_identifier)
  = true.
Proof.
  intros Hreal. unfold handle_realtime_run_start. rewrite Hreal.
  destruct (Window.mentions_keyword run_identifier); [|done].
  by destruct (Window.is_assistant_selected env assistant_name).
Qed.

Lemma list_disabled_realtime_end env assistant_name run_identifier b :
  Window.is_realtime_assistant env assistant_name = true →
  list_disabled b
    (window <$> Window.handle_realtime_run_end env assistant_name run_identifier)
  = false.
Proof.
  intros Hreal. unfold Window.handle_realtime_run_end. rewrite Hreal.
  destruct (Window.mentions_keyword run_identifier); [|done].
  by destruct (Window.is_assistant_selected env assistant_name).
Qed.

Lemma retrieve_files_quiet assistant_config file_messages :
  Forall (λ a, changes_view a = false ∧ is_end_run a = false
               ∧ ∀ b, a ≠ window (Window.assistant_list_set_disabled b))
    (retrieve_files assistant_config file_messages).1.
Proof.
  induction file_messages as [|fm rest IH]; simpl; [constructor|].
  destruct assistant_config as [path|]; [|constructor].
  destruct (retrieve_files (Some path) rest) as [out2 r2]. simpl in *.
  by constructor.
Qed.

Lemma copy_files_quiet assistant_config messages :
  Forall (λ a, changes_view a = false ∧ is_end_run a = false
               ∧ ∀ b, a ≠ window (Window.assistant_list_set_disabled b))
    (copy_files assistant_config messages).1.
Proof.
  induction messages as [|message rest IH]; simpl; [constructor|].
  pose proof (retrieve_files_quiet assistant_config
                (Window.file_messages message)) as H1.
  destruct (bool_decide _).
  - destruct (retrieve_files assistant_config _) as [out1 [[]|error]];
      simpl in *; [|done].
    destruct (copy_files assistant_config rest) as [out2 r2]. simpl in *.
    by apply Forall_app.
  - by destruct (copy_files assistant_config rest) as [out2 r2].
Qed.

Lemma retrieve_files_all output_folder_path file_messages :
  retrieve_files (Some output_folder_path) file_messages
  = ((λ fm, retrieve_file fm output_folder_path) <$> file_messages, Returned ()).
Proof.
  induction file_messages as [|fm rest IH]; [done|].
  cbn [retrieve_files]. by rewrite IH.
Qed.

Lemma copy_files_all output_folder_path messages :
  copy_files (Some output_folder_path) messages
  = ((λ fm, retrieve_file fm output_folder_path)
       <$> concat (Window.file_messages <$> messages), Returned ()).
Proof.
  induction messages as [|message rest IH]; [done|].
  cbn [copy_files]. rewrite IH, retrieve_files_all, fmap_cons.
  cbn [concat]. rewrite fmap_app.
  case_bool_decide as Hfiles; [done|].
  destruct (Window.file_messages message); [done|]. simpl in Hfiles. lia.
Qed.

Lemma realtime_end_keeps_view env assistant_name run_identifier :
  Forall (λ a, Window.changes_conversation_view a = false
               ∧ ∀ r1 r2 r3 r4, a ≠ Window.end_run_signal r1 r2 r3 r4)
    (Window.handle_realtime_run_end env assistant_name run_identifier).
Proof.
  unfold Window.handle_realtime_run_end.
  repeat match goal with |- context [if ?b then _ else _] => destruct b end;
    by repeat constructor.
Qed.

(** X14.  For a realtime assistant, [on_run_start] disables the assistant
    list; [on_run_end] and [on_run_failed] enable it again, also when they
    are left by an exception, and [on_run_cancelled] does not: after a run
    that is started and cancelled the list is disabled. *)
Theorem cancelled_realtime_run_leaves_assistant_list_disabled
    (env : Window.Collaborators) (outputs : Outputs)
    (assistant_name run_identifier run_start_time user_input run_end_time
       error_code error_message thread_name : string) (disabled : bool) :
  Window.is_realtime_assistant env assistant_name = true →
  let started :=
    on_run_start env assistant_name run_identifier run_start_time user_input in
  list_disabled disabled started = true
  ∧ list_disabled disabled
      (started ++ on_run_cancelled assistant_name run_identifier run_end_time)
    = true
  ∧ list_disabled disabled
      (started
       ++ (on_run_end env outputs assistant_name run_identifier run_end_time
             thread_name).1)
    = false
  ∧ list_disabled disabled
      (started
       ++ (window <$> (Window.on_run_failed env assistant_name run_identifier
                         run_end_time error_code error_message thread_name).1))
    = false.
Proof.
  intros Hreal. cbv zeta.
  assert (list_disabled disabled
            (on_run_start env assistant_name run_identifier run_start_time
               user_input) = true) as Hstart.
  { unfold on_run_start.
    change (start_run_signal ?a ?r ?t ?u :: ?l)
      with ([start_run_signal a r t u] ++ l).
    rewrite list_disabled_app. by apply list_disabled_realtime_start. }
  split; [done|]. rewrite !list_disabled_app, Hstart.
  split; [done|]. split.
  - unfold on_run_end.
    destruct (Window.retrieve_conversation env thread_name)
      as [conversation|error].
    + pose proof (copy_files_quiet (get_config outputs assistant_name)
                    conversation) as Hquiet.
      destruct (copy_files _ conversation) as [out r]. simpl in *.
      rewrite list_disabled_app, list_disabled_realtime_end by done.
      apply list_disabled_untouched. constructor; [done|].
      eapply Forall_impl; [exact Hquiet|]. by intros a (_ & _ & ?).
    + simpl. by apply list_disabled_realtime_end.
  - unfold Window.on_run_failed.
    destruct (Window.retrieve_conversation env thread_name)
      as [conversation|error]; simpl; rewrite ?fmap_app.
    + by rewrite list_disabled_app, list_disabled_realtime_end.
    + by apply list_disabled_realtime_end.
Qed.

(** The realtime assistant ["R"] is started and cancelled. *)
Lemma cancelled_realtime_run_witness :
  Window.is_realtime_assistant realtime_env "R" = true
  ∧ list_disabled false
      (on_run_start realtime_env "R" "run_1" "12:00" "Hello"
       ++ on_run_cancelled "R" "run_1" "12:01")
    = true.
Proof.
  assert (Window.is_realtime_assistant realtime_env "R" = true) as Hreal
    by (vm_compute; reflexivity).
  split; [exact Hreal|].
  exact (proj1 (proj2 (cancelled_realtime_run_leaves_assistant_list_disabled
                         realtime_env sample_outputs "R" "run_1" "12:00" "Hello"
                         "12:01" "" "" "chat" false Hreal))).
Defined.

(** X15.  [on_run_end] never clears or appends to the conversation view,
    for any thread; when it retrieves the conversation it shows the end of
    the run in the diagnostics once, and, for an assistant with a
    configuration, it downloads every file of every message of the thread,
    in order, to the output folder of the assistant, and returns. *)
Theorem run_end_downloads_every_file_of_the_thread
    (env : Window.Collaborators) (outputs : Outputs)
    (assistant_name run_identifier run_end_time thread_name : string) :
  let run :=
    on_run_end env outputs assistant_name run_identifier run_end_time
      thread_name in
  Forall (λ a, changes_view a = false) run.1
  ∧ (∀ conversation,
       Window.conversations env !! thread_name = Some conversation →
       length (filter (λ a, is_end_run a = true) run.1) = 1)
  ∧ (∀ conversation output_folder_path,
       Window.conversations env !! thread_name = Some conversation →
       get_config outputs assistant_name = Some output_folder_path →
       run.2 = Returned ()
       ∧ omap (λ a, match a with
                    | retrieve_file fm path => Some (fm, path)
                    | _ => None
                    end) run.1
         = (λ fm, (fm, output_folder_path))
             <$> concat (Window.file_messages <$> conversation)).
Proof.
  cbv zeta. unfold on_run_end, Window.retrieve_conversation.
  pose proof (realtime_end_keeps_view env assistant_name run_identifier)
    as Hreal.
  assert (Forall (λ a, changes_view a = false ∧ is_end_run a = false)
            (window <$> Window.handle_realtime_run_end env assistant_name
                          run_identifier)) as Hreal'.
  { apply Forall_fmap. eapply Forall_impl; [exact Hreal|].
    intros a [Hview Hend]. split; [done|]. destruct a; try done.
    by destruct (Hend assistant_name0 run_identifier0 run_end_time0 text). }
  assert (omap (λ a, match a with
                     | retrieve_file fm path => Some (fm, path)
                     | _ => None
                     end)
            (window <$> Window.handle_realtime_run_end env assistant_name
                          run_identifier) = []) as Hnone.
  { generalize (Window.handle_realtime_run_end env assistant_name
                  run_identifier).
    induction l as [|a l IH]; [done|]. exact IH. }
  destruct (Window.conversations env !! thread_name) as [conversation|].
  - pose proof (copy_files_quiet (get_config outputs assistant_name)
                  conversation) as Hquiet.
    split; [|split].
    + destruct (copy_files _ conversation) as [out r]. simpl in *.
      apply Forall_app. split.
      { eapply Forall_impl; [exact Hreal'|]. by intros a [? ?]. }
      constructor; [done|].
      eapply Forall_impl; [exact Hquiet|]. by intros a (? & _).
    + intros _ _.
      destruct (copy_files _ conversation) as [out r]. simpl in *.
      rewrite filter_app, length_app.
      rewrite (WindowFacts.filter_none _ (window <$> _)); last first.
      { intros a Ha. rewrite Forall_forall in Hreal'.
        destruct (Hreal' a Ha) as [_ Hend]. by rewrite Hend. }
      rewrite filter_cons_True by done.
      rewrite (WindowFacts.filter_none _ out); [done|].
      intros a Ha. rewrite Forall_forall in Hquiet.
      destruct (Hquiet a Ha) as (_ & Hend & _). by rewrite Hend.
    + intros conversation' output_folder_path [= <-] Hconfig.
      rewrite Hconfig, copy_files_all. simpl. split; [done|].
      rewrite omap_app, Hnone. simpl.
      generalize (concat (Window.file_messages <$> conversation)).
      induction l as [|fm l IH]; [done|].
      rewrite !fmap_cons. cbn [omap list_omap]. by rewrite IH.
  - split; [|split]; [|done|done]. simpl.
    eapply Forall_impl; [exact Hreal'|]. by intros a [? ?].
Qed.

End RunsFacts.

(** ** Facts about scheduled tasks: edge cases *)

Module ScheduledFacts.
Import Scheduler Scheduled.

(** X16.  An execution that comes before the start of its scheduled task
    finds no thread: [handle_execution] submits the request on thread
    [None] and binds the schedule id to [None], so that a later
    [on_task_started] finds the id bound and sets up no thread. *)
Theorem execution_before_start_binds_no_thread
    (env : Environment) (st : state)
    (user_request schedule_id assistant_name : string) :
  ¬ bound st schedule_id →
  use_system_assistant_for_thread_name env = false →
  let run := handle_execution env st user_request schedule_id assistant_name in
  scheduled_task_threads run.1.1 !! schedule_id = Some None
  ∧ omap submitted_on run.1.2 = [None]
  ∧ threads_created run.1.1 = threads_created st
  ∧ on_task_started env run.1.1 schedule_id = (run.1.1, Returned ()).
Proof.
  intros Hunbound Hoff. cbv zeta.
  assert (get (scheduled_task_threads st) schedule_id = None) as Hget.
  { unfold get. apply not_elem_of_dom in Hunbound. by rewrite Hunbound. }
  unfold handle_execution. rewrite Hoff, Hget.
  cbn [fst snd scheduled_task_threads threads_created].
  split; [by rewrite lookup_insert_eq|]. split.
  { by destruct (is_thread_selected env None). }
  split; [done|].
  apply SchedulerFacts.on_task_started_bound. unfold bound. cbn.
  rewrite dom_insert_L. apply elem_of_union. left. by apply elem_of_singleton.
Qed.

(** The first callback the sample window gets is an execution. *)
Lemma execution_before_start_witness :
  ¬ bound initial "s1"
  ∧ scheduled_task_threads
      (handle_execution sample_env initial "report" "s1" "A").1.1 !! "s1"
    = Some None
  ∧ on_task_started sample_env
      (handle_execution sample_env initial "report" "s1" "A").1.1 "s1"
    = ((handle_execution sample_env initial "report" "s1" "A").1.1,
       Returned ()).
Proof.
  assert (¬ bound initial "s1") as Hunbound.
  { unfold bound, initial. cbn. rewrite dom_empty_L. apply not_elem_of_empty. }
  pose proof (execution_before_start_binds_no_thread sample_env initial
                "report" "s1" "A" Hunbound eq_refl) as (H1 & _ & _ & H4).
  split; [exact Hunbound|]. split; [exact H1|exact H4].
Defined.

(** X17.  A batch is left at its first failing request: when the
    submission of a request raises, [on_task_execute] is left by that
    exception, and none of the requests after it is submitted. *)
Theorem batch_is_left_at_the_first_failing_request
    (env : Environment) (st : state) (user_request : string)
    (requests : list string) (schedule_id assistant_name error : string) :
  use_system_assistant_for_thread_name env = false →
  process_input env user_request [assistant_name]
    (get (scheduled_task_threads st) schedule_id) = Raised error →
  let run :=
    on_task_execute env st (BatchTask (user_request :: requests) assistant_name)
      schedule_id in
  run.2 = Raised error
  ∧ omap (λ a, match a with
               | process_input_call request _ _ => Some request
               | _ => None
               end) run.1.2 = [user_request].
Proof.
  intros Hoff Hraise. cbv zeta.
  unfold on_task_execute. rewrite fmap_cons. cbn [handle_executions].
  unfold handle_execution. rewrite Hoff, Hraise. cbn [fst snd].
  split; [done|]. by destruct (is_thread_selected env _).
Qed.

(** The submissions of the sample window raise. *)
Lemma batch_witness :
  omap (λ a, match a with
             | process_input_call request _ _ => Some request
             | _ => None
             end)
    (on_task_execute sample_env initial
       (BatchTask ["first"; "second"; "third"] "A") "s1").1.2
  = ["first"].
Proof.
  exact (proj2 (batch_is_left_at_the_first_failing_request sample_env initial
                  "first" ["second"; "third"] "s1" "A"
                  "cannot access local variable 'assistant_name'"
                  eq_refl eq_refl)).
Defined.

Lemma in_scheduled_tasks_iff st thread_name :
  _is_thread_name_in_scheduled_tasks st thread_name = true
  ↔ ∃ schedule_id,
      scheduled_task_threads st !! schedule_id = Some (Some thread_name).
Proof.
  unfold _is_thread_name_in_scheduled_tasks.
  rewrite bool_decide_eq_true, list_elem_of_fmap. split.
  - intros ([sid name] & Hname & Hin). simpl in Hname. subst name.
    exists sid. by apply elem_of_map_to_list in Hin.
  - intros [sid Hsid]. exists (sid, Some thread_name). split; [done|].
    by apply elem_of_map_to_list.
Qed.

(** X18.  The thread set up for a scheduled task is reported by
    [_is_thread_name_in_scheduled_tasks] once the task has started, and,
    when no other scheduled task is bound to a thread of that name, no
    longer once the task has completed or failed. *)
Theorem scheduled_thread_reported_from_start_to_completion
    (env : Environment) (st : state) (schedule_id : string) :
  ¬ bound st schedule_id →
  threads_client_initialized env = true →
  let thread_name := create_conversation_thread env (length (threads_created st)) in
  let started := (on_task_started env st schedule_id).1 in
  _is_thread_name_in_scheduled_tasks started thread_name = true
  ∧ (_is_thread_name_in_scheduled_tasks st thread_name = false →
     _is_thread_name_in_scheduled_tasks (on_task_completed started schedule_id)
       thread_name = false
     ∧ _is_thread_name_in_scheduled_tasks (on_task_failed started schedule_id)
         thread_name = false).
Proof.
  intros Hunbound Hinit. cbv zeta.
  rewrite (SchedulerFacts.on_task_started_unbound env st schedule_id Hunbound
             Hinit). cbn [fst].
  split.
  { apply in_scheduled_tasks_iff. exists schedule_id. cbn.
    by rewrite lookup_insert_eq. }
  intros Hfree.
  assert (∀ sid, scheduled_task_threads st !! sid
                 ≠ Some (Some (create_conversation_thread env
                                 (length (threads_created st))))) as Hnone.
  { intros sid Hsid.
    assert (_is_thread_name_in_scheduled_tasks st
              (create_conversation_thread env (length (threads_created st)))
            = true) as Hin by (apply in_scheduled_tasks_iff; by exists sid).
    congruence. }
  unfold on_task_completed, on_task_failed, cleanup_scheduled_thread. cbn.
  rewrite bool_decide_eq_true_2; last first.
  { rewrite dom_insert_L. apply elem_of_union. left. by apply elem_of_singleton. }
  assert (_is_thread_name_in_scheduled_tasks
            {| scheduled_task_threads :=
                 delete schedule_id
                   (<[schedule_id :=
                        Some (create_conversation_thread env
                                (length (threads_created st)))]>
                      (scheduled_task_threads st));
               threads_created :=
                 threads_created st
                 ++ [create_conversation_thread env
                       (length (threads_created st))] |}
            (create_conversation_thread env (length (threads_created st)))
          = false) as Hgone.
  { apply not_true_iff_false. intros [sid Hsid]%in_scheduled_tasks_iff.
    cbn in Hsid. destruct (decide (sid = schedule_id)) as [->|Hne].
    - by rewrite lookup_delete_eq in Hsid.
    - rewrite lookup_delete_ne, lookup_insert_ne in Hsid by done.
      by apply (Hnone sid). }
  by split.
Qed.

(** The first scheduled task of the sample window. *)
Lemma scheduled_thread_reported_witness :
  _is_thread_name_in_scheduled_tasks
    (on_task_started sample_env initial "s1").1 "Scheduled_1" = true
  ∧ _is_thread_name_in_scheduled_tasks
      (on_task_completed (on_task_started sample_env initial "s1").1 "s1")
      "Scheduled_1" = false.
Proof.
  assert (¬ bound initial "s1") as Hunbound.
  { unfold bound, initial. cbn. rewrite dom_empty_L. apply not_elem_of_empty. }
  pose proof (scheduled_thread_reported_from_start_to_completion sample_env
                initial "s1" Hunbound eq_refl) as [H1 H2].
  split; [exact H1|].
  refine (proj1 (H2 _)). vm_compute. reflexivity.
Defined.

End ScheduledFacts.
